(** * gemini-mcp: deep-research orchestration, model catalog and citations

    A shallow embedding of the TypeScript sources

      - tools/gemini-deep-research  (GeminiDeepResearchTool)
      - services/gemini             (GeminiService)
      - utils/error-handler         (McpError, createToolResult)

    JavaScript strings are modelled as [string] (one [ascii] per code unit,
    so code units below 256), JavaScript integers as [Z], loop counters and
    positions of arrays as [nat].  Numbers that the code parses, multiplies
    by a fraction or receives as chunk indices are rationals; where the
    code rounds, the rational is rounded to the nearest binary64 double.
    The remote model backend is an oracle. *)

From Stdlib Require Import ZArith QArith List String Ascii Bool Lia Arith.
From Stdlib Require Import Qround Lqa DecimalString.
Import ListNotations.

#[local] Open Scope nat_scope.
#[local] Open Scope list_scope.
#[local] Open Scope string_scope.

(* ================================================================== *)
(** * JavaScript string primitives *)
(* ================================================================== *)

(** [s.length] *)
Definition js_length (s : string) : Z := Z.of_nat (String.length s).

(** [s.substring(a, b)]: both arguments are clamped to [0, s.length] and
    swapped when [a > b]. *)
Definition js_substring (s : string) (a b : Z) : string :=
  let len := js_length s in
  let a' := Z.min (Z.max a 0) len in
  let b' := Z.min (Z.max b 0) len in
  let lo := Z.min a' b' in
  let hi := Z.max a' b' in
  String.substring (Z.to_nat lo) (Z.to_nat (hi - lo)) s.

(** [hay.includes(needle)] *)
Fixpoint includes (needle hay : string) : bool :=
  String.prefix needle hay ||
  match hay with
  | EmptyString => false
  | String _ hay' => includes needle hay'
  end.

Definition lower_ascii (c : ascii) : ascii :=
  let n := nat_of_ascii c in
  if (65 <=? n)%nat && (n <=? 90)%nat then ascii_of_nat (n + 32) else c.

(** [s.toLowerCase()] on the letters A-Z. *)
Fixpoint toLowerCase (s : string) : string :=
  match s with
  | EmptyString => EmptyString
  | String c s' => String (lower_ascii c) (toLowerCase s')
  end.

(** Template-literal rendering of a non-negative counter and of a number. *)
Definition string_of_nat (n : nat) : string :=
  NilZero.string_of_uint (Nat.to_uint n).

Definition string_of_Z (z : Z) : string :=
  NilZero.string_of_int (Z.to_int z).

(** The line feed and the double quote of the template literals. *)
Definition nl : string := String "010"%char EmptyString.
Definition dquote : string := String "034"%char EmptyString.

(** [xs.join(sep)] *)
Definition join (sep : string) (xs : list string) : string :=
  String.concat sep xs.

(** A JavaScript [Set<string>] keeps insertion order: [add] appends a value
    that is not yet a member. *)
Definition set_has (x : string) (s : list string) : bool :=
  existsb (String.eqb x) s.

Definition set_add (s : list string) (x : string) : list string :=
  if set_has x s then s else (s ++ [x])%list.

(** [[...new Set(xs)]] *)
Definition Set_of (xs : list string) : list string :=
  fold_left set_add xs [].

(** Substring containment as a proposition, used to state what a report
    holds. *)
Definition contains (needle hay : string) : Prop :=
  exists pre post, hay = pre ++ needle ++ post.

(* ================================================================== *)
(** * JavaScript numbers *)
(* ================================================================== *)

(** A finite Number is the binary64 double it denotes, kept as a rational.
    Literals, [parseFloat] and the arithmetic operators round the exact
    value to the nearest double, ties to the even significand. *)

(** The integer nearest to [n / d] for [d > 0], ties to the even one. *)
Definition round_half_even (n d : Z) : Z :=
  let q := (n / d)%Z in
  match (2 * (n mod d) ?= d)%Z with
  | Lt => q
  | Gt => (q + 1)%Z
  | Eq => if Z.even q then q else (q + 1)%Z
  end.

(** [m * 2^e] *)
Definition scale2 (m e : Z) : Q :=
  if (0 <=? e)%Z then inject_Z (m * 2 ^ e)
  else Qmake m (Z.to_pos (2 ^ (- e))).

(** [Infinity] is kept as the power of two just above every double: it
    equals itself and exceeds every finite value, as [Infinity] does. *)
Definition infinityValue : Q := inject_Z (2 ^ 1024).

(** The exponent of the last place of the doubles around [n / d]: 52
    below the exponent of [n / d], and not below -1074 (gradual
    underflow). *)
Definition lastPlace (n d : positive) : Z :=
  let k := (Z.log2 (Zpos n) - Z.log2 (Zpos d))%Z in
  let reaches :=
    if (0 <=? k)%Z then (Zpos d * 2 ^ k <=? Zpos n)%Z
    else (Zpos d <=? Zpos n * 2 ^ (- k))%Z in
  Z.max ((if reaches then k else (k - 1)%Z) - 52) (-1074).

(** The double nearest to [n / d]: 53 significant bits, [Infinity] from
    2^1024 on. *)
Definition nearestDouble (n d : positive) : Q :=
  let e := lastPlace n d in
  let m :=
    if (0 <=? e)%Z then round_half_even (Zpos n) (Zpos d * 2 ^ e)
    else round_half_even (Zpos n * 2 ^ (- e)) (Zpos d) in
  if Qle_bool infinityValue (scale2 m e) then infinityValue else scale2 m e.

(** The Number value of an exact rational. *)
Definition toDouble (q : Q) : Q :=
  match Qnum q with
  | Z0 => 0%Q
  | Zpos n => nearestDouble n (Qden q)
  | Zneg n => (- nearestDouble n (Qden q))%Q
  end.

(** [2^E <= n / d], on integers. *)
Definition reachesPower (n d : positive) (E : Z) : Prop :=
  (0 <= E /\ Zpos d * 2 ^ E <= Zpos n)%Z \/
  (E < 0 /\ Zpos d <= Zpos n * 2 ^ (- E))%Z.

(* ================================================================== *)
(** * Source extractor: [GeminiDeepResearchTool.extractSources] *)
(* ================================================================== *)

(** [\s] of a JavaScript regular expression, on code units below 256:
    TAB, LF, VT, FF, CR, SPACE and NBSP. *)
Definition is_js_space (c : ascii) : bool :=
  let n := nat_of_ascii c in
  ((9 <=? n)%nat && (n <=? 13)%nat) || (n =? 32)%nat || (n =? 160)%nat.

(** The class [[^\s)]]. *)
Definition url_char (c : ascii) : bool :=
  negb (is_js_space c) && negb (Ascii.eqb c ")").

(** Length of the greedy run [[^\s)]*] at the head of [s]. *)
Fixpoint run_length (s : string) : nat :=
  match s with
  | EmptyString => 0
  | String c s' => if url_char c then S (run_length s') else 0
  end.

(** [s.slice(n)] for an in-range [n]. *)
Fixpoint drop (n : nat) (s : string) : string :=
  match n, s with
  | O, _ => s
  | S n', String _ s' => drop n' s'
  | S _, EmptyString => EmptyString
  end.

(** Length of [https?:\/\/] at the head of [s].  The optional [s] is tried
    first; the two alternatives exclude each other, so backtracking never
    finds a second way. *)
Definition scheme_length (s : string) : option nat :=
  if String.prefix "https://" s then Some 8%nat
  else if String.prefix "http://" s then Some 7%nat
  else None.

(** Length of the match of [/https?:\/\/[^\s)]+/] anchored at the head of
    [s], if there is one. *)
Definition match_length (s : string) : option nat :=
  match scheme_length s with
  | Some k =>
      match run_length (drop k s) with
      | O => None
      | S r => Some (k + S r)%nat
      end
  | None => None
  end.

(** [content.match(/https?:\/\/[^\s)]+/g)]: all matches, left to right,
    without overlap.  [skip] counts the code units still covered by the
    previous match. *)
Fixpoint match_all (skip : nat) (s : string) : list string :=
  match s with
  | EmptyString => []
  | String _ s' =>
      match skip with
      | S k => match_all k s'
      | O =>
          match match_length s with
          | Some len => String.substring 0 len s :: match_all (len - 1) s'
          | None => match_all 0 s'
          end
      end
  end.

(** The class [[.,;:]]. *)
Definition is_trailing_punct (c : ascii) : bool :=
  Ascii.eqb c "." || Ascii.eqb c "," || Ascii.eqb c ";" || Ascii.eqb c ":".

(** [url.replace(/[.,;:]+$/, '')]: the leftmost match anchored at the end is
    the whole trailing run of punctuation. *)
Fixpoint strip_trailing_punct (s : string) : string :=
  match s with
  | EmptyString => EmptyString
  | String c s' =>
      match strip_trailing_punct s' with
      | EmptyString => if is_trailing_punct c then EmptyString
                       else String c EmptyString
      | t => String c t
      end
  end.

Definition extractSources (content : string) : list string :=
  let matches := match_all 0 content in
  let sources :=
    filter (fun cleanUrl => (10 <? String.length cleanUrl)%nat)
           (map strip_trailing_punct matches) in
  Set_of sources.

(* ================================================================== *)
(** * Data model of the service and of the research tool *)
(* ================================================================== *)

Record UsageMetadata := mkUsage {
  promptTokenCount : Z;
  candidatesTokenCount : Z;
  totalTokenCount : Z
}.

Record WebChunk := mkWeb { uri : option string }.
Record GroundingChunk := mkChunk { web : option WebChunk }.
(** The chunk indices of a support entry are Numbers of the response as
    it was sent: any finite number, negative and fractional ones too. *)
Record GroundingSupport := mkSupport {
  groundingChunkIndices : option (list Q)
}.

Record GroundingMetadata := mkGrounding {
  webSearchQueries : option (list string);
  groundingSupports : option (list GroundingSupport);
  groundingChunks : option (list GroundingChunk)
}.

Record ModelInfo := mkModel {
  name : string;
  displayName : string;
  description : string;
  contextWindow : Z
}.

Record ChatRequest := mkRequest {
  message : string;
  req_model : string;
  temperature : Q;
  maxTokens : Z;
  grounding : bool
}.

Record ChatResponse := mkResponse {
  content : string;
  resp_model : string;
  timestamp : string;
  finishReason : option string;
  groundingMetadata : option GroundingMetadata;
  usageMetadata : option UsageMetadata
}.

(** [geminiService.chat] either resolves with a response or rejects with an
    error carrying a message. *)
Inductive ChatOutcome :=
| Resolved (r : ChatResponse)
| Rejected (error_message : string).

(** The backend as the run sees it: the answer to the n-th call (counted
    from 0) for a given request. *)
Definition Backend := nat -> ChatRequest -> ChatOutcome.

Record ResearchStep := mkStep {
  query : string;
  response : string;
  sources : list string;
  step_usage : UsageMetadata
}.

Record McpError := mkError {
  err_message : string;
  code : string
}.

(** [value || fallback] on a string: the empty string is falsy. *)
Definition or_string (value : option string) (fallback : string) : string :=
  match value with
  | Some EmptyString | None => fallback
  | Some v => v
  end.

(** [value || fallback] on a number: 0 is falsy. *)
Definition or_number (value : option Z) (fallback : Z) : Z :=
  match value with
  | Some 0%Z | None => fallback
  | Some v => v
  end.

(** [xs.map((x, i) => f(x, i))] *)
Fixpoint mapi_from {A B} (i : nat) (f : A -> nat -> B) (xs : list A) : list B :=
  match xs with
  | [] => []
  | x :: xs' => f x i :: mapi_from (S i) f xs'
  end.

Definition mapi {A B} (f : A -> nat -> B) (xs : list A) : list B :=
  mapi_from 0 f xs.

(* ================================================================== *)
(** * Context compactor *)
(* ================================================================== *)

(** The summary line that [buildSmartContext] builds for [steps[i]]. *)
Definition stepSummary (i : nat) (step : ResearchStep) : string :=
  let len := js_length (response step) in
  let summaryLength := Z.min 1000 len in
  "Previous finding " ++ string_of_nat (i + 1) ++ ": "
    ++ js_substring (response step) 0 summaryLength
    ++ (if (summaryLength <? len)%Z then "..." else "")
    ++ nl ++ nl.

(** [maxTokens * ESTIMATED_CHARS_PER_TOKEN * 0.8], as an exact rational.
    The source computes it in binary floating point; for token counts below
    2^50 the comparison of an integer length with it has the same outcome. *)
Definition maxChars (maxTokens : Z) : Q :=
  inject_Z maxTokens * inject_Z 4 * (8 # 10).

(** [n > maxChars] *)
Definition over_budget (n : Z) (maxTokens : Z) : bool :=
  negb (Qle_bool (inject_Z n) (maxChars maxTokens)).

(** The loop [for (let i = steps.length - 1; i >= 0; i--)]; [next] is
    [i + 1], so that [next = 0] ends the loop. *)
Fixpoint smartContextLoop (steps : list ResearchStep) (maxTokens : Z)
    (next : nat) (context : string) (currentLength : Z) : string :=
  match next with
  | O => context
  | S i =>
      match nth_error steps i with
      | None => context
      | Some step =>
          let summary := stepSummary i step in
          if over_budget (currentLength + js_length summary) maxTokens
          then context
          else smartContextLoop steps maxTokens i (summary ++ context)
                 (currentLength + js_length summary)
      end
  end.

Definition buildSmartContext (steps : list ResearchStep) (maxTokens : Z)
    : string :=
  match steps with
  | [] => ""
  | _ => smartContextLoop steps maxTokens (List.length steps) "" 0%Z
  end.

(** The text kept for one step by [buildSynthesisContext]. *)
Definition truncatedResponse (maxCharsPerStep : Z) (step : ResearchStep)
    : string :=
  if (maxCharsPerStep <? js_length (response step))%Z
  then js_substring (response step) 0 maxCharsPerStep ++ "..."
  else response step.

(** [Math.floor((maxTokens * 4) / steps.length)]: [Z.div] rounds towards
    minus infinity for a positive divisor, as the floor of the quotient does
    for allowances below 2^50. *)
Definition maxCharsPerStep (steps : list ResearchStep) (maxTokens : Z) : Z :=
  ((maxTokens * 4) / Z.of_nat (List.length steps))%Z.

Definition synthesisSection (perStep : Z) (step : ResearchStep) (i : nat)
    : string :=
  "Research Iteration " ++ string_of_nat (i + 1) ++ ":" ++ nl
    ++ truncatedResponse perStep step.

Definition buildSynthesisContext (steps : list ResearchStep) (maxTokens : Z)
    : string :=
  join (nl ++ nl)
       (mapi (synthesisSection (maxCharsPerStep steps maxTokens)) steps).

(* ================================================================== *)
(** * Model catalog: [GeminiService.selectDefaultModel] *)
(* ================================================================== *)

Definition is_digit (c : ascii) : bool :=
  let n := nat_of_ascii c in ((48 <=? n) && (n <=? 57))%nat.

Definition digit_value (c : ascii) : Z := Z.of_nat (nat_of_ascii c - 48).

(** Reads the greedy run of digits at the head of [s]: the number read so far
    (starting from [acc]), how many digits were read, and the rest. *)
Fixpoint read_digits (acc : Z) (count : nat) (s : string)
    : Z * nat * string :=
  match s with
  | String c s' =>
      if is_digit c then read_digits (acc * 10 + digit_value c) (S count) s'
      else (acc, count, s)
  | EmptyString => (acc, count, s)
  end.

(** The decimal written by the match of digits, optional dot, digits at
    the head of [s]; the head of [s] is a digit. *)
Definition parse_version_at (s : string) : Q :=
  let '(int_part, _, rest) := read_digits 0 0 s in
  match rest with
  | String "."%char rest' =>
      let '(frac, k, _) := read_digits 0 0 rest' in
      inject_Z int_part + Qmake frac (Z.to_pos (10 ^ Z.of_nat k))
  | _ => inject_Z int_part
  end.

(** The first match of the pattern (digits, an optional dot, digits) in
    [modelName], read by [parseFloat]: the double nearest to the decimal;
    0 without a match. *)
Fixpoint extractVersion (modelName : string) : Q :=
  match modelName with
  | EmptyString => 0
  | String c rest =>
      if is_digit c then toDouble (parse_version_at modelName)
      else extractVersion rest
  end.

Definition isGemini (m : ModelInfo) : bool :=
  includes "gemini" (toLowerCase (name m)).

Definition isStable (m : ModelInfo) : bool :=
  let name := toLowerCase (name m) in
  negb (includes "-exp" name) &&
  negb (includes "-preview" name) &&
  negb (includes "experimental" name) &&
  negb (includes "-thinking-" name).

Definition isFlash (m : ModelInfo) : bool :=
  includes "flash" (toLowerCase (name m)).

(** The comparator handed to [sort]: negative puts [a] first.  The sort
    reads the sign of the result only, and the difference of two distinct
    doubles keeps its sign when rounded. *)
Definition compareModels (a b : ModelInfo) : Q :=
  let versionA := extractVersion (name a) in
  let versionB := extractVersion (name b) in
  if negb (Qeq_bool versionB versionA) then versionB - versionA
  else if isFlash a && negb (isFlash b) then (-1)%Q
  else if isFlash b && negb (isFlash a) then 1%Q
  else 0%Q.

(** [Array.prototype.sort] is stable: elements that compare equal keep their
    order.  Insertion from the right is the reference stable sort. *)
Fixpoint insert_sorted {A} (cmp : A -> A -> Q) (x : A) (l : list A) : list A :=
  match l with
  | [] => [x]
  | y :: t =>
      if Qle_bool (cmp x y) 0 then x :: y :: t
      else y :: insert_sorted cmp x t
  end.

Fixpoint js_sort {A} (cmp : A -> A -> Q) (l : list A) : list A :=
  match l with
  | [] => []
  | x :: t => insert_sorted cmp x (js_sort cmp t)
  end.

(** The candidates that reach the sort: the Gemini models, reduced to the
    stable ones when experimental models are not allowed and a stable one
    exists. *)
Definition sortCandidates (allowExperimentalModels : bool)
    (geminiModels : list ModelInfo) : list ModelInfo :=
  if negb allowExperimentalModels then
    let stableModels := filter isStable geminiModels in
    match stableModels with
    | [] => geminiModels
    | _ => stableModels
    end
  else geminiModels.

Definition selectDefaultModel (allowExperimentalModels : bool)
    (models : list ModelInfo) : option string :=
  match models with
  | [] => None
  | first :: _ =>
      let geminiModels := filter isGemini models in
      match geminiModels with
      | [] => Some (name first)
      | _ =>
          let sorted :=
            js_sort compareModels
                    (sortCandidates allowExperimentalModels geminiModels) in
          match sorted with
          | best :: _ => Some (name best)
          | [] => None
          end
      end
  end.

(** [getModelContextWindow]: [model?.contextWindow || 32_000]. *)
Definition getModelContextWindow (availableModels : list ModelInfo)
    (modelName : string) : Z :=
  match find (fun m => String.eqb (name m) modelName) availableModels with
  | Some m => or_number (Some (contextWindow m)) 32000
  | None => 32000%Z
  end.

(** [getFallbackModels] *)
Definition getFallbackModels : list ModelInfo :=
  [ mkModel "gemini-2.5-flash" "Gemini 2.5 Flash"
      "Latest Gemini 2.5 Flash - Fast, versatile performance" 1000000;
    mkModel "gemini-2.0-flash" "Gemini 2.0 Flash"
      "Gemini 2.0 Flash - Fast, efficient model" 1000000;
    mkModel "gemini-1.5-flash" "Gemini 1.5 Flash"
      "Gemini 1.5 Flash - Fast, efficient model" 1000000;
    mkModel "gemini-1.5-pro" "Gemini 1.5 Pro"
      "Gemini 1.5 Pro - Advanced reasoning" 2000000;
    mkModel "gemini-pro" "Gemini Pro"
      "Gemini Pro - Balanced performance" 32000;
    mkModel "gemini-pro-vision" "Gemini Pro Vision"
      "Gemini Pro Vision - Multimodal understanding" 16000 ].

(* ================================================================== *)
(** * Grounded citations: [GeminiService.addInlineCitations] *)
(* ================================================================== *)

(** [xs || []] *)
Definition or_empty {A} (xs : option (list A)) : list A :=
  match xs with Some l => l | None => [] end.

(** [chunk.web?.uri], kept when truthy. *)
Definition chunk_uri (chunk : GroundingChunk) : option string :=
  match web chunk with
  | Some w =>
      match uri w with
      | Some EmptyString | None => None
      | Some u => Some u
      end
  | None => None
  end.

(** A call returns a value, or throws the [TypeError] of reading a
    property of [undefined]. *)
Inductive Completion (A : Type) :=
  | Normal (value : A)
  | ThrowsTypeError.

Arguments Normal {A} value.
Arguments ThrowsTypeError {A}.

(** [chunkIndex < chunks.length] *)
Definition belowLength (chunkIndex : Q) (chunks : list GroundingChunk)
    : bool :=
  negb (Qle_bool (inject_Z (Z.of_nat (List.length chunks))) chunkIndex).

(** The position a Number names in an array: the Number itself when it is
    a natural number, and none otherwise. *)
Definition arrayIndex (x : Q) : option nat :=
  if (0 <=? Qnum x)%Z && (Qnum x mod Zpos (Qden x) =? 0)%Z
  then Some (Z.to_nat (Qnum x / Zpos (Qden x)))
  else None.

(** [chunks[chunkIndex]]; [None] is [undefined]. *)
Definition chunkAt (chunks : list GroundingChunk) (chunkIndex : Q)
    : option GroundingChunk :=
  match arrayIndex chunkIndex with
  | Some i => nth_error chunks i
  | None => None
  end.

(** The body of [for (const chunkIndex of indices)]; the state is
    [citationLinks] and [usedChunkIndices].  Reading [chunk.web] throws
    when [chunks[chunkIndex]] is [undefined]. *)
Definition visitChunkIndex (chunks : list GroundingChunk)
    (acc : list string * list Q) (chunkIndex : Q)
    : Completion (list string * list Q) :=
  let '(citationLinks, usedChunkIndices) := acc in
  if belowLength chunkIndex chunks
     && negb (existsb (Qeq_bool chunkIndex) usedChunkIndices)
  then
    match chunkAt chunks chunkIndex with
    | Some chunk =>
        match chunk_uri chunk with
        | Some u => Normal ((citationLinks ++ [u])%list,
                            (usedChunkIndices ++ [chunkIndex])%list)
        | None => Normal acc
        end
    | None => ThrowsTypeError
    end
  else Normal acc.

(** [for (const chunkIndex of indices)] *)
Fixpoint visitIndices (chunks : list GroundingChunk) (indices : list Q)
    (acc : list string * list Q) : Completion (list string * list Q) :=
  match indices with
  | [] => Normal acc
  | chunkIndex :: rest =>
      match visitChunkIndex chunks acc chunkIndex with
      | Normal acc' => visitIndices chunks rest acc'
      | ThrowsTypeError => ThrowsTypeError
      end
  end.

(** [for (const support of supports)] *)
Fixpoint visitSupports (chunks : list GroundingChunk)
    (supports : list GroundingSupport) (acc : list string * list Q)
    : Completion (list string * list Q) :=
  match supports with
  | [] => Normal acc
  | support :: rest =>
      match visitIndices chunks (or_empty (groundingChunkIndices support))
                         acc with
      | Normal acc' => visitSupports chunks rest acc'
      | ThrowsTypeError => ThrowsTypeError
      end
  end.

Definition collectCitations (supports : list GroundingSupport)
    (chunks : list GroundingChunk) : Completion (list string) :=
  match visitSupports chunks supports ([], []) with
  | Normal (citationLinks, _) => Normal citationLinks
  | ThrowsTypeError => ThrowsTypeError
  end.

(** [`\n\nSearch queries used: ${webSearchQueries.join(', ')}`] *)
Definition searchInfo (queries : list string) : string :=
  nl ++ nl ++ "Search queries used: " ++ join ", " queries.

(** [webSearchQueries && webSearchQueries.length > 0] *)
Definition recordedQueries (g : GroundingMetadata) : option (list string) :=
  match webSearchQueries g with
  | Some (q :: qs) => Some (q :: qs)
  | _ => None
  end.

Definition is_nil {A} (l : list A) : bool :=
  match l with [] => true | _ => false end.

Definition sourcesLine (citationLinks : list string) : string :=
  nl ++ nl ++ "Sources: "
     ++ join " " (map (fun url => "(" ++ url ++ ")") citationLinks).

Definition addInlineCitations (text : string) (g : GroundingMetadata)
    : Completion string :=
  let supports := or_empty (groundingSupports g) in
  let chunks := or_empty (groundingChunks g) in
  match recordedQueries g, is_nil supports && is_nil chunks with
  | Some queries, true => Normal (text ++ searchInfo queries)
  | _, _ =>
      if is_nil supports || is_nil chunks then Normal text
      else
        match collectCitations supports chunks with
        | ThrowsTypeError => ThrowsTypeError
        | Normal citationLinks =>
            let processedText :=
              match citationLinks with
              | [] => text
              | _ => text ++ sourcesLine citationLinks
              end in
            match recordedQueries g with
            | Some queries => Normal (processedText ++ searchInfo queries)
            | None => Normal processedText
            end
        end
  end.

(* ================================================================== *)
(** * Error boundary: [McpError], [createToolResult] *)
(* ================================================================== *)

Record TextContent := mkText { type : string; text : string }.

(** [createToolResult(success, content, error)]; on the failure path the
    error is always an [McpError], which [handleError] returns as it is. *)
Definition createToolResult (success : bool) (content : string)
    (error : option McpError) : list TextContent :=
  if success then [ mkText "text" content ]
  else
    let errorMessage :=
      match error with
      | Some e => err_message e
      | None => content
      end in
    [ mkText "text" ("Error: " ++ errorMessage) ].

(** Number rendering that depends on the host: [n.toLocaleString()] and
    [x.toFixed(1)]. *)
Class HostFormat := {
  toLocaleString : Z -> string;
  toFixed1 : Q -> string
}.

(* ================================================================== *)
(** * Deep-research orchestrator: [GeminiDeepResearchTool.execute] *)
(* ================================================================== *)

Record Args := mkArgs {
  research_question : string;
  model : option string;
  max_iterations : option Z;
  focus_areas : option (list string)
}.

(** One call to the backend, with what came back. *)
Record Call := mkCall {
  call_request : ChatRequest;
  call_outcome : ChatOutcome
}.

(** The mutable locals of [execute] at the top of a loop pass. *)
Record LoopState := mkState {
  iter : nat;
  report : string;
  researchSteps : list ResearchStep;
  cumulativeTokens : Z;
  consecutiveFailures : nat;
  calls : list Call
}.

(** How one pass of the loop body, or the loop, ends: [Continue] with the
    next pass, [Exit] from the loop ([break], or the loop condition is
    false), or [Throw]. *)
Inductive Flow :=
| Continue (st : LoopState)
| Exit (st : LoopState)
| Throw (e : McpError) (made : list Call).

(** How the [try] block of [execute] ends. *)
Inductive Outcome :=
| Returned (report : string)
| Threw (e : McpError).

(** [Math.min(args.max_iterations || 5, 10)] *)
Definition maxIterationsOf (max_iterations : option Z) : Z :=
  Z.min (or_number max_iterations 5) 10.

(** [Math.floor(modelContextWindow * 0.20)] and
    [Math.floor(modelContextWindow * 0.75)]: the literal is a double, the
    product with the window (an integer that a double holds) is rounded to
    a double, and the floor is taken of that. *)
Definition synthesisReserve (modelContextWindow : Z) : Z :=
  Qfloor (toDouble (inject_Z modelContextWindow * toDouble (20 # 100))).

Definition researchBudget (modelContextWindow : Z) : Z :=
  Qfloor (toDouble (inject_Z modelContextWindow * toDouble (75 # 100))).

(** [(error as Error).message || 'Unknown error'] *)
Definition errorMessageOf (error_message : string) : string :=
  or_string (Some error_message) "Unknown error".

Definition budgetNote (i : nat) : string :=
  nl ++ "*Note: Research stopped at iteration " ++ string_of_nat (i + 1)
     ++ " due to token budget limits.*" ++ nl ++ nl.

Definition failureNote (i : nat) (errorMessage : string) : string :=
  "*Iteration " ++ string_of_nat (i + 1) ++ " failed: " ++ errorMessage
     ++ "*" ++ nl ++ nl.

Definition iterationsFailingError (errorMessage : string) : McpError :=
  mkError
    ("Multiple research iterations failing consecutively." ++ nl ++ nl ++
     "Error: " ++ errorMessage ++ nl ++ nl ++
     "This usually means:" ++ nl ++
     "1. The question may be too broad or ambiguous" ++ nl ++
     "2. API rate limits or quota exceeded" ++ nl ++
     "3. Content filtering or safety blocks" ++ nl ++
     "4. Network or connectivity issues" ++ nl ++ nl ++
     "Try:" ++ nl ++
     "- Breaking the question into smaller, more specific queries" ++ nl ++
     "- Checking your API quota and rate limits" ++ nl ++
     "- Simplifying the research question" ++ nl ++
     "- Waiting a few moments before retrying")
    "RESEARCH_ITERATIONS_FAILING".

Definition allIterationsFailedError : McpError :=
  mkError
    ("All research iterations failed." ++ nl ++ nl ++
     "Possible causes:" ++ nl ++
     "1. The question format may not be suitable for research" ++ nl ++
     "2. Google Search grounding is not responding" ++ nl ++
     "3. API rate limits or quota exceeded" ++ nl ++
     "4. Network or connectivity issues" ++ nl ++ nl ++
     "Try:" ++ nl ++
     "- Rephrasing the question more clearly" ++ nl ++
     "- Reducing max_iterations to 3" ++ nl ++
     "- Checking your internet connection and API status" ++ nl ++
     "- Waiting a few minutes before retrying")
    "ALL_ITERATIONS_FAILED".

Definition synthesisFailureNote (errorMessage : string) : string :=
  "*Note: Synthesis phase encountered an error (" ++ errorMessage
    ++ "). Individual research findings are provided above.*" ++ nl ++ nl.

Definition synthesisPlaceholder : string :=
  "Synthesis unavailable. Please review the individual research findings above.".

Definition zeroUsage : UsageMetadata := mkUsage 0 0 0.

(** The backend and the constants of one run of [execute]: the locals that
    the loop only reads. *)
Record Env := mkEnv {
  chat : Backend;
  researchQuestion : string;
  model_ : string;
  focusAreas : list string;
  maxIterations : Z;
  modelContextWindow : Z
}.

Section Execute.

Context {host : HostFormat}.

Variable env : Env.

(** The report before the first loop pass. *)
Definition reportHeader : string :=
  ("# Deep Research Report" ++ nl ++ nl)
  ++ ("## Research Question" ++ nl ++ researchQuestion env ++ nl ++ nl)
  ++ (match focusAreas env with
      | [] => ""
      | _ => "## Focus Areas" ++ nl
               ++ join nl (map (fun area => "- " ++ area) (focusAreas env))
               ++ nl ++ nl
      end)
  ++ ("## Research Process" ++ nl ++ nl)
  ++ ("*Conducting " ++ string_of_Z (maxIterations env) ++ " research iteration"
        ++ (if (1 <? maxIterations env)%Z then "s" else "")
        ++ " with Google Search grounding...*" ++ nl ++ nl).

Definition initialState : LoopState :=
  mkState 0 reportHeader [] 0 0 [].

(** The prompt of pass [i] before the context is added, and the section
    heading that goes to the report. *)
Definition promptAndHeading (i : nat) : string * string :=
  match nth_error (focusAreas env) i with
  | Some area =>
      (researchQuestion env ++ nl ++ nl ++ "Focus specifically on: " ++ area,
       "### Iteration " ++ string_of_nat (i + 1) ++ ": " ++ area ++ nl ++ nl)
  | None =>
      (researchQuestion env,
       "### Iteration " ++ string_of_nat (i + 1) ++ nl ++ nl)
  end.

Definition iterationPromptOf (st : LoopState) : string :=
  let i := iter st in
  let contextContent :=
    buildSmartContext
      (researchSteps st)
      (researchBudget (modelContextWindow env) - cumulativeTokens st) in
  match contextContent, i with
  | EmptyString, _ | _, O => fst (promptAndHeading i)
  | _, _ => fst (promptAndHeading i) ++ nl ++ nl
              ++ "Context from previous research:" ++ nl ++ contextContent
  end.

Definition researchRequest (st : LoopState) : ChatRequest :=
  mkRequest (iterationPromptOf st) (model_ env) (5 # 10) 8192 true.

(** One pass of the [for] loop, entered with [i < maxIterations]. *)
Definition iteration (st : LoopState) : Flow :=
  let i := iter st in
  if (researchBudget (modelContextWindow env) <=? cumulativeTokens st)%Z then
    Exit (mkState i (report st ++ budgetNote i) (researchSteps st)
                  (cumulativeTokens st) (consecutiveFailures st)
                  (calls st))
  else
    let report1 := report st ++ snd (promptAndHeading i) in
    let request := researchRequest st in
    let outcome := chat env (List.length (calls st)) request in
    let made := (calls st ++ [mkCall request outcome])%list in
    match outcome with
    | Resolved searchResponse =>
        let cumulativeTokens1 :=
          match usageMetadata searchResponse with
          | Some u => (cumulativeTokens st + totalTokenCount u)%Z
          | None => cumulativeTokens st
          end in
        let step :=
          mkStep (message request) (content searchResponse)
                 (extractSources (content searchResponse))
                 (match usageMetadata searchResponse with
                  | Some u => u
                  | None => zeroUsage
                  end) in
        Continue (mkState (S i)
                          (report1 ++ content searchResponse ++ nl ++ nl)
                          (researchSteps st ++ [step])%list
                          cumulativeTokens1 0 made)
    | Rejected error_message =>
        let consecutiveFailures1 := S (consecutiveFailures st) in
        let errorMessage := errorMessageOf error_message in
        if (2 <=? consecutiveFailures1)%nat && is_nil (researchSteps st)
        then Throw (iterationsFailingError errorMessage) made
        else Continue (mkState (S i)
                               (report1 ++ failureNote i errorMessage)
                               (researchSteps st) (cumulativeTokens st)
                               consecutiveFailures1 made)
    end.

(** The [for] loop with [remaining] passes still allowed by
    [i < maxIterations]. *)
Fixpoint researchLoop (remaining : nat) (st : LoopState) : Flow :=
  match remaining with
  | O => Exit st
  | S remaining' =>
      match iteration st with
      | Continue st' => researchLoop remaining' st'
      | stopped => stopped
      end
  end.

Definition availableForSynthesis (cumulativeTokens : Z) : Z :=
  Z.min (synthesisReserve (modelContextWindow env))
        (modelContextWindow env - cumulativeTokens - 10000).

Definition synthesisPrompt (synthesisContext : string) : string :=
  "Based on the research conducted, provide a comprehensive synthesis answering: "
    ++ dquote ++ researchQuestion env ++ dquote ++ nl ++ nl
    ++ "Research findings:" ++ nl
    ++ synthesisContext ++ nl ++ nl
    ++ "Create a synthesis that:" ++ nl
    ++ "1. Directly answers the research question" ++ nl
    ++ "2. Integrates findings from all iterations" ++ nl
    ++ "3. Highlights key insights and patterns" ++ nl
    ++ "4. Notes any contradictions or gaps" ++ nl
    ++ "5. Provides actionable conclusions".

Definition synthesisRequest (st : LoopState) : ChatRequest :=
  mkRequest
    (synthesisPrompt
       (buildSynthesisContext (researchSteps st)
          (availableForSynthesis (cumulativeTokens st))))
    (model_ env) (6 # 10) 16384 false.

(** The synthesis phase, run when more than one step was recorded. *)
Definition synthesize (st : LoopState) : LoopState :=
  let report1 := report st ++ "### Synthesis" ++ nl ++ nl in
  let request := synthesisRequest st in
  let outcome := chat env (List.length (calls st)) request in
  let made := (calls st ++ [mkCall request outcome])%list in
  match outcome with
  | Resolved synthesisResponse =>
      let cumulativeTokens1 :=
        match usageMetadata synthesisResponse with
        | Some u => (cumulativeTokens st + totalTokenCount u)%Z
        | None => cumulativeTokens st
        end in
      mkState (iter st) (report1 ++ content synthesisResponse ++ nl ++ nl)
              (researchSteps st) cumulativeTokens1
              (consecutiveFailures st) made
  | Rejected error_message =>
      let errorMessage := errorMessageOf error_message in
      mkState (iter st)
              (report1 ++ synthesisFailureNote errorMessage
                       ++ synthesisPlaceholder ++ nl ++ nl)
              (researchSteps st) (cumulativeTokens st)
              (consecutiveFailures st) made
  end.

(** The union of the steps' sources, in first-seen order. *)
Definition allSourcesOf (steps : list ResearchStep) : list string :=
  fold_left (fun acc step => fold_left set_add (sources step) acc) steps [].

Definition sourcesSection (allSources : list string) : string :=
  "### Sources Consulted" ++ nl ++ nl ++
  match allSources with
  | [] => "*Note: No external sources were cited. This may indicate grounding did not function properly.*" ++ nl
  | _ => String.concat ""
           (mapi (fun source i =>
                    string_of_nat (i + 1) ++ ". " ++ source ++ nl)
                 allSources)
  end.

Definition statistics (st : LoopState) : string :=
  let n := List.length (researchSteps st) in
  (nl ++ "---" ++ nl ++ nl ++ "*Research completed with "
      ++ string_of_nat n ++ " successful iteration"
      ++ (if (1 <? n)%nat then "s" else "") ++ " using " ++ model_ env ++ "*" ++ nl)
  ++ ("*Total tokens used: " ++ toLocaleString (cumulativeTokens st)
      ++ " / " ++ toLocaleString (modelContextWindow env) ++ " available*" ++ nl)
  ++ ("*Context window utilization: "
      ++ toFixed1 (inject_Z (cumulativeTokens st)
                     / inject_Z (modelContextWindow env) * inject_Z 100)
      ++ "%*" ++ nl).

(** Everything after the loop. *)
Definition finish (st : LoopState) : Outcome * list Call :=
  if is_nil (researchSteps st) then (Threw allIterationsFailedError, calls st)
  else
    let st1 :=
      if (1 <? List.length (researchSteps st))%nat then synthesize st
      else st in
    (Returned (report st1
                 ++ sourcesSection (allSourcesOf (researchSteps st1))
                 ++ statistics st1),
     calls st1).

(** The [try] block: the outcome and the backend calls made, in order. *)
Definition run : Outcome * list Call :=
  match researchLoop (Z.to_nat (maxIterations env)) initialState with
  | Continue st | Exit st => finish st
  | Throw e made => (Threw e, made)
  end.

(** The locals at the top of pass [k] (counted from 0), when the [k] passes
    before it all went on to the next pass. *)
Fixpoint stateAfter (k : nat) : option LoopState :=
  match k with
  | O => Some initialState
  | S k' =>
      match stateAfter k' with
      | Some st =>
          match iteration st with
          | Continue st' => Some st'
          | _ => None
          end
      | None => None
      end
  end.

End Execute.

(** Reading a trace of backend calls. *)
Definition resolved (c : Call) : bool :=
  match call_outcome c with Resolved _ => true | Rejected _ => false end.

Definition isResearchCall (c : Call) : bool := grounding (call_request c).

(** The number of research calls that succeeded. *)
Definition succeededSteps (trace : list Call) : nat :=
  List.length (filter (fun c => isResearchCall c && resolved c) trace).

(** The call at position [j] of the trace was made and failed. *)
Definition rejectedAt (trace : list Call) (j : nat) : Prop :=
  match nth_error trace j with
  | Some c => resolved c = false
  | None => False
  end.

Definition tokensOf (steps : list ResearchStep) : Z :=
  fold_right (fun step acc => (totalTokenCount (step_usage step) + acc)%Z)
             0%Z steps.

(** What holds of the locals at the top of every loop pass. *)
Definition Inv (st : LoopState) : Prop :=
  cumulativeTokens st = tokensOf (researchSteps st) /\
  forallb isResearchCall (calls st) = true /\
  succeededSteps (calls st) = List.length (researchSteps st) /\
  (researchSteps st = [] ->
     List.length (calls st) = consecutiveFailures st /\
     consecutiveFailures st <= 1) /\
  (researchSteps st <> [] ->
     exists j c, j <= 1 /\ nth_error (calls st) j = Some c /\
                 resolved c = true).

(** The service as [execute] reads it. *)
Record GeminiService := mkService {
  availableModels : list ModelInfo;
  defaultModel : string
}.

(** The [try] block of [execute] on the tool's arguments. *)
Definition runExecute {host : HostFormat} (service : GeminiService)
    (chat : Backend) (args : Args) : Outcome * list Call :=
  let researchQuestion := research_question args in
  let maxIterations := maxIterationsOf (max_iterations args) in
  let model_ := or_string (model args) (defaultModel service) in
  let focusAreas := or_empty (focus_areas args) in
  let modelContextWindow :=
    getModelContextWindow (availableModels service) model_ in
  run (mkEnv chat researchQuestion model_ focusAreas maxIterations
              modelContextWindow).

(** [execute]: the [catch] turns a thrown [McpError] into a failure result. *)
Definition execute {host : HostFormat} (service : GeminiService)
    (chat : Backend) (args : Args) : list TextContent :=
  match fst (runExecute service chat args) with
  | Returned report => createToolResult true report None
  | Threw e => createToolResult false (err_message e) (Some e)
  end.

(* ================================================================== *)
(** * Vocabulary of the citation properties *)
(* ================================================================== *)

(** The Number of a position. *)
Definition indexNumber (i : nat) : Q := inject_Z (Z.of_nat i).

(** Every chunk index of the supports, in the order of the metadata. *)
Definition chunkIndexRefs (supports : list GroundingSupport) : list Q :=
  flat_map (fun support => or_empty (groundingChunkIndices support)) supports.

(** Some support entry lists chunk index [idx]. *)
Definition referenced (supports : list GroundingSupport) (idx : nat) : Prop :=
  exists x, In x (chunkIndexRefs supports) /\ (x == indexNumber idx)%Q.

(** The Number [x] is a natural number, or it is not below the number of
    chunks. *)
Definition safeIndex (chunks : list GroundingChunk) (x : Q) : Prop :=
  (exists i, (x == indexNumber i)%Q) \/
  (indexNumber (List.length chunks) <= x)%Q.

(** Chunk [idx] exists and carries the web URI [u]. *)
Definition resolves (chunks : list GroundingChunk) (idx : nat) (u : string)
    : Prop :=
  exists chunk, nth_error chunks idx = Some chunk /\ chunk_uri chunk = Some u.

(** Chunk [idx] exists and carries a web URI. *)
Definition resolvable (chunks : list GroundingChunk) (idx : nat) : bool :=
  match nth_error chunks idx with
  | Some chunk => match chunk_uri chunk with Some _ => true | None => false end
  | None => false
  end.

(** Duplicates removed, first-seen order kept. *)
Fixpoint firstSeenIndex (l : list nat) : list nat :=
  match l with
  | [] => []
  | i :: t => i :: filter (fun j => negb (Nat.eqb j i)) (firstSeenIndex t)
  end.

(** The whole part of a Number that is not negative. *)
Definition positionOf (x : Q) : nat := Z.to_nat (Qfloor x).

(** The chunk indices behind the [Sources:] line: the referenced positions
    that resolve to a URI, once each, in the order of first reference. *)
Definition citedIndices (supports : list GroundingSupport)
    (chunks : list GroundingChunk) : list nat :=
  firstSeenIndex
    (filter (resolvable chunks) (map positionOf (chunkIndexRefs supports))).

(** [safeIndex], decided. *)
Definition safeIndexb (chunks : list GroundingChunk) (x : Q) : bool :=
  negb (belowLength x chunks)
  || match arrayIndex x with Some _ => true | None => false end.

(** The line of search queries, when queries were recorded. *)
Definition queriesLine (g : GroundingMetadata) : string :=
  match recordedQueries g with
  | Some queries => searchInfo queries
  | None => ""
  end.

(** A chunk with a web URI. *)
Definition webChunk (u : string) : GroundingChunk :=
  mkChunk (Some (mkWeb (Some u))).

(** Metadata with two queries, three supports and three chunks, the last
    one without a web part. *)
Definition exampleGrounding : GroundingMetadata :=
  mkGrounding
    (Some ["rocq"; "stable sort"])
    (Some [ mkSupport (Some [1; 0]%Q);
            mkSupport None;
            mkSupport (Some [1; 5; 7 # 2; 2]%Q) ])
    (Some [ webChunk "https://a.example/x";
            webChunk "https://b.example/y";
            mkChunk None ]).

(* ================================================================== *)
(** * Vocabulary of the sorting properties *)
(* ================================================================== *)

(** [x] may stand before [y]: the comparator is not positive. *)
Definition before {A} (cmp : A -> A -> Q) (x y : A) : Prop :=
  Qle_bool (cmp x y) 0 = true.

(** The head of a list may stand before every element of the list. *)
Definition head_leads {A} (cmp : A -> A -> Q) (l : list A) : Prop :=
  match l with
  | [] => True
  | b :: _ => forall y, In y l -> before cmp b y
  end.

(* ================================================================== *)
(** * Vocabulary of the context properties *)
(* ================================================================== *)

(** The summaries of [steps[j]], [steps[j+1]], ... in that order. *)
Definition summariesFrom (steps : list ResearchStep) (j : nat) : list string :=
  mapi_from j (fun step i => stepSummary i step) (skipn j steps).

(** The strings of a list, one after the other. *)
Definition concat_all (l : list string) : string :=
  fold_right String.append "" l.

(** The number of code units of the strings of a list. *)
Definition totalLength (l : list string) : Z :=
  fold_right (fun s acc => (js_length s + acc)%Z) 0%Z l.

(* ================================================================== *)
(** * Vocabulary of the source-extraction properties *)
(* ================================================================== *)

(** Every code unit of [s] passes [p]. *)
Fixpoint all_chars (p : ascii -> bool) (s : string) : bool :=
  match s with
  | EmptyString => true
  | String c s' => p c && all_chars p s'
  end.

(** Duplicates removed, first-seen order kept: the words of the
    specification for what the [Set] does. *)
Fixpoint firstSeen (l : list string) : list string :=
  match l with
  | [] => []
  | x :: t => x :: filter (fun y => negb (String.eqb y x)) (firstSeen t)
  end.

(** The shape of a match: a scheme and a non-empty run of URL characters. *)
Definition matchShape (m : string) : Prop :=
  exists scheme run,
    (scheme = "http://" \/ scheme = "https://") /\
    m = scheme ++ run /\ run <> "" /\ all_chars url_char run = true.

(** What an extracted source looks like: a scheme, then at least one code
    unit, none of them white space or a closing parenthesis, no trailing
    punctuation, and more than 10 code units in all. *)
Definition cleanUrl (u : string) : Prop :=
  exists scheme rest,
    (scheme = "http://" \/ scheme = "https://") /\
    u = scheme ++ rest /\
    rest <> "" /\
    all_chars url_char rest = true /\
    strip_trailing_punct u = u /\
    10 < String.length u.

(* ================================================================== *)
(** * Vocabulary of the version properties *)
(* ================================================================== *)

(** The number a run of decimal digits writes, as the standard library
    reads it; 0 for the empty run. *)
Definition decimalValue (digits : string) : Z :=
  match NilEmpty.uint_of_string digits with
  | Some u => Z.of_uint u
  | None => 0%Z
  end.

(** The first code unit of [s] passes [p]. *)
Definition starts_with (p : ascii -> bool) (s : string) : bool :=
  match s with
  | String c _ => p c
  | EmptyString => false
  end.

Definition no_digit (c : ascii) : bool := negb (is_digit c).

Definition is_dot (c : ascii) : bool := Ascii.eqb c "."%char.

(* ================================================================== *)
(** * Example hosts, backends and runs *)
(* ================================================================== *)

(** Three digits, with leading zeros. *)
Definition pad3 (n : Z) : string :=
  (if (n <? 10)%Z then "00" else if (n <? 100)%Z then "0" else "")
    ++ string_of_Z n.

(** A non-negative number with a comma between groups of three digits. *)
Fixpoint grouped (fuel : nat) (n : Z) : string :=
  match fuel with
  | O => string_of_Z n
  | S fuel' =>
      if (n <? 1000)%Z then string_of_Z n
      else grouped fuel' (n / 1000) ++ "," ++ pad3 (n mod 1000)
  end.

(** A host with the en-US locale: digits grouped by commas, and one decimal
    rounded half up (on non-negative numbers). *)
Definition exampleHost : HostFormat :=
  {| toLocaleString :=
       fun n => if (n <? 0)%Z then "-" ++ grouped 30 (- n) else grouped 30 n;
     toFixed1 :=
       fun x =>
         let tenths := Qfloor (x * inject_Z 10 + (1 # 2)) in
         string_of_Z (tenths / 10) ++ "." ++ string_of_Z (tenths mod 10) |}.

(** A backend out of quota: every call is rejected. *)
Definition failingBackend : Backend :=
  fun _ _ => Rejected "quota exceeded".

(** A backend whose every answer costs 25000 tokens. *)
Definition hungryBackend : Backend :=
  fun _ _ =>
    Resolved (mkResponse "Found at https://example.org/a." "gemini-pro" ""
                None None (Some (mkUsage 10000 15000 25000))).

Definition envFailing : Env :=
  mkEnv failingBackend "why?" "gemini-pro" [] 5 32000.

Definition envHungry : Env :=
  mkEnv hungryBackend "why?" "gemini-pro" [] 5 32000.

(** The locals of the hungry run at the top of its second pass. *)
Definition hungryState : LoopState :=
  match stateAfter envHungry 1 with
  | Some st => st
  | None => initialState envHungry
  end.

(** A backend whose second call times out. *)
Definition flakyBackend : Backend :=
  fun n _ =>
    if (n =? 1)%nat then Rejected "timeout"
    else Resolved (mkResponse "Found at https://example.org/a." "gemini-pro"
                     "" None None (Some (mkUsage 100 200 300))).

(** A backend that answers research calls and rejects the synthesis call. *)
Definition noSynthesisBackend : Backend :=
  fun _ request =>
    if grounding request
    then Resolved (mkResponse "Found at https://example.org/a." "gemini-pro"
                     "" None None (Some (mkUsage 100 200 300)))
    else Rejected "overloaded".

Definition envFlaky : Env :=
  mkEnv flakyBackend "why?" "gemini-pro" [] 5 32000.

Definition envNoSynthesis : Env :=
  mkEnv noSynthesisBackend "why?" "gemini-pro" ["costs"] 3 32000.

(** The run returned its report. *)
Definition returned (o : Outcome) : bool :=
  match o with Returned _ => true | Threw _ => false end.

(** Two short findings. *)
Definition exampleSteps : list ResearchStep :=
  [ mkStep "why?" "abc" [] zeroUsage; mkStep "why?" "defg" [] zeroUsage ].

(** A catalog with a one-token model. *)
Definition tinyService : GeminiService :=
  mkService [mkModel "tiny" "Tiny" "A one-token model" 1] "tiny".

(** A catalog with a foreign model, a preview, an older release, and two
    releases of the newest stable version. *)
Definition mixedCatalog : list ModelInfo :=
  [ mkModel "text-bison-9" "" "" 8000;
    mkModel "gemini-3.0-pro-preview" "" "" 1000000;
    mkModel "gemini-1.5-flash" "" "" 1000000;
    mkModel "gemini-2.5-pro" "" "" 2000000;
    mkModel "Gemini-2.5-Flash" "" "" 1000000;
    mkModel "gemini-2.5-flash-exp" "" "" 1000000 ].

(* ================================================================== *)
(** * Vocabulary of the accounting properties *)
(* ================================================================== *)

(** The tokens that a call reports: the total of a resolved call with usage
    metadata, 0 otherwise. *)
Definition tokensOfCall (c : Call) : Z :=
  match call_outcome c with
  | Resolved r =>
      match usageMetadata r with
      | Some u => totalTokenCount u
      | None => 0%Z
      end
  | Rejected _ => 0%Z
  end.

(** The tokens reported over a trace of calls. *)
Definition tokensOfTrace (trace : list Call) : Z :=
  fold_right (fun c acc => (tokensOfCall c + acc)%Z) 0%Z trace.

(** The settings of a research call of the run [env]. *)
Definition researchShaped (env : Env) (c : Call) : Prop :=
  req_model (call_request c) = model_ env /\
  temperature (call_request c) = (5 # 10) /\
  maxTokens (call_request c) = 8192%Z /\
  grounding (call_request c) = true.

(** The settings of the synthesis call of the run [env]. *)
Definition synthesisShaped (env : Env) (c : Call) : Prop :=
  req_model (call_request c) = model_ env /\
  temperature (call_request c) = (6 # 10) /\
  maxTokens (call_request c) = 16384%Z /\
  grounding (call_request c) = false.

(** The last element of a list, if any. *)
Definition last_step (steps : list ResearchStep) : option ResearchStep :=
  match rev steps with
  | last :: _ => Some last
  | [] => None
  end.

(** What the run keeps true of its locals at the top of every pass: the
    token counter is the sum over the calls made, every call made is a
    research call of this run, the tokens spent before the last recorded step
    were below the budget, the report starts with the header, one call was
    made per pass, and the sources of a step are those of its response. *)
Definition Ledger (env : Env) (st : LoopState) : Prop :=
  cumulativeTokens st = tokensOfTrace (calls st) /\
  Forall (researchShaped env) (calls st) /\
  match last_step (researchSteps st) with
  | Some last =>
      (cumulativeTokens st - totalTokenCount (step_usage last)
         < researchBudget (modelContextWindow env))%Z
  | None => cumulativeTokens st = 0%Z
  end /\
  (exists t, report st = reportHeader env ++ t) /\
  List.length (calls st) = iter st /\
  Forall (fun step => sources step = extractSources (response step))
         (researchSteps st).

(* ================================================================== *)
(** * Error classes and results: utils/error-handler *)
(* ================================================================== *)

(** The classes [McpError], [GeminiError] and [ConfigurationError]. *)
Inductive ErrorName := McpErrorName | GeminiErrorName | ConfigurationErrorName.

(** A thrown value: a plain [Error], or an [McpError] or one of its
    subclasses, with its message, code and status. *)
Inductive JsError :=
| PlainError (message : string)
| KnownError (name : ErrorName) (e : McpError) (statusCode : Z).

(** [new McpError(message, code)]; the code defaults to UNKNOWN_ERROR at the
    call sites that give none. *)
Definition newMcpError (message code : string) : JsError :=
  KnownError McpErrorName (mkError message code) 500.

(** [new GeminiError(message)] *)
Definition newGeminiError (message : string) : JsError :=
  KnownError GeminiErrorName (mkError message "GEMINI_ERROR") 500.

(** [new ConfigurationError(message)] *)
Definition newConfigurationError (message : string) : JsError :=
  KnownError ConfigurationErrorName (mkError message "CONFIGURATION_ERROR") 500.

(** [error.message] *)
Definition messageOf (error : JsError) : string :=
  match error with
  | PlainError message => message
  | KnownError _ e _ => err_message e
  end.

(** [error instanceof McpError] *)
Definition instanceofMcpError (error : JsError) : bool :=
  match error with
  | PlainError _ => false
  | KnownError _ _ _ => true
  end.

(** [error instanceof GeminiError] *)
Definition instanceofGeminiError (error : JsError) : bool :=
  match error with
  | KnownError GeminiErrorName _ _ => true
  | _ => false
  end.

(** [handleError(error, context)], without its log line. *)
Definition handleError (error : JsError) (context : option string) : JsError :=
  let contextMessage :=
    match context with
    | Some EmptyString | None => ""
    | Some c => "[" ++ c ++ "] "
    end in
  let fullMessage := contextMessage ++ messageOf error in
  if instanceofMcpError error then error
  else if includes "API key" (messageOf error)
  then newConfigurationError fullMessage
  else if includes "Gemini" (messageOf error)
          || includes "generative" (messageOf error)
  then newGeminiError fullMessage
  else newMcpError fullMessage "UNKNOWN_ERROR".

(** [createToolResult(success, content, error)] for any thrown value. *)
Definition createToolResultOf (success : bool) (content : string)
    (error : option JsError) : list TextContent :=
  if success then [ mkText "text" content ]
  else
    let errorMessage :=
      match error with
      | Some e => messageOf (handleError e None)
      | None => content
      end in
    [ mkText "text" ("Error: " ++ errorMessage) ].

(* ================================================================== *)
(** * The chat tool: [GeminiChatTool.execute] *)
(* ================================================================== *)

(** The request of [GeminiService.chat], every field but the message
    optional. *)
Record ChatParams := mkParams {
  p_message : string;
  p_model : option string;
  p_temperature : option Q;
  p_maxTokens : option Z;
  p_systemPrompt : option string;
  p_grounding : option bool
}.

(** How a call of [GeminiService.chat] ends. *)
Inductive ChatResult :=
| ChatOk (r : ChatResponse)
| ChatThrows (e : JsError).

(** The arguments of the tool. *)
Record ChatToolArgs := mkChatArgs {
  a_message : option string;
  a_model : option string;
  a_temperature : option Q;
  a_max_tokens : option Z;
  a_system_prompt : option string;
  a_grounding : option bool
}.

(** [GeminiChatTool.execute]: the result and the requests sent to the
    service. *)
Definition chatToolExecute (service : ChatParams -> ChatResult)
    (args : ChatToolArgs) : list TextContent * list ChatParams :=
  match a_message args with
  | Some EmptyString | None =>
      let error := newMcpError "Message is required" "INVALID_PARAMS" in
      (createToolResultOf false (messageOf error) (Some error), [])
  | Some message =>
      let request :=
        mkParams message (a_model args) (a_temperature args)
                 (a_max_tokens args) (a_system_prompt args)
                 (a_grounding args) in
      match service request with
      | ChatOk response =>
          (createToolResultOf true (content response) None, [request])
      | ChatThrows error =>
          (if instanceofMcpError error
           then createToolResultOf false (messageOf error) (Some error)
           else createToolResultOf false
                  ("Unexpected error: " ++ messageOf error) (Some error),
           [request])
      end
  end.

(* ================================================================== *)
(** * The registered deep-research handler: index *)
(* ================================================================== *)

(** What a registered handler returns: the text items and the structured
    content with its success flag. *)
Record HandlerResult := mkHandlerResult {
  h_content : list TextContent;
  h_structuredContent : string;
  h_success : bool
}.

(** The handler registered for gemini_deep_research; [execute] catches what
    it throws, so the handler's own [catch] is never entered. *)
Definition deepResearchHandler {host : HostFormat} (service : GeminiService)
    (backend : Backend) (args : Args) : HandlerResult :=
  let result := execute service backend args in
  mkHandlerResult result
    (match result with
     | first :: _ => or_string (Some (text first)) "Research completed"
     | [] => "Research completed"
     end)
    true.

(* ================================================================== *)
(** * The chat call of the service: [GeminiService.chat] *)
(* ================================================================== *)

(** The configuration of the service (config/index). *)
Record GeminiConfig := mkConfig {
  cfg_safetySettings : list (string * string);
  cfg_maxTokens : Z;
  cfg_temperature : Q;
  cfg_defaultGrounding : bool;
  cfg_allowExperimentalModels : bool
}.

(** What [getGenerativeModel] is given. *)
Record ModelConfig := mkModelConfig {
  mc_model : string;
  mc_safetySettings : list (option string * option string);
  mc_temperature : Q;
  mc_maxOutputTokens : Z;
  mc_googleSearch : bool
}.

(** A candidate of the provider's response. *)
Record SdkCandidate := mkCandidate {
  c_finishReason : option string;
  c_groundingMetadata : option GroundingMetadata
}.

(** The provider's response: the block reason of the prompt feedback, the
    text ([None] when [text()] throws), the candidates and the usage. *)
Record SdkResponse := mkSdkResponse {
  sdk_blockReason : option string;
  sdk_text : option string;
  sdk_candidates : option (list SdkCandidate);
  sdk_usageMetadata : option UsageMetadata
}.

(** How [generateContent] ends. *)
Inductive SdkOutcome :=
| SdkReturns (response : SdkResponse)
| SdkThrows (error : JsError).

(** A string that is present and not empty. *)
Definition truthy (s : option string) : option string :=
  match s with
  | Some EmptyString | None => None
  | Some v => Some v
  end.

Definition lookup (key : string) (table : list (string * string))
    : option string :=
  match find (fun entry => String.eqb (fst entry) key) table with
  | Some entry => Some (snd entry)
  | None => None
  end.

Definition harmCategoryMap : list (string * string) :=
  [ ("HARM_CATEGORY_HARASSMENT", "HARM_CATEGORY_HARASSMENT");
    ("HARM_CATEGORY_HATE_SPEECH", "HARM_CATEGORY_HATE_SPEECH");
    ("HARM_CATEGORY_SEXUALLY_EXPLICIT", "HARM_CATEGORY_SEXUALLY_EXPLICIT");
    ("HARM_CATEGORY_DANGEROUS_CONTENT", "HARM_CATEGORY_DANGEROUS_CONTENT") ].

Definition harmBlockThresholdMap : list (string * string) :=
  [ ("BLOCK_NONE", "BLOCK_NONE");
    ("BLOCK_LOW_AND_ABOVE", "BLOCK_LOW_AND_ABOVE");
    ("BLOCK_MEDIUM_AND_ABOVE", "BLOCK_MEDIUM_AND_ABOVE");
    ("BLOCK_ONLY_HIGH", "BLOCK_ONLY_HIGH") ].

(** [mapSafetySettings]: a name outside the tables maps to [undefined]. *)
Definition mapSafetySettings (config : GeminiConfig)
    : list (option string * option string) :=
  map (fun setting =>
         (lookup (fst setting) harmCategoryMap,
          lookup (snd setting) harmBlockThresholdMap))
      (cfg_safetySettings config).

(** The finish reasons that the service explains, by their printed code. *)
Definition finishReasonMap : list (string * string) :=
  [ ("1", "STOP - Natural ending");
    ("2", "SAFETY - Content was filtered");
    ("3", "MAX_TOKENS - Hit token limit");
    ("4", "UNSPECIFIED");
    ("5", "OTHER") ].

(** [finishReasonMap[reason] || `Unknown reason: ${reason}`] *)
Definition finishReasonText (finishReason : string) : string :=
  or_string (lookup finishReason finishReasonMap)
            ("Unknown reason: " ++ finishReason).

(** [response.candidates?.[0]] *)
Definition firstCandidate (response : SdkResponse) : option SdkCandidate :=
  match sdk_candidates response with
  | Some (candidate :: _) => Some candidate
  | _ => None
  end.

Definition candidateGrounding (response : SdkResponse)
    : option GroundingMetadata :=
  match firstCandidate response with
  | Some candidate => c_groundingMetadata candidate
  | None => None
  end.

Definition candidateFinishReason (response : SdkResponse) : option string :=
  match firstCandidate response with
  | Some candidate => c_finishReason candidate
  | None => None
  end.

(** The model configuration that [chat] builds for a request. *)
Definition modelConfigOf (config : GeminiConfig) (defaultModel : string)
    (request : ChatParams) : ModelConfig :=
  let shouldUseGrounding :=
    match p_grounding request with
    | Some b => b
    | None => cfg_defaultGrounding config
    end in
  let modelName := or_string (p_model request) defaultModel in
  mkModelConfig modelName (mapSafetySettings config)
    (match p_temperature request with
     | Some t => t
     | None => cfg_temperature config
     end)
    (match p_maxTokens request with
     | Some n => n
     | None => cfg_maxTokens config
     end)
    shouldUseGrounding.

(** The prompt that [chat] sends. *)
Definition promptOf (request : ChatParams) : string :=
  match truthy (p_systemPrompt request) with
  | Some systemPrompt =>
      systemPrompt ++ nl ++ nl ++ "User: " ++ p_message request
        ++ nl ++ nl ++ "Assistant:"
  | None => p_message request
  end.

Definition blockedMessage (blockReason : string) : string :=
  "Response was blocked by safety filters. Reason: " ++ blockReason ++ ". "
    ++ "Try rephrasing your query or using different parameters.".

Definition filteredMessage (finishReason : string) : string :=
  "Response was filtered. Finish reason: " ++ finishReasonText finishReason
    ++ nl ++ nl
    ++ "Try:" ++ nl ++ "1. Rephrasing your query" ++ nl
    ++ "2. Using a different model" ++ nl
    ++ "3. Adjusting temperature settings".

Definition noTextMessage : string :=
  "No text content in response. The model may have filtered the content.".

(** The message of the [TypeError] that reading [chunk.web] of [undefined]
    throws on Node.js. *)
Definition undefinedWebMessage : string :=
  "Cannot read properties of undefined (reading 'web')".

(** [GeminiService.chat] once the models are initialized: [defaultModel] is
    the default of the service at that time, [generate] the provider, [now]
    the time stamp. *)
Definition chatOf (config : GeminiConfig) (defaultModel : string)
    (generate : ModelConfig -> string -> SdkOutcome) (now : string)
    (request : ChatParams) : ChatResult :=
  let modelConfig := modelConfigOf config defaultModel request in
  match generate modelConfig (promptOf request) with
  | SdkThrows error =>
      if instanceofGeminiError error then ChatThrows error
      else ChatThrows
             (newGeminiError ("Error generating response: " ++ messageOf error))
  | SdkReturns response =>
      match truthy (sdk_blockReason response) with
      | Some blockReason => ChatThrows (newGeminiError (blockedMessage blockReason))
      | None =>
          match sdk_text response with
          | None =>
              match truthy (candidateFinishReason response) with
              | Some finishReason =>
                  ChatThrows (newGeminiError (filteredMessage finishReason))
              | None => ChatThrows (newGeminiError noTextMessage)
              end
          | Some responseText =>
              let groundingMetadata := candidateGrounding response in
              let processed :=
                match groundingMetadata with
                | Some g => addInlineCitations responseText g
                | None => Normal responseText
                end in
              match processed with
              | Normal processedContent =>
                  ChatOk (mkResponse processedContent (mc_model modelConfig)
                            now (candidateFinishReason response)
                            groundingMetadata (sdk_usageMetadata response))
              | ThrowsTypeError =>
                  ChatThrows
                    (newGeminiError
                       ("Error generating response: " ++ undefinedWebMessage))
              end
          end
      end
  end.

(** The request that [execute] hands to [chat]. *)
Definition paramsOfRequest (request : ChatRequest) : ChatParams :=
  mkParams (message request) (Some (req_model request))
           (Some (temperature request)) (Some (maxTokens request)) None
           (Some (grounding request)).

(** The backend of a research run when the service stands before the
    provider; [generateAt n] answers the call number [n]. *)
Definition serviceBackend (config : GeminiConfig) (defaultModel : string)
    (generateAt : nat -> ModelConfig -> string -> SdkOutcome) (now : string)
    : Backend :=
  fun n request =>
    match chatOf config defaultModel (generateAt n) now
                 (paramsOfRequest request) with
    | ChatOk response => Resolved response
    | ChatThrows error => Rejected (messageOf error)
    end.

(* ================================================================== *)
(** * Example configuration and providers *)
(* ================================================================== *)

(** The configuration of config/index, experimental models not allowed. *)
Definition exampleConfig : GeminiConfig :=
  mkConfig
    [ ("HARM_CATEGORY_HARASSMENT", "BLOCK_MEDIUM_AND_ABOVE");
      ("HARM_CATEGORY_HATE_SPEECH", "BLOCK_MEDIUM_AND_ABOVE");
      ("HARM_CATEGORY_SEXUALLY_EXPLICIT", "BLOCK_MEDIUM_AND_ABOVE");
      ("HARM_CATEGORY_DANGEROUS_CONTENT", "BLOCK_MEDIUM_AND_ABOVE") ]
    16384 (7 # 10) true false.

(** A provider that blocks every prompt. *)
Definition blockingProvider : nat -> ModelConfig -> string -> SdkOutcome :=
  fun _ _ _ => SdkReturns (mkSdkResponse (Some "SAFETY") None None None).

Definition envBlocked : Env :=
  mkEnv (serviceBackend exampleConfig "gemini-2.5-flash" blockingProvider
           "2025-01-29T00:00:00.000Z")
        "why?" "gemini-pro" [] 5 32000.


(* ================================================================== *)
(** * Model discovery: [fetchModelsFromAPI], [initializeModels],
      [ensureModelsInitialized] *)
(* ================================================================== *)

(** [s.replace(pattern, replacement)] with a string pattern: the first
    occurrence only. *)
Fixpoint replaceFirst (pattern replacement s : string) : string :=
  if String.prefix pattern s
  then replacement ++ drop (String.length pattern) s
  else match s with
       | EmptyString => EmptyString
       | String c s' => String c (replaceFirst pattern replacement s')
       end.

(** An entry of the provider's model list. *)
Record ApiModel := mkApiModel {
  api_name : string;
  api_displayName : option string;
  api_description : option string;
  api_inputTokenLimit : option Z;
  api_supportedGenerationMethods : option (list string)
}.

(** [response.json()] *)
Inductive JsonBody :=
| JsonThrows (error : JsError)
| JsonData (models : option (list ApiModel)).

(** How the request for the model list ends. *)
Inductive FetchOutcome :=
| FetchThrows (error : JsError)
| FetchResponds (ok : bool) (statusText : string) (body : JsonBody).

(** How [fetchModelsFromAPI] ends. *)
Inductive Discovery :=
| Discovered (models : list ModelInfo)
| DiscoveryFailed (error : JsError).

(** [supportedMethods.includes('generateContent')] *)
Definition supportsGenerateContent (model : ApiModel) : bool :=
  existsb (String.eqb "generateContent")
          (or_empty (api_supportedGenerationMethods model)).

(** The [ModelInfo] pushed for an entry. *)
Definition modelInfoOf (model : ApiModel) : ModelInfo :=
  let cleanName := replaceFirst "models/" "" (api_name model) in
  mkModel cleanName
          (or_string (api_displayName model) cleanName)
          (or_string (api_description model) (cleanName ++ " model"))
          (or_number (api_inputTokenLimit model) 32000).

(** The loop over [data.models || []]. *)
Definition collectModels (entries : list ApiModel) : list ModelInfo :=
  fold_left
    (fun models model =>
       if supportsGenerateContent model
       then (models ++ [modelInfoOf model])%list
       else models)
    entries [].

Definition fetchModelsFromAPI (outcome : FetchOutcome) : Discovery :=
  let failed error :=
    DiscoveryFailed
      (newGeminiError ("Failed to fetch models: " ++ messageOf error)) in
  match outcome with
  | FetchThrows error => failed error
  | FetchResponds false statusText _ =>
      failed (PlainError ("Failed to fetch models: " ++ statusText))
  | FetchResponds true _ (JsonThrows error) => failed error
  | FetchResponds true _ (JsonData data) =>
      Discovered (collectModels (or_empty data))
  end.

(** The state of a promise that never rejects. *)
Inductive PromiseState := Pending | Fulfilled.

(** The fields of the service that discovery reads and writes. *)
Record ServiceState := mkServiceState {
  s_availableModels : list ModelInfo;
  s_defaultModel : string;
  s_modelsInitialized : bool;
  s_initializationPromise : option PromiseState
}.

(** The service after its constructor. *)
Definition newServiceState (defaultModel : string) : ServiceState :=
  mkServiceState getFallbackModels defaultModel false None.

(** The effect of [initializeModels] once its request has settled. *)
Definition initializeModels (config : GeminiConfig) (st : ServiceState)
    (outcome : FetchOutcome) : ServiceState :=
  match fetchModelsFromAPI outcome with
  | Discovered models =>
      mkServiceState models
        (or_string (selectDefaultModel (cfg_allowExperimentalModels config)
                                       models)
                   (s_defaultModel st))
        (s_modelsInitialized st) (s_initializationPromise st)
  | DiscoveryFailed _ => st
  end.

(** The flag is set only after the promise is fulfilled. *)
Definition flagAfterPromise (st : ServiceState) : Prop :=
  s_modelsInitialized st = true ->
  s_initializationPromise st = Some Fulfilled.

(** What can happen around [ensureModelsInitialized]: a caller enters it,
    the discovery request settles, the caller that started the request
    resumes after its [await]. *)
Inductive InitEvent :=
| CallerEnters
| RequestSettles (outcome : FetchOutcome)
| CallerResumes.

(** One event: the next state and the number of discovery requests that the
    event started. *)
Definition initStep (config : GeminiConfig) (st : ServiceState)
    (event : InitEvent) : ServiceState * nat :=
  match event with
  | CallerEnters =>
      if s_modelsInitialized st then (st, 0)
      else
        match s_initializationPromise st with
        | Some _ => (st, 0)
        | None =>
            (mkServiceState (s_availableModels st) (s_defaultModel st)
               (s_modelsInitialized st) (Some Pending), 1)
        end
  | RequestSettles outcome =>
      match s_initializationPromise st with
      | Some Pending =>
          let st' := initializeModels config st outcome in
          (mkServiceState (s_availableModels st') (s_defaultModel st')
             (s_modelsInitialized st') (Some Fulfilled), 0)
      | _ => (st, 0)
      end
  | CallerResumes =>
      match s_initializationPromise st with
      | Some Fulfilled =>
          (mkServiceState (s_availableModels st) (s_defaultModel st) true
             (s_initializationPromise st), 0)
      | _ => (st, 0)
      end
  end.

(** A sequence of events: the final state and the number of discovery
    requests started. *)
Fixpoint initRun (config : GeminiConfig) (st : ServiceState)
    (events : list InitEvent) : ServiceState * nat :=
  match events with
  | [] => (st, 0)
  | event :: rest =>
      let '(st1, started) := initStep config st event in
      let '(st2, more) := initRun config st1 rest in
      (st2, started + more)
  end.

(** A run of a single pass against the backend out of quota. *)
Definition envSinglePass : Env :=
  mkEnv failingBackend "why?" "gemini-pro" [] 1 32000.

(* ================================================================== *)
(** * Properties *)
(* ================================================================== *)

(** ** Strings *)

Lemma append_nil_r (s : string) : s ++ "" = s.
Proof. induction s as [|c s IH]; simpl; [reflexivity | now rewrite IH]. Qed.

Lemma append_assoc (a b c : string) : (a ++ b) ++ c = a ++ (b ++ c).
Proof. induction a as [|x a IH]; simpl; [reflexivity | now rewrite IH]. Qed.

Lemma length_append (a b : string) :
  String.length (a ++ b) = String.length a + String.length b.
Proof. induction a as [|x a IH]; simpl; [reflexivity | now rewrite IH]. Qed.

Lemma contains_refl_app (pre needle post : string) :
  contains needle (pre ++ needle ++ post).
Proof. now exists pre, post. Qed.

Lemma contains_app_r (needle hay more : string) :
  contains needle hay -> contains needle (hay ++ more).
Proof.
  intros (pre & post & ->). exists pre, (post ++ more).
  now rewrite !append_assoc.
Qed.

Lemma contains_app_l (needle hay more : string) :
  contains needle hay -> contains needle (more ++ hay).
Proof.
  intros (pre & post & ->). exists (more ++ pre), post.
  now rewrite !append_assoc.
Qed.

Lemma prefix_split (p s : string) :
  String.prefix p s = true -> s = p ++ drop (String.length p) s.
Proof.
  revert s. induction p as [|c p IH]; intros s; simpl.
  - now destruct s.
  - destruct s as [|d s]; simpl; [discriminate|].
    destruct (ascii_dec c d) as [->|]; [|discriminate].
    intros H. now rewrite <- IH.
Qed.

Lemma prefix_append (p rest : string) : String.prefix p (p ++ rest) = true.
Proof.
  induction p as [|c p IH]; simpl; [now destruct rest|].
  destruct (ascii_dec c c) as [_|Hne]; [exact IH | now elim Hne].
Qed.

Lemma includes_contains (needle hay : string) :
  includes needle hay = true <-> contains needle hay.
Proof.
  split.
  - induction hay as [|c hay IH]; cbn [includes]; intros H;
      apply orb_true_iff in H; destruct H as [H|H].
    + apply prefix_split in H. exists "", (drop (String.length needle) "").
      exact H.
    + discriminate.
    + apply prefix_split in H.
      exists "", (drop (String.length needle) (String c hay)). exact H.
    + destruct (IH H) as (pre & post & ->).
      exists (String c pre), post. reflexivity.
  - intros (pre & post & ->). induction pre as [|c pre IH].
    + cbn [append]. destruct (needle ++ post) eqn:E; cbn [includes];
        rewrite <- E, prefix_append; reflexivity.
    + cbn [append includes]. rewrite IH. apply orb_true_r.
Qed.

Lemma negb_includes (needle hay : string) :
  negb (includes needle hay) = true <-> ~ contains needle hay.
Proof.
  rewrite <- includes_contains. destruct (includes needle hay); simpl.
  - split; [discriminate | intros H; now elim H].
  - split; [intros _ H; discriminate | reflexivity].
Qed.

(** ** Rounding to doubles *)

Lemma round_half_even_bounds (n d : Z) :
  (0 < d)%Z ->
  (n / d <= round_half_even n d <= n / d + 1)%Z /\
  (n mod d = 0 -> round_half_even n d = n / d)%Z.
Proof.
  intros Hd. unfold round_half_even. split.
  - destruct (2 * (n mod d) ?= d)%Z; [destruct (Z.even (n / d))| |]; lia.
  - intros ->. simpl. destruct d; solve [lia | reflexivity].
Qed.

Lemma reachesPower_bound (n d : positive) (E j : Z) :
  (0 <= j)%Z -> (Zpos n * 2 ^ j < 2 ^ 53 * Zpos d)%Z ->
  reachesPower n d E -> (E <= 52 - j)%Z.
Proof.
  intros Hj Hlt HE.
  destruct (Z.le_gt_cases E (52 - j)) as [H|H]; [exact H|exfalso].
  assert (H2j : (0 < 2 ^ j)%Z) by (apply Z.pow_pos_nonneg; lia).
  destruct HE as [[HE0 HE]|[HE0 HE]].
  - assert (Hp : (2 ^ 53 <= 2 ^ (E + j))%Z)
      by (apply Z.pow_le_mono_r; lia).
    rewrite Z.pow_add_r in Hp by lia.
    assert (Hm : (Zpos d * 2 ^ E * 2 ^ j <= Zpos n * 2 ^ j)%Z)
      by (apply Z.mul_le_mono_nonneg_r; lia).
    nia.
  - assert (Hp : (2 ^ 53 * 2 ^ (- E) <= 2 ^ j)%Z).
    { rewrite <- Z.pow_add_r by lia. apply Z.pow_le_mono_r; lia. }
    assert (H2E : (0 < 2 ^ (- E))%Z) by (apply Z.pow_pos_nonneg; lia).
    nia.
Qed.

Lemma log2_reaches (n d : positive) :
  reachesPower n d (Z.log2 (Zpos n) - Z.log2 (Zpos d) - 1).
Proof.
  destruct (Z.log2_spec (Zpos n)) as [Hn1 Hn2]; [lia|].
  destruct (Z.log2_spec (Zpos d)) as [Hd1 Hd2]; [lia|].
  pose proof (Z.log2_nonneg (Zpos n)) as Hln.
  pose proof (Z.log2_nonneg (Zpos d)) as Hld.
  set (ln := Z.log2 (Zpos n)) in *. set (ld := Z.log2 (Zpos d)) in *.
  unfold reachesPower.
  destruct (Z.le_gt_cases 0 (ln - ld - 1)) as [H|H].
  - left. split; [exact H|].
    assert (Hp : (2 ^ (Z.succ ld) * 2 ^ (ln - ld - 1) = 2 ^ ln)%Z).
    { rewrite <- Z.pow_add_r by lia. f_equal. lia. }
    assert (H0 : (0 < 2 ^ (ln - ld - 1))%Z) by (apply Z.pow_pos_nonneg; lia).
    nia.
  - right. split; [exact H|].
    assert (Hp : (2 ^ ln * 2 ^ (- (ln - ld - 1)) = 2 ^ (Z.succ ld))%Z).
    { rewrite <- Z.pow_add_r by lia. f_equal. lia. }
    assert (H0 : (0 < 2 ^ (- (ln - ld - 1)))%Z)
      by (apply Z.pow_pos_nonneg; lia).
    nia.
Qed.

Lemma lastPlace_bound (n d : positive) (j : Z) :
  (0 <= j <= 1074)%Z -> (Zpos n * 2 ^ j < 2 ^ 53 * Zpos d)%Z ->
  (-1074 <= lastPlace n d <= - j)%Z.
Proof.
  intros Hj Hlt. unfold lastPlace.
  set (k := (Z.log2 (Zpos n) - Z.log2 (Zpos d))%Z).
  assert (HE : reachesPower n d
                 (if (if (0 <=? k)%Z then (Zpos d * 2 ^ k <=? Zpos n)%Z
                      else (Zpos d <=? Zpos n * 2 ^ (- k))%Z)
                  then k else (k - 1)%Z)).
  { destruct (0 <=? k)%Z eqn:Hk.
    - destruct (Zpos d * 2 ^ k <=? Zpos n)%Z eqn:Hr.
      + left. split; [now apply Z.leb_le | now apply Z.leb_le].
      + apply log2_reaches.
    - destruct (Zpos d <=? Zpos n * 2 ^ (- k))%Z eqn:Hr.
      + right. split; [now apply Z.leb_gt | now apply Z.leb_le].
      + apply log2_reaches. }
  pose proof (reachesPower_bound n d _ j (proj1 Hj) Hlt HE). lia.
Qed.

(** Between [n / d] and a neighbour [a / 2^j] that the last place can
    write, rounding does not cross the neighbour. *)
Lemma nearestDouble_neighbour (n d : positive) (a j : Z) :
  (0 <= j <= 1074)%Z -> (Zpos n * 2 ^ j < 2 ^ 53 * Zpos d)%Z ->
  ((a * Zpos d <= Zpos n * 2 ^ j)%Z ->
   (Qmake a (Z.to_pos (2 ^ j)) <= nearestDouble n d)%Q) /\
  ((Zpos n * 2 ^ j <= a * Zpos d)%Z ->
   (nearestDouble n d <= Qmake a (Z.to_pos (2 ^ j)))%Q).
Proof.
  intros Hj Hlt. unfold nearestDouble. cbv zeta.
  pose proof (lastPlace_bound n d j Hj Hlt) as He.
  set (e := lastPlace n d) in *.
  assert (H2j : (0 < 2 ^ j)%Z) by (apply Z.pow_pos_nonneg; lia).
  set (m := if (0 <=? e)%Z then round_half_even (Zpos n) (Zpos d * 2 ^ e)
            else round_half_even (Zpos n * 2 ^ (- e)) (Zpos d)).
  set (t := (- e)%Z).
  assert (Ht : (2 ^ t = 2 ^ j * 2 ^ (t - j))%Z).
  { rewrite <- Z.pow_add_r by lia. f_equal. lia. }
  assert (H2t : (0 < 2 ^ (t - j))%Z) by (apply Z.pow_pos_nonneg; lia).
  assert (Hm : m = round_half_even (Zpos n * 2 ^ t) (Zpos d)).
  { unfold m. destruct (0 <=? e)%Z eqn:H0; [|reflexivity].
    apply Z.leb_le in H0. assert (e = 0%Z) by lia.
    unfold t. replace e with 0%Z by lia. simpl Z.opp.
    rewrite Z.pow_0_r, !Z.mul_1_r. reflexivity. }
  assert (Hs : (scale2 m e == Qmake m (Z.to_pos (2 ^ t)))%Q).
  { unfold scale2. destruct (0 <=? e)%Z eqn:H0; [|reflexivity].
    apply Z.leb_le in H0. assert (e = 0%Z) by lia.
    unfold t. replace e with 0%Z by lia. simpl. unfold Qeq. simpl. lia. }
  destruct (round_half_even_bounds (Zpos n * 2 ^ t) (Zpos d)) as [Hb Hex];
    [lia|].
  rewrite <- Hm in Hb, Hex.
  assert (Hpos : forall z, (0 < z)%Z -> Zpos (Z.to_pos z) = z)
    by (intros z Hz; now apply Z2Pos.id).
  assert (Hinf : forall b, (b * Zpos d <= Zpos n * 2 ^ j)%Z ->
                 (Qmake b (Z.to_pos (2 ^ j)) <= infinityValue)%Q).
  { intros b Hb'. unfold infinityValue, Qle. cbn [Qnum Qden inject_Z].
    rewrite Hpos by exact H2j.
    assert (b * Zpos d < 2 ^ 53 * Zpos d)%Z by lia.
    assert (b < 2 ^ 53)%Z by nia.
    assert (2 ^ 53 <= 2 ^ 1024)%Z by (apply Z.pow_le_mono_r; lia).
    nia. }
  split.
  - intros Ha.
    assert (Hge : (Qmake a (Z.to_pos (2 ^ j)) <= scale2 m e)%Q).
    { rewrite Hs. unfold Qle. cbn [Qnum Qden].
      rewrite !Hpos by (try exact H2j; apply Z.pow_pos_nonneg; lia).
      rewrite Ht.
      assert (a * 2 ^ (t - j) <= m)%Z.
      { apply Z.le_trans with (Zpos n * 2 ^ t / Zpos d)%Z; [|lia].
        apply Z.div_le_lower_bound; [lia|]. rewrite Ht. nia. }
      nia. }
    destruct (Qle_bool infinityValue (scale2 m e)) eqn:Hi;
      [now apply Hinf | exact Hge].
  - intros Ha.
    assert (Hle : (scale2 m e <= Qmake a (Z.to_pos (2 ^ j)))%Q).
    { rewrite Hs. unfold Qle. cbn [Qnum Qden].
      rewrite !Hpos by (try exact H2j; apply Z.pow_pos_nonneg; lia).
      rewrite Ht.
      assert (m <= a * 2 ^ (t - j))%Z.
      { destruct (Z.eq_dec (Zpos n * 2 ^ t) (a * 2 ^ (t - j) * Zpos d))
          as [Heq|Hne].
        - rewrite Hex by (rewrite Heq; apply Z.mod_mul; lia).
          rewrite Heq, Z.div_mul by lia. lia.
        - assert (Zpos n * 2 ^ t / Zpos d < a * 2 ^ (t - j))%Z; [|lia].
          apply Z.div_lt_upper_bound; [lia|]. rewrite Ht in *. nia. }
      nia. }
    destruct (Qle_bool infinityValue (scale2 m e)) eqn:Hi; [|exact Hle].
    apply Qle_bool_iff in Hi. now apply Qle_trans with (scale2 m e).
Qed.

Lemma Qfloor_between (x : Q) (a : Z) :
  (inject_Z a <= x)%Q -> (x < inject_Z (a + 1))%Q -> Qfloor x = a.
Proof.
  intros Hle Hlt.
  pose proof (Qfloor_le x) as H1. pose proof (Qlt_floor x) as H2.
  assert (H3 : (inject_Z a < inject_Z (Qfloor x + 1))%Q)
    by (eapply Qle_lt_trans; eassumption).
  assert (H4 : (inject_Z (Qfloor x) < inject_Z (a + 1))%Q)
    by (eapply Qle_lt_trans; eassumption).
  rewrite <- Zlt_Qlt in H3, H4. lia.
Qed.

(** ** Iteration count *)

(** C4, as the code has it: the default is 5 for an absent (or zero)
    [max_iterations]; the request is capped at 10 and is not raised to 3. *)
Theorem maxIterations_capped_not_raised (m : Z) :
  maxIterationsOf None = 5%Z /\
  maxIterationsOf (Some m) = (if (m =? 0)%Z then 5 else Z.min m 10)%Z /\
  (maxIterationsOf (Some m) <= 10)%Z /\
  ((3 <= m <= 10)%Z -> maxIterationsOf (Some m) = m) /\
  ((10 < m)%Z -> maxIterationsOf (Some m) = 10%Z) /\
  ((m < 3)%Z -> m <> 0%Z -> maxIterationsOf (Some m) = m) /\
  (forall (host : HostFormat) service backend args,
      runExecute service backend args =
      run (mkEnv backend (research_question args)
                 (or_string (model args) (defaultModel service))
                 (or_empty (focus_areas args))
                 (maxIterationsOf (max_iterations args))
                 (getModelContextWindow (availableModels service)
                    (or_string (model args) (defaultModel service))))).
Proof.
  unfold maxIterationsOf, or_number.
  repeat split; try reflexivity.
  - destruct m; simpl; try reflexivity.
  - destruct m; lia.
  - intros H. destruct m; lia.
  - intros H. destruct m; lia.
  - intros H H0. destruct m; lia.
Qed.

(** C4 as stated fails: a requested single iteration is not raised to 3. *)
Lemma maxIterations_below_three_kept :
  maxIterationsOf (Some 1%Z) = 1%Z /\
  maxIterationsOf (Some 1%Z) <> Z.max 3 (Z.min 1 10).
Proof. split; [reflexivity | discriminate]. Qed.

(** ** The research loop *)

Section LoopFacts.

Variable env : Env.

(** C10: a pass whose backend call fails leaves the token counter and the
    recorded steps as they were; it either throws or goes on with the
    failure counter incremented and text appended to the report. *)
Theorem failed_round_atomic (st : LoopState) (msg : string) :
  (cumulativeTokens st < researchBudget (modelContextWindow env))%Z ->
  chat env (List.length (calls st)) (researchRequest env st) = Rejected msg ->
  (exists e made, iteration env st = Throw e made) \/
  (exists st',
      iteration env st = Continue st' /\
      cumulativeTokens st' = cumulativeTokens st /\
      researchSteps st' = researchSteps st /\
      consecutiveFailures st' = S (consecutiveFailures st) /\
      iter st' = S (iter st) /\
      (exists appended, report st' = report st ++ appended) /\
      calls st' =
        (calls st ++ [mkCall (researchRequest env st) (Rejected msg)])%list).
Proof.
  intros Hbudget Hchat.
  unfold iteration.
  apply Z.leb_gt in Hbudget. rewrite Hbudget, Hchat.
  destruct (_ && _).
  - left. eauto.
  - right. eexists. split; [reflexivity|]. simpl.
    repeat split; try reflexivity.
    eexists. rewrite append_assoc. reflexivity.
Qed.

Lemma tokensOf_app (steps : list ResearchStep) (step : ResearchStep) :
  tokensOf (steps ++ [step]) =
  (tokensOf steps + totalTokenCount (step_usage step))%Z.
Proof.
  induction steps as [|x steps IH]; simpl; [lia|]. rewrite IH. lia.
Qed.

Lemma succeededSteps_app (l : list Call) (c : Call) :
  succeededSteps (l ++ [c]) =
  succeededSteps l + (if isResearchCall c && resolved c then 1 else 0).
Proof.
  unfold succeededSteps. rewrite filter_app, length_app. simpl.
  now destruct (_ && _).
Qed.

Lemma Inv_initial : Inv (initialState env).
Proof.
  unfold Inv, initialState; simpl.
  split; [reflexivity|]. split; [reflexivity|]. split; [reflexivity|].
  split; [intros _; split; [reflexivity | lia] | intros Hne; now elim Hne].
Qed.

Lemma Inv_continue (st st' : LoopState) :
  Inv st -> iteration env st = Continue st' -> Inv st'.
Proof.
  intros (Htok & Hres & Hcount & Hnone & Hsome).
  unfold iteration.
  destruct (_ <=? _)%Z; [discriminate|].
  destruct (chat env _ _) as [r|msg] eqn:Hchat.
  - intros [= <-]. unfold Inv; simpl.
    split; [|split; [|split; [|split]]].
    + rewrite tokensOf_app; simpl. destruct (usageMetadata r); simpl; lia.
    + rewrite forallb_app, Hres. reflexivity.
    + rewrite succeededSteps_app, length_app, Hcount. reflexivity.
    + intros Hnil. now destruct (researchSteps st).
    + intros _. destruct (researchSteps st) as [|s0 steps] eqn:Hsteps.
      * destruct (Hnone eq_refl) as [Hlen Hle].
        exists (List.length (calls st)). eexists.
        split; [lia|]. split.
        { rewrite nth_error_app2, Nat.sub_diag by lia. reflexivity. }
        reflexivity.
      * destruct Hsome as (j & c & Hj & Hnth & Hc); [discriminate|].
        exists j, c. split; [exact Hj|]. split; [|exact Hc].
        rewrite nth_error_app1; [exact Hnth|].
        apply nth_error_Some. congruence.
  - destruct (researchSteps st) as [|s0 steps] eqn:Hsteps.
    + destruct (Hnone eq_refl) as [Hlen Hle].
      destruct (consecutiveFailures st) as [|[|cf]] eqn:Hcf; simpl;
        try discriminate; try lia.
      intros [= <-]. unfold Inv; simpl.
      split; [|split; [|split; [|split]]].
      * exact Htok.
      * rewrite forallb_app, Hres. reflexivity.
      * rewrite succeededSteps_app, Hcount. reflexivity.
      * intros _. rewrite length_app; simpl. lia.
      * intros Hne; now elim Hne.
    + rewrite andb_false_r. intros [= <-]. unfold Inv; simpl.
      split; [|split; [|split; [|split]]].
      * exact Htok.
      * rewrite forallb_app, Hres. reflexivity.
      * rewrite succeededSteps_app, Hcount. simpl. lia.
      * discriminate.
      * intros _. destruct Hsome as (j & c & Hj & Hnth & Hc); [discriminate|].
        exists j, c. split; [exact Hj|]. split; [|exact Hc].
        rewrite nth_error_app1; [exact Hnth|].
        apply nth_error_Some. congruence.
Qed.

Lemma iteration_exit (st st' : LoopState) :
  iteration env st = Exit st' ->
  (researchBudget (modelContextWindow env) <= cumulativeTokens st)%Z /\
  st' = mkState (iter st) (report st ++ budgetNote (iter st))
                (researchSteps st) (cumulativeTokens st)
                (consecutiveFailures st) (calls st).
Proof.
  unfold iteration.
  destruct (_ <=? _)%Z eqn:Hb.
  - intros [= <-]. split; [now apply Z.leb_le | reflexivity].
  - destruct (chat env _ _); [discriminate|].
    destruct (_ && _); discriminate.
Qed.

Lemma iteration_throw (st : LoopState) (e : McpError) (made : list Call) :
  Inv st -> iteration env st = Throw e made ->
  researchSteps st = [] /\
  exists msg c0 c1,
    e = iterationsFailingError (errorMessageOf msg) /\
    made = [c0; c1] /\ resolved c0 = false /\ resolved c1 = false /\
    call_outcome c1 = Rejected msg.
Proof.
  intros (Htok & Hres & Hcount & Hnone & Hsome).
  unfold iteration.
  destruct (_ <=? _)%Z; [discriminate|].
  destruct (chat env _ _) as [r|msg] eqn:Hchat; [discriminate|].
  destruct (researchSteps st) as [|s0 steps] eqn:Hsteps.
  2:{ rewrite andb_false_r. discriminate. }
  destruct (Hnone eq_refl) as [Hlen Hle].
  destruct (consecutiveFailures st) as [|[|cf]] eqn:Hcf; simpl;
    try discriminate; try lia.
  intros [= <- <-]. split; [reflexivity|].
  destruct (calls st) as [|c0 [|c1 rest]] eqn:Hcalls; simpl in Hlen;
    try discriminate.
  exists msg, c0. eexists. repeat split.
  unfold succeededSteps in Hcount. simpl in Hcount, Hres.
  apply andb_prop in Hres. destruct Hres as [Hr _]. rewrite Hr in Hcount.
  destruct (resolved c0); [discriminate | reflexivity].
Qed.

Lemma Inv_exit_state (st : LoopState) (note : string) :
  Inv st ->
  Inv (mkState (iter st) (report st ++ note) (researchSteps st)
               (cumulativeTokens st) (consecutiveFailures st) (calls st)).
Proof. intros H. exact H. Qed.

(** The loop ends in an [Exit] whose locals satisfy the invariant, or in the
    fail-fast error after exactly two failed calls. *)
Lemma researchLoop_ends (n : nat) (st : LoopState) :
  Inv st ->
  (exists st', researchLoop env n st = Exit st' /\ Inv st') \/
  (exists msg c0 c1,
      researchLoop env n st =
        Throw (iterationsFailingError (errorMessageOf msg)) [c0; c1] /\
      resolved c0 = false /\ resolved c1 = false).
Proof.
  revert st. induction n as [|n IH]; intros st HI; simpl.
  - left. eauto.
  - destruct (iteration env st) as [st'|st'|e made] eqn:Hit.
    + apply IH. eapply Inv_continue; eauto.
    + left. exists st'. split; [reflexivity|].
      apply iteration_exit in Hit. destruct Hit as [_ ->].
      now apply Inv_exit_state.
    + right. destruct (iteration_throw _ _ _ HI Hit)
        as (_ & msg & c0 & c1 & -> & -> & H0 & H1 & _).
      exists msg, c0, c1. auto.
Qed.

Lemma stateAfter_Inv (k : nat) (st : LoopState) :
  stateAfter env k = Some st ->
  Inv st /\ iter st = k /\ List.length (calls st) = k.
Proof.
  revert st. induction k as [|k IH]; simpl; intros st.
  - intros [= <-]. split; [apply Inv_initial | split; reflexivity].
  - destruct (stateAfter env k) as [st0|]; [|discriminate].
    destruct (iteration env st0) as [st'| |] eqn:Hit; try discriminate.
    intros [= <-]. destruct (IH _ eq_refl) as (HI & Hk & Hlen). split.
    + eapply Inv_continue; eauto.
    + revert Hit. unfold iteration.
      destruct (_ <=? _)%Z; [discriminate|].
      destruct (chat env _ _).
      * intros [= <-]; simpl. rewrite length_app; simpl. lia.
      * destruct (_ && _); [discriminate|].
        intros [= <-]; simpl. rewrite length_app; simpl. lia.
Qed.

(** Once pass [k] is reached, the loop goes on from its locals. *)
Lemma researchLoop_from (k n : nat) (st : LoopState) :
  stateAfter env k = Some st -> k <= n ->
  researchLoop env n (initialState env) = researchLoop env (n - k) st.
Proof.
  revert st n. induction k as [|k IH]; simpl; intros st n.
  - intros [= <-] _. now rewrite Nat.sub_0_r.
  - destruct (stateAfter env k) as [st0|]; [|discriminate].
    destruct (iteration env st0) as [st'| |] eqn:Hit; try discriminate.
    intros [= <-] Hle. rewrite (IH st0 n eq_refl) by lia.
    replace (n - k) with (S (n - S k)) by lia. simpl. now rewrite Hit.
Qed.

End LoopFacts.

(** ** The whole run *)

Section RunFacts.

Context {host : HostFormat}.
Variable env : Env.

Lemma finish_no_steps (st : LoopState) :
  researchSteps st = [] ->
  finish env st = (Threw allIterationsFailedError, calls st).
Proof. unfold finish. now intros ->. Qed.

Lemma synthesize_calls (st : LoopState) :
  calls (synthesize env st) =
  (calls st ++ [mkCall (synthesisRequest env st)
                  (chat env (List.length (calls st))
                        (synthesisRequest env st))])%list /\
  researchSteps (synthesize env st) = researchSteps st /\
  exists tail, report (synthesize env st) = report st ++ tail.
Proof.
  unfold synthesize. destruct (chat env _ _); simpl.
  - repeat split. eexists. rewrite !append_assoc. reflexivity.
  - repeat split. eexists. rewrite !append_assoc. reflexivity.
Qed.

(** With a recorded step the run returns a report that extends the loop's
    report, and the only call it may add is not a research call. *)
Lemma finish_with_steps (st : LoopState) :
  researchSteps st <> [] ->
  exists tail extra,
    finish env st = (Returned (report st ++ tail), (calls st ++ extra)%list) /\
    filter isResearchCall extra = [].
Proof.
  intros Hne. unfold finish.
  destruct (researchSteps st) as [|s0 steps] eqn:Hsteps; [now elim Hne|].
  simpl is_nil. cbv iota.
  destruct (1 <? _)%nat.
  - destruct (synthesize_calls st) as (Hc & Hs & tail & Hr).
    rewrite Hc, Hr. do 2 eexists. split.
    + rewrite append_assoc. reflexivity.
    + reflexivity.
  - exists (sourcesSection (allSourcesOf (researchSteps st))
              ++ statistics env st), [].
    rewrite app_nil_r. split; reflexivity.
Qed.

Lemma filter_research_nil (extra : list Call) :
  filter isResearchCall extra = [] ->
  filter (fun c => isResearchCall c && resolved c) extra = [].
Proof.
  induction extra as [|c extra IH]; simpl; [reflexivity|].
  destruct (isResearchCall c); simpl; [discriminate | exact IH].
Qed.

Lemma succeededSteps_extra (l extra : list Call) :
  filter isResearchCall extra = [] ->
  succeededSteps (l ++ extra) = succeededSteps l.
Proof.
  intros Hx. unfold succeededSteps.
  rewrite filter_app, length_app, (filter_research_nil _ Hx). simpl. lia.
Qed.

Lemma filter_all (A : Type) (f : A -> bool) (l : list A) :
  forallb f l = true -> filter f l = l.
Proof.
  induction l as [|x l IH]; simpl; [reflexivity|].
  intros H. apply andb_prop in H. destruct H as [-> H].
  now rewrite IH.
Qed.

(** The outcome of the run, by how the loop ended. *)
Lemma run_cases :
  (exists st, researchLoop env (Z.to_nat (maxIterations env))
                (initialState env) = Exit st /\
              Inv st /\ run env = finish env st) \/
  (exists msg c0 c1,
      run env = (Threw (iterationsFailingError (errorMessageOf msg)),
                 [c0; c1]) /\
      resolved c0 = false /\ resolved c1 = false).
Proof.
  unfold run.
  destruct (researchLoop_ends env (Z.to_nat (maxIterations env))
              (initialState env) (Inv_initial env))
    as [(st & -> & HI) | (msg & c0 & c1 & -> & H0 & H1)].
  - left. eauto.
  - right. exists msg, c0, c1. auto.
Qed.

(** C1, as the code has it: when the token budget is spent at the top of
    pass [k], the loop stops there with a note in the report and no research
    call is made for pass [k] or later; the run then returns the report when
    a step was recorded, which is always so for a positive budget, and ends
    in the all-iterations-failed error otherwise. *)
Theorem budget_guard_stops_research (k : nat) (st : LoopState) :
  stateAfter env k = Some st ->
  k < Z.to_nat (maxIterations env) ->
  (researchBudget (modelContextWindow env) <= cumulativeTokens st)%Z ->
  let stopped :=
    mkState k (report st ++ budgetNote k) (researchSteps st)
            (cumulativeTokens st) (consecutiveFailures st) (calls st) in
  researchLoop env (Z.to_nat (maxIterations env)) (initialState env)
    = Exit stopped /\
  run env = finish env stopped /\
  filter isResearchCall (snd (run env)) = calls st /\
  List.length (calls st) = k /\
  (researchSteps st <> [] ->
     exists tail,
       fst (run env) = Returned (report st ++ budgetNote k ++ tail)) /\
  (researchSteps st = [] -> fst (run env) = Threw allIterationsFailedError) /\
  ((0 < researchBudget (modelContextWindow env))%Z -> researchSteps st <> []).
Proof.
  intros Hst Hk Hbudget stopped.
  destruct (stateAfter_Inv env k st Hst) as (HI & Hiter & Hlen).
  assert (Hloop : researchLoop env (Z.to_nat (maxIterations env))
                    (initialState env) = Exit stopped).
  { rewrite (researchLoop_from env k _ st Hst) by lia.
    replace (Z.to_nat (maxIterations env) - k)
      with (S (Z.to_nat (maxIterations env) - S k)) by lia.
    simpl. unfold iteration.
    apply Z.leb_le in Hbudget. rewrite Hbudget, Hiter. reflexivity. }
  assert (Hrun : run env = finish env stopped).
  { unfold run. now rewrite Hloop. }
  destruct HI as (Htok & Hres & Hcount & Hnone & Hsome).
  split; [exact Hloop|]. split; [exact Hrun|].
  split; [|split; [exact Hlen|split; [|split]]].
  - rewrite Hrun. destruct (researchSteps st) as [|s0 steps] eqn:Hsteps.
    + rewrite finish_no_steps by reflexivity. simpl.
      now apply filter_all.
    + destruct (finish_with_steps stopped) as (tail & extra & -> & Hx).
      { simpl. discriminate. }
      simpl. rewrite filter_app, Hx, app_nil_r. now apply filter_all.
  - intros Hne. rewrite Hrun.
    destruct (finish_with_steps stopped Hne) as (tail & extra & -> & _).
    simpl. exists tail. now rewrite append_assoc.
  - intros Hnil. rewrite Hrun, finish_no_steps by exact Hnil. reflexivity.
  - intros Hpos Hnil. rewrite Hnil in Htok. simpl in Htok. lia.
Qed.

Lemma rejectedAt_resolved (trace : list Call) (j : nat) (c : Call) :
  rejectedAt trace j -> nth_error trace j = Some c -> resolved c = true ->
  False.
Proof.
  unfold rejectedAt. intros Hrej Hc Hres. rewrite Hc in Hrej. congruence.
Qed.

Lemma rejectedAt_lt (trace : list Call) (j : nat) :
  rejectedAt trace j -> j < List.length trace.
Proof.
  unfold rejectedAt. intros Hrej. apply nth_error_Some.
  destruct (nth_error trace j); [discriminate | contradiction].
Qed.

(** C2: when two calls in a row fail and no call before them succeeded, the
    run ends in the error with code RESEARCH_ITERATIONS_FAILING and the
    trace holds those two calls only: no third call is made. *)
Theorem fail_fast_before_third_call (j : nat) :
  rejectedAt (snd (run env)) j ->
  rejectedAt (snd (run env)) (S j) ->
  (forall m, m < j -> rejectedAt (snd (run env)) m) ->
  exists msg,
    fst (run env) = Threw (iterationsFailingError msg) /\
    code (iterationsFailingError msg) = "RESEARCH_ITERATIONS_FAILING" /\
    List.length (snd (run env)) = 2 /\
    j = 0.
Proof.
  intros Hj HSj Hbefore.
  destruct run_cases as [(st & Hloop & HI & Hrun) | (msg & c0 & c1 & Hrun & _)].
  - exfalso. rewrite Hrun in *.
    destruct HI as (Htok & Hres & Hcount & Hnone & Hsome).
    destruct (researchSteps st) as [|s0 steps] eqn:Hsteps.
    + rewrite finish_no_steps in HSj by exact Hsteps. simpl in HSj.
      destruct (Hnone eq_refl) as [Hlen Hle].
      apply rejectedAt_lt in HSj. lia.
    + destruct (finish_with_steps st) as (tail & extra & Hfin & _).
      { rewrite Hsteps. discriminate. }
      rewrite Hfin in *. simpl in *.
      destruct Hsome as (j0 & c & Hj0 & Hnth & Hc); [discriminate|].
      assert (Hnth' : nth_error (calls st ++ extra) j0 = Some c).
      { rewrite nth_error_app1; [exact Hnth|].
        apply nth_error_Some. congruence. }
      destruct (Nat.lt_ge_cases j0 j) as [Hlt|Hge].
      * exact (rejectedAt_resolved _ _ _ (Hbefore j0 Hlt) Hnth' Hc).
      * assert (j0 = j \/ j0 = S j) as [->| ->] by lia.
        -- exact (rejectedAt_resolved _ _ _ Hj Hnth' Hc).
        -- exact (rejectedAt_resolved _ _ _ HSj Hnth' Hc).
  - rewrite Hrun in *. simpl in *.
    exists (errorMessageOf msg). repeat split.
    apply rejectedAt_lt in HSj. simpl in HSj. lia.
Qed.

(** C3: the run fails exactly when no research call succeeded; a failed call
    after a success only adds a failure note and goes on; a loop left with
    no recorded step ends in the all-iterations-failed error; a failed
    synthesis call adds a note and a placeholder and the run still returns
    its report. *)
Theorem run_fails_iff_no_step_succeeds :
  ((exists e, fst (run env) = Threw e) <->
   succeededSteps (snd (run env)) = 0) /\
  (forall st msg,
      researchSteps st <> [] ->
      (cumulativeTokens st < researchBudget (modelContextWindow env))%Z ->
      chat env (List.length (calls st)) (researchRequest env st)
        = Rejected msg ->
      iteration env st =
      Continue (mkState (S (iter st))
                  ((report st ++ snd (promptAndHeading env (iter st)))
                     ++ failureNote (iter st) (errorMessageOf msg))
                  (researchSteps st) (cumulativeTokens st)
                  (S (consecutiveFailures st))
                  (calls st ++ [mkCall (researchRequest env st)
                                       (Rejected msg)])%list)) /\
  (forall st,
      researchLoop env (Z.to_nat (maxIterations env)) (initialState env)
        = Exit st ->
      researchSteps st = [] ->
      run env = (Threw allIterationsFailedError, calls st) /\
      code allIterationsFailedError = "ALL_ITERATIONS_FAILED") /\
  (forall st msg,
      2 <= List.length (researchSteps st) ->
      chat env (List.length (calls st)) (synthesisRequest env st)
        = Rejected msg ->
      exists tail,
        fst (finish env st) =
        Returned (report st ++ "### Synthesis" ++ nl ++ nl
                    ++ synthesisFailureNote (errorMessageOf msg)
                    ++ synthesisPlaceholder ++ nl ++ nl ++ tail)).
Proof.
  split; [|split; [|split]].
  - destruct run_cases as [(st & Hloop & HI & Hrun) | (msg & c0 & c1 & Hrun & H0 & H1)].
    + rewrite Hrun. destruct HI as (Htok & Hres & Hcount & Hnone & Hsome).
      destruct (researchSteps st) as [|s0 steps] eqn:Hsteps.
      * rewrite finish_no_steps by exact Hsteps. simpl. split; eauto.
      * destruct (finish_with_steps st) as (tail & extra & -> & Hx).
        { rewrite Hsteps. discriminate. }
        simpl. rewrite succeededSteps_extra, Hcount by exact Hx. simpl.
        split; [intros (e & He); discriminate | discriminate].
    + rewrite Hrun. simpl. unfold succeededSteps. simpl.
      rewrite H0, H1, !andb_false_r. simpl. split; eauto.
  - intros st msg Hne Hbudget Hchat. unfold iteration.
    apply Z.leb_gt in Hbudget. rewrite Hbudget, Hchat.
    destruct (researchSteps st); [now elim Hne|].
    rewrite andb_false_r. reflexivity.
  - intros st Hloop Hnil. unfold run. rewrite Hloop.
    split; [now apply finish_no_steps | reflexivity].
  - intros st msg Hlen Hchat. unfold finish.
    assert (Hnil : is_nil (researchSteps st) = false)
      by (destruct (researchSteps st); [simpl in Hlen; lia | reflexivity]).
    assert (Hmany : (1 <? List.length (researchSteps st))%nat = true)
      by (apply Nat.ltb_lt; lia).
    rewrite Hnil, Hmany. unfold synthesize. rewrite Hchat.
    cbn [fst report researchSteps].
    eexists. rewrite !append_assoc. reflexivity.
Qed.

End RunFacts.

(** ** Worked runs *)

(** The hungry run stops at its second pass: one research call was made. *)
Lemma budget_guard_hungry_run :
  filter isResearchCall (snd (@run exampleHost envHungry)) = calls hungryState
  /\ List.length (calls hungryState) = 1
  /\ researchSteps hungryState <> [].
Proof.
  destruct (@budget_guard_stops_research exampleHost envHungry 1 hungryState)
    as (_ & _ & H3 & H4 & _ & _ & H7).
  - vm_compute. reflexivity.
  - vm_compute. lia.
  - vm_compute. discriminate.
  - split; [exact H3 | split; [exact H4 | apply H7]].
    vm_compute. reflexivity.
Defined.

(** C1 as stated fails: with a one-token context window the budget is 0, the
    guard stops the loop before the first call, and the run is a failure. *)
Lemma budget_stop_without_steps_fails :
  researchBudget (getModelContextWindow (availableModels tinyService) "tiny")
    = 0%Z
  /\ @runExecute exampleHost tinyService hungryBackend
       (mkArgs "why?" None None None)
     = (Threw allIterationsFailedError, [])
  /\ contains "stopped at iteration 1 due to token budget limits"
       (budgetNote 0)
  /\ text (hd (mkText "" "")
             (@execute exampleHost tinyService hungryBackend
                (mkArgs "why?" None None None)))
     = "Error: " ++ err_message allIterationsFailedError.
Proof.
  split; [reflexivity|]. split; [vm_compute; reflexivity|].
  split; [|vm_compute; reflexivity].
  exists (nl ++ "*Note: Research "), (".*" ++ nl ++ nl). reflexivity.
Qed.

(** With the backend out of quota the run stops after two calls. *)
Lemma fail_fast_out_of_quota :
  exists msg,
    fst (@run exampleHost envFailing) = Threw (iterationsFailingError msg) /\
    code (iterationsFailingError msg) = "RESEARCH_ITERATIONS_FAILING" /\
    List.length (snd (@run exampleHost envFailing)) = 2 /\
    0 = 0.
Proof.
  apply (@fail_fast_before_third_call exampleHost envFailing 0).
  - vm_compute. reflexivity.
  - vm_compute. reflexivity.
  - intros m Hm. lia.
Defined.

(** The first failure of the out-of-quota run touches neither the token
    counter nor the steps. *)
Lemma failed_round_out_of_quota :
  exists st',
    iteration envFailing (initialState envFailing) = Continue st' /\
    cumulativeTokens st' = 0%Z /\ researchSteps st' = [] /\
    consecutiveFailures st' = 1.
Proof.
  destruct (failed_round_atomic envFailing (initialState envFailing)
              "quota exceeded")
    as [(e & made & H) | (st' & H & H1 & H2 & H3 & _)].
  - vm_compute. reflexivity.
  - reflexivity.
  - vm_compute in H. discriminate.
  - exists st'. split; [exact H|]. split; [exact H1|].
    split; [exact H2 | exact H3].
Defined.

(** ** Context compactor: the synthesis context *)

Lemma substring_prefix (n : nat) (s : string) :
  n <= String.length s ->
  String.length (String.substring 0 n s) = n /\
  exists rest, s = String.substring 0 n s ++ rest.
Proof.
  revert s. induction n as [|n IH]; intros s Hn.
  - destruct s; simpl; (split; [reflexivity | eexists; reflexivity]).
  - destruct s as [|c s]; simpl in *; [lia|].
    destruct (IH s) as [Hlen [rest Hrest]]; [lia|].
    split; [now rewrite Hlen | exists rest; now rewrite <- Hrest].
Qed.

Lemma js_substring_from_0 (s : string) (m : Z) :
  js_substring s 0 m =
  String.substring 0 (Z.to_nat (Z.min (Z.max m 0) (js_length s))) s.
Proof.
  unfold js_substring, js_length.
  set (len := Z.of_nat (String.length s)).
  assert (0 <= len)%Z by (unfold len; lia).
  replace (Z.min (Z.max 0 0) len) with 0%Z by lia.
  replace (Z.min 0 (Z.min (Z.max m 0) len)) with 0%Z by lia.
  replace (Z.max 0 (Z.min (Z.max m 0) len) - 0)%Z
    with (Z.min (Z.max m 0) len) by lia.
  reflexivity.
Qed.

(** What [s.substring(0, m)] keeps: a prefix of [s] of length [m] clamped
    into [0, s.length]. *)
Lemma js_substring_keeps (s : string) (m : Z) :
  js_length (js_substring s 0 m) = Z.min (Z.max m 0) (js_length s) /\
  exists rest, s = js_substring s 0 m ++ rest.
Proof.
  rewrite js_substring_from_0. unfold js_length.
  destruct (substring_prefix
              (Z.to_nat (Z.min (Z.max m 0) (Z.of_nat (String.length s)))) s)
    as [Hlen Hrest]; [lia|].
  split; [rewrite Hlen; lia | exact Hrest].
Qed.

Lemma mapi_from_length {A B} (f : A -> nat -> B) (xs : list A) (i0 : nat) :
  List.length (mapi_from i0 f xs) = List.length xs.
Proof.
  revert i0. induction xs as [|x xs IH]; intros i0; simpl;
    [reflexivity | now rewrite IH].
Qed.

Lemma mapi_from_nth {A B} (f : A -> nat -> B) (xs : list A) (i0 i : nat)
    (x : A) :
  nth_error xs i = Some x ->
  nth_error (mapi_from i0 f xs) i = Some (f x (i0 + i)).
Proof.
  revert i0 i. induction xs as [|y xs IH]; intros i0 i; destruct i; simpl;
    try discriminate.
  - intros [= ->]. now rewrite Nat.add_0_r.
  - intros H. rewrite (IH (S i0) i H). f_equal. f_equal. lia.
Qed.

(** C6: the synthesis context has one section per step, in order; a
    response longer than the per-step share [floor(4 * budget / count)] is
    cut to that share, never to less than zero characters, and marked with an
    ellipsis; the synthesis call is issued with this context for the
    allowance [min(synthesisReserve, window - tokens - 10000)], whatever its
    sign. *)
Theorem synthesis_context_keeps_every_step
    (steps : list ResearchStep) (budget : Z) :
  steps <> [] ->
  let count := Z.of_nat (List.length steps) in
  let share := maxCharsPerStep steps budget in
  (share * count <= budget * 4 < (share + 1) * count)%Z /\
  (exists sections,
      buildSynthesisContext steps budget = join (nl ++ nl) sections /\
      List.length sections = List.length steps /\
      forall i step,
        nth_error steps i = Some step ->
        exists kept,
          nth_error sections i =
            Some ("Research Iteration " ++ string_of_nat (i + 1) ++ ":" ++ nl
                    ++ kept
                    ++ (if (share <? js_length (response step))%Z
                        then "..." else "")) /\
          (exists rest, response step = kept ++ rest) /\
          js_length kept
            = Z.min (js_length (response step)) (Z.max 0 share)) /\
  (forall (host : HostFormat) (env : Env) (st : LoopState),
      2 <= List.length (researchSteps st) ->
      let allowance :=
        Z.min (synthesisReserve (modelContextWindow env))
              (modelContextWindow env - cumulativeTokens st - 10000) in
      let request :=
        mkRequest
          (synthesisPrompt env
             (buildSynthesisContext (researchSteps st) allowance))
          (model_ env) (6 # 10) 16384 false in
      snd (finish env st) =
        (calls st ++ [mkCall request
                        (chat env (List.length (calls st)) request)])%list).
Proof.
  intros Hne count share.
  assert (Hcount : (0 < count)%Z).
  { unfold count. destruct steps; [now elim Hne | simpl; lia]. }
  split; [|split].
  - unfold share, maxCharsPerStep. fold count.
    pose proof (Z.mul_div_le (budget * 4) count Hcount).
    pose proof (Z.mul_succ_div_gt (budget * 4) count Hcount).
    lia.
  - exists (mapi (synthesisSection share) steps).
    split; [reflexivity|]. split; [apply mapi_from_length|].
    intros i step Hi. unfold mapi.
    rewrite (mapi_from_nth _ _ 0 i step Hi). simpl Nat.add.
    unfold synthesisSection, truncatedResponse.
    destruct (share <? js_length (response step))%Z eqn:Hcut.
    + apply Z.ltb_lt in Hcut.
      destruct (js_substring_keeps (response step) share) as [Hlen Hrest].
      exists (js_substring (response step) 0 share).
      split; [reflexivity|]. split; [exact Hrest|].
      rewrite Hlen. lia.
    + apply Z.ltb_ge in Hcut. exists (response step).
      split; [now rewrite append_nil_r|].
      split; [exists ""; now rewrite append_nil_r|].
      unfold js_length in *. lia.
  - intros host env st Hlen allowance request. unfold finish.
    assert (Hnil : is_nil (researchSteps st) = false)
      by (destruct (researchSteps st); [simpl in Hlen; lia | reflexivity]).
    assert (Hmany : (1 <? List.length (researchSteps st))%nat = true)
      by (apply Nat.ltb_lt; lia).
    rewrite Hnil, Hmany. cbn [snd].
    destruct (synthesize_calls env st) as (-> & _). reflexivity.
Qed.

(** ** Grounded citations *)

Lemma filter_filter (A : Type) (f g : A -> bool) (l : list A) :
  filter f (filter g l) = filter (fun x => g x && f x) l.
Proof.
  induction l as [|x l IH]; simpl; [reflexivity|].
  destruct (g x); simpl; [destruct (f x); now rewrite IH | exact IH].
Qed.

(** *** Numbers as positions *)

Lemma indexNumber_inj (i j : nat) :
  (indexNumber i == indexNumber j)%Q -> i = j.
Proof.
  unfold indexNumber. intros H.
  apply (proj1 (inject_Z_injective _ _)) in H. now apply Nat2Z.inj.
Qed.

Lemma positionOf_indexNumber (x : Q) (i : nat) :
  (x == indexNumber i)%Q -> positionOf x = i.
Proof.
  intros H. unfold positionOf. rewrite (Qfloor_comp _ _ H).
  unfold indexNumber. rewrite Qfloor_Z. apply Nat2Z.id.
Qed.

Lemma positionOf_beyond (x : Q) (n : nat) :
  (indexNumber n <= x)%Q -> n <= positionOf x.
Proof.
  intros H. unfold positionOf. apply Qfloor_resp_le in H.
  unfold indexNumber in H. rewrite Qfloor_Z in H. lia.
Qed.

Lemma arrayIndex_natural (x : Q) (i : nat) :
  (x == indexNumber i)%Q <-> arrayIndex x = Some i.
Proof.
  unfold arrayIndex, indexNumber, Qeq. destruct x as [n d].
  cbn [Qnum Qden inject_Z].
  rewrite Z.mul_1_r. split.
  - intros ->.
    replace (0 <=? Z.of_nat i * Z.pos d)%Z with true
      by (symmetry; apply Z.leb_le; lia).
    rewrite Z.mod_mul by lia. cbn [andb Z.eqb].
    rewrite Z.div_mul by lia. now rewrite Nat2Z.id.
  - destruct (0 <=? n)%Z eqn:Hn; [|discriminate].
    destruct (n mod Z.pos d =? 0)%Z eqn:Hm; [|discriminate].
    cbn [andb]. intros [= <-].
    apply Z.leb_le in Hn. apply Z.eqb_eq in Hm.
    rewrite Z2Nat.id by (apply Z.div_pos; lia).
    rewrite Z.mul_comm. now apply Z.div_exact; [lia|].
Qed.

Lemma arrayIndex_none (x : Q) :
  arrayIndex x = None -> forall i, ~ (x == indexNumber i)%Q.
Proof.
  intros Hnone i H. apply arrayIndex_natural in H. congruence.
Qed.

Lemma belowLength_iff (x : Q) (chunks : list GroundingChunk) :
  belowLength x chunks = false <-> (indexNumber (List.length chunks) <= x)%Q.
Proof.
  unfold belowLength. rewrite negb_false_iff. apply Qle_bool_iff.
Qed.

Lemma safeIndex_cases (chunks : list GroundingChunk) (x : Q) :
  safeIndex chunks x \/
  (belowLength x chunks = true /\ arrayIndex x = None).
Proof.
  destruct (belowLength x chunks) eqn:Hb.
  - destruct (arrayIndex x) as [i|] eqn:Hi.
    + left. left. exists i. now apply arrayIndex_natural.
    + right. now split.
  - left. right. now apply belowLength_iff.
Qed.

Lemma unsafeIndex_iff (chunks : list GroundingChunk) (x : Q) :
  ~ safeIndex chunks x <->
  belowLength x chunks = true /\ arrayIndex x = None.
Proof.
  split.
  - intros Hns. destruct (safeIndex_cases chunks x) as [H|H];
      [contradiction | exact H].
  - intros [Hb Hi] [[i H]|H].
    + apply arrayIndex_natural in H. congruence.
    + apply belowLength_iff in H. congruence.
Qed.

(** *** The set of used indices *)

Lemma used_has (x : Q) (i : nat) (usedQ : list Q) (usedN : list nat) :
  (x == indexNumber i)%Q ->
  Forall2 (fun q j => (q == indexNumber j)%Q) usedQ usedN ->
  existsb (Qeq_bool x) usedQ = true <-> In i usedN.
Proof.
  intros Hx Hrel. induction Hrel as [|q j usedQ usedN Hq Hrel IH];
    cbn [existsb In]; [split; [discriminate | contradiction]|].
  rewrite orb_true_iff, IH, Qeq_bool_iff. split.
  - intros [H|H]; [left | now right].
    apply indexNumber_inj. now rewrite <- Hq, <- Hx.
  - intros [->|H]; [left | now right]. now rewrite Hx, Hq.
Qed.

Lemma used_has_not (x : Q) (usedQ : list Q) (usedN : list nat) :
  (forall i, ~ (x == indexNumber i)%Q) ->
  Forall2 (fun q j => (q == indexNumber j)%Q) usedQ usedN ->
  existsb (Qeq_bool x) usedQ = false.
Proof.
  intros Hx Hrel. induction Hrel as [|q j usedQ usedN Hq Hrel IH];
    cbn [existsb]; [reflexivity|].
  rewrite IH, orb_false_r. destruct (Qeq_bool x q) eqn:E; [|reflexivity].
  apply Qeq_bool_iff in E. elim (Hx j). now rewrite E.
Qed.

Lemma resolvable_iff (chunks : list GroundingChunk) (idx : nat) :
  resolvable chunks idx = true <-> exists u, resolves chunks idx u.
Proof.
  unfold resolvable, resolves. split.
  - destruct (nth_error chunks idx) as [chunk|]; [|discriminate].
    destruct (chunk_uri chunk) as [u|] eqn:Hu; [|discriminate].
    intros _. exists u, chunk. now split.
  - intros (u & chunk & -> & ->). reflexivity.
Qed.

(** One visited index that is a natural number or lies beyond the chunks:
    a new entry exactly when the position is not used yet and resolves to a
    URI. *)
Lemma visitChunkIndex_cases (chunks : list GroundingChunk)
    (links : list string) (usedQ : list Q) (usedN : list nat) (x : Q) :
  Forall2 (fun q j => (q == indexNumber j)%Q) usedQ usedN ->
  safeIndex chunks x ->
  (exists u,
      ~ In (positionOf x) usedN /\ resolves chunks (positionOf x) u /\
      (x == indexNumber (positionOf x))%Q /\
      visitChunkIndex chunks (links, usedQ) x
      = Normal ((links ++ [u])%list, (usedQ ++ [x])%list)) \/
  ((In (positionOf x) usedN \/ resolvable chunks (positionOf x) = false) /\
   visitChunkIndex chunks (links, usedQ) x = Normal (links, usedQ)).
Proof.
  intros Hrel Hsafe. unfold visitChunkIndex.
  destruct (belowLength x chunks) eqn:Hb; cbn [andb].
  - destruct Hsafe as [[i Hi]|Hbeyond];
      [|apply belowLength_iff in Hbeyond; congruence].
    rewrite (positionOf_indexNumber x i Hi).
    unfold chunkAt. rewrite (proj1 (arrayIndex_natural x i) Hi).
    destruct (existsb (Qeq_bool x) usedQ) eqn:Hused; cbn [negb].
    + right. split; [|reflexivity]. left.
      now apply (used_has x i usedQ usedN Hi Hrel).
    + assert (Hnot : ~ In i usedN).
      { intros Hin. apply (used_has x i usedQ usedN Hi Hrel) in Hin.
        congruence. }
      destruct (nth_error chunks i) as [chunk|] eqn:Hnth.
      * destruct (chunk_uri chunk) as [u|] eqn:Huri.
        -- left. exists u. split; [exact Hnot|].
           split; [exists chunk; now split|]. split; [exact Hi | reflexivity].
        -- right. split; [|reflexivity]. right.
           unfold resolvable. now rewrite Hnth, Huri.
      * exfalso. apply nth_error_None in Hnth.
        unfold belowLength in Hb. apply negb_true_iff in Hb.
        assert (Hle : (indexNumber (List.length chunks) <= x)%Q).
        { rewrite Hi. unfold indexNumber. rewrite <- Zle_Qle. lia. }
        apply Qle_bool_iff in Hle. unfold indexNumber in Hle. congruence.
  - right. split; [|reflexivity]. right.
    apply belowLength_iff in Hb. apply positionOf_beyond in Hb.
    unfold resolvable.
    now rewrite (proj2 (nth_error_None chunks (positionOf x)) Hb).
Qed.

(** A visited index below the number of chunks that is no natural number
    throws. *)
Lemma visitChunkIndex_throws (chunks : list GroundingChunk)
    (links : list string) (usedQ : list Q) (usedN : list nat) (x : Q) :
  Forall2 (fun q j => (q == indexNumber j)%Q) usedQ usedN ->
  ~ safeIndex chunks x ->
  visitChunkIndex chunks (links, usedQ) x = ThrowsTypeError.
Proof.
  intros Hrel Hns. apply unsafeIndex_iff in Hns. destruct Hns as [Hb Hi].
  unfold visitChunkIndex, chunkAt. rewrite Hb, Hi.
  now rewrite (used_has_not x usedQ usedN (arrayIndex_none x Hi) Hrel).
Qed.

(** *** First-seen order of the positions *)

Lemma firstSeenIndex_In (l : list nat) (i : nat) :
  In i (firstSeenIndex l) <-> In i l.
Proof.
  induction l as [|j l IH]; cbn [firstSeenIndex]; [reflexivity|].
  cbn [In]. rewrite filter_In, IH. split.
  - intros [H|[H _]]; auto.
  - intros [H|H]; [now left|].
    destruct (Nat.eqb_spec i j) as [->|Hne]; [now left|].
    right. split; [exact H | reflexivity].
Qed.

Lemma firstSeenIndex_NoDup (l : list nat) : NoDup (firstSeenIndex l).
Proof.
  induction l as [|j l IH]; cbn [firstSeenIndex]; constructor.
  - rewrite filter_In. intros [_ H]. now rewrite Nat.eqb_refl in H.
  - now apply NoDup_filter.
Qed.

Lemma existsb_index_In (i : nat) (l : list nat) :
  existsb (Nat.eqb i) l = true <-> In i l.
Proof.
  rewrite existsb_exists. split.
  - intros (j & Hin & Heq). apply Nat.eqb_eq in Heq. now subst.
  - intros Hin. exists i. split; [exact Hin | apply Nat.eqb_refl].
Qed.

(** The loop over indices none of which throws: the used positions grow by
    the new positions that resolve, in the order of first reference. *)
Lemma visitIndices_safe (chunks : list GroundingChunk) (refs : list Q) :
  Forall (safeIndex chunks) refs ->
  forall links usedQ usedN,
    Forall2 (fun q j => (q == indexNumber j)%Q) usedQ usedN ->
    Forall2 (resolves chunks) usedN links ->
    exists links' usedQ',
      visitIndices chunks refs (links, usedQ) = Normal (links', usedQ') /\
      Forall2 (fun q j => (q == indexNumber j)%Q) usedQ'
        (usedN ++ filter (fun i => negb (existsb (Nat.eqb i) usedN))
                    (firstSeenIndex
                       (filter (resolvable chunks) (map positionOf refs)))) /\
      Forall2 (resolves chunks)
        (usedN ++ filter (fun i => negb (existsb (Nat.eqb i) usedN))
                    (firstSeenIndex
                       (filter (resolvable chunks) (map positionOf refs))))
        links'.
Proof.
  induction 1 as [|x refs Hx Hrefs IH]; intros links usedQ usedN Hrel Hres.
  - exists links, usedQ. cbn [visitIndices map filter firstSeenIndex].
    rewrite app_nil_r. now split.
  - cbn [visitIndices map].
    destruct (visitChunkIndex_cases chunks links usedQ usedN x Hrel Hx)
      as [(u & Hnot & Hu & Hnat & ->) | (Hskip & ->)].
    + destruct (IH (links ++ [u])%list (usedQ ++ [x])%list
                   (usedN ++ [positionOf x])%list)
        as (links' & usedQ' & Hfold & Hrel' & Hres').
      * apply Forall2_app; [exact Hrel | now repeat constructor].
      * apply Forall2_app; [exact Hres | now repeat constructor].
      * exists links', usedQ'. split; [exact Hfold|].
        assert (Hr : resolvable chunks (positionOf x) = true)
          by (apply resolvable_iff; now exists u).
        cbn [filter]. rewrite Hr. cbn [firstSeenIndex filter].
        assert (Hn : existsb (Nat.eqb (positionOf x)) usedN = false).
        { destruct (existsb (Nat.eqb (positionOf x)) usedN) eqn:E;
            [|reflexivity].
          apply existsb_index_In in E. contradiction. }
        rewrite Hn. cbn [negb].
        rewrite filter_filter.
        rewrite <- app_assoc in Hrel', Hres'. cbn [app] in Hrel', Hres'.
        rewrite (filter_ext
                   (fun i => negb (existsb (Nat.eqb i)
                                     (usedN ++ [positionOf x])))
                   (fun i => negb (Nat.eqb i (positionOf x))
                             && negb (existsb (Nat.eqb i) usedN)))
          in Hrel', Hres'.
        -- now split.
        -- intros i. rewrite existsb_app. cbn [existsb].
           rewrite orb_false_r, negb_orb. apply andb_comm.
        -- intros i. rewrite existsb_app. cbn [existsb].
           rewrite orb_false_r, negb_orb. apply andb_comm.
    + destruct (IH links usedQ usedN Hrel Hres)
        as (links' & usedQ' & Hfold & Hrel' & Hres').
      exists links', usedQ'. split; [exact Hfold|].
      cbn [filter].
      destruct (resolvable chunks (positionOf x)) eqn:Hr.
      * destruct Hskip as [Hused|Hno]; [|discriminate].
        cbn [firstSeenIndex filter].
        rewrite (proj2 (existsb_index_In _ _) Hused). cbn [negb].
        rewrite filter_filter.
        rewrite (filter_ext
                   (fun i => negb (Nat.eqb i (positionOf x))
                             && negb (existsb (Nat.eqb i) usedN))
                   (fun i => negb (existsb (Nat.eqb i) usedN))).
        -- now split.
        -- intros i. destruct (Nat.eqb_spec i (positionOf x)) as [->|Hne];
             cbn [negb andb]; [|reflexivity].
           now rewrite (proj2 (existsb_index_In _ _) Hused).
      * now split.
Qed.

(** The loop over indices one of which throws. *)
Lemma visitIndices_unsafe (chunks : list GroundingChunk) (refs : list Q) :
  Exists (fun x => ~ safeIndex chunks x) refs ->
  forall links usedQ usedN,
    Forall2 (fun q j => (q == indexNumber j)%Q) usedQ usedN ->
    visitIndices chunks refs (links, usedQ) = ThrowsTypeError.
Proof.
  induction refs as [|x refs IH]; intros Hex links usedQ usedN Hrel;
    [inversion Hex|].
  cbn [visitIndices].
  destruct (safeIndex_cases chunks x) as [Hsafe|Hunsafe].
  - assert (Hrest : Exists (fun x => ~ safeIndex chunks x) refs).
    { inversion Hex as [? ? H|? ? H]; subst; [contradiction | exact H]. }
    destruct (visitChunkIndex_cases chunks links usedQ usedN x Hrel Hsafe)
      as [(u & _ & _ & Hnat & ->) | (_ & ->)].
    + apply (IH Hrest _ _ (usedN ++ [positionOf x])%list).
      apply Forall2_app; [exact Hrel | now repeat constructor].
    + now apply (IH Hrest _ _ usedN).
  - apply unsafeIndex_iff in Hunsafe.
    now rewrite (visitChunkIndex_throws chunks links usedQ usedN x Hrel).
Qed.

Lemma safe_or_unsafe (chunks : list GroundingChunk) (refs : list Q) :
  Forall (safeIndex chunks) refs \/
  Exists (fun x => ~ safeIndex chunks x) refs.
Proof.
  induction refs as [|x refs IH]; [left; constructor|].
  destruct (safeIndex_cases chunks x) as [Hsafe|Hunsafe].
  - destruct IH as [IH|IH]; [left; now constructor | right; now right].
  - right. left. now apply unsafeIndex_iff.
Qed.

Lemma visitIndices_app (chunks : list GroundingChunk) (a b : list Q) :
  forall acc,
    visitIndices chunks (a ++ b) acc =
    match visitIndices chunks a acc with
    | Normal acc' => visitIndices chunks b acc'
    | ThrowsTypeError => ThrowsTypeError
    end.
Proof.
  induction a as [|x a IH]; intros acc; cbn [app visitIndices]; [reflexivity|].
  destruct (visitChunkIndex chunks acc x); [apply IH | reflexivity].
Qed.

Lemma visitSupports_flat (chunks : list GroundingChunk)
    (supports : list GroundingSupport) :
  forall acc,
    visitSupports chunks supports acc =
    visitIndices chunks (chunkIndexRefs supports) acc.
Proof.
  unfold chunkIndexRefs.
  induction supports as [|s supports IH]; intros acc;
    cbn [visitSupports flat_map]; [reflexivity|].
  rewrite visitIndices_app.
  destruct (visitIndices chunks _ acc); [apply IH | reflexivity].
Qed.

(** The citation links when no index throws: the URIs of the cited
    positions, in their order. *)
Lemma collectCitations_safe (supports : list GroundingSupport)
    (chunks : list GroundingChunk) :
  Forall (safeIndex chunks) (chunkIndexRefs supports) ->
  exists links,
    collectCitations supports chunks = Normal links /\
    Forall2 (resolves chunks) (citedIndices supports chunks) links.
Proof.
  intros Hsafe. unfold collectCitations. rewrite visitSupports_flat.
  destruct (visitIndices_safe chunks _ Hsafe [] [] [])
    as (links' & usedQ' & -> & _ & Hres); [constructor | constructor |].
  exists links'. split; [reflexivity|].
  cbn [app existsb negb] in Hres.
  rewrite filter_all in Hres by (apply forallb_forall; reflexivity).
  exact Hres.
Qed.

Lemma collectCitations_unsafe (supports : list GroundingSupport)
    (chunks : list GroundingChunk) :
  Exists (fun x => ~ safeIndex chunks x) (chunkIndexRefs supports) ->
  collectCitations supports chunks = ThrowsTypeError.
Proof.
  intros Hex. unfold collectCitations. rewrite visitSupports_flat.
  rewrite (visitIndices_unsafe chunks _ Hex [] [] []); [reflexivity|].
  constructor.
Qed.

(** The cited positions are the referenced positions that resolve. *)
Lemma citedIndices_In (supports : list GroundingSupport)
    (chunks : list GroundingChunk) (idx : nat) :
  Forall (safeIndex chunks) (chunkIndexRefs supports) ->
  In idx (citedIndices supports chunks) <->
  referenced supports idx /\ exists u, resolves chunks idx u.
Proof.
  intros Hsafe. unfold citedIndices, referenced.
  rewrite firstSeenIndex_In, filter_In, in_map_iff, resolvable_iff. split.
  - intros [(x & Hpos & Hin) Hres]. split; [|exact Hres].
    exists x. split; [exact Hin|].
    rewrite Forall_forall in Hsafe. destruct (Hsafe x Hin) as [[i Hi]|Hb].
    + rewrite <- Hpos, (positionOf_indexNumber x i Hi). exact Hi.
    + exfalso. apply positionOf_beyond in Hb.
      destruct Hres as (u & chunk & Hnth & _).
      assert (idx < List.length chunks) by (apply nth_error_Some; congruence).
      lia.
  - intros [(x & Hin & Hx) Hres]. split; [|exact Hres].
    exists x. split; [now apply positionOf_indexNumber | exact Hin].
Qed.

Lemma safeIndexb_iff (chunks : list GroundingChunk) (x : Q) :
  safeIndexb chunks x = true <-> safeIndex chunks x.
Proof.
  unfold safeIndexb. split.
  - intros H. destruct (safeIndex_cases chunks x) as [Hs|[Hb Hi]];
      [exact Hs|]. rewrite Hb, Hi in H. discriminate.
  - intros Hs. destruct (belowLength x chunks) eqn:Hb; [|reflexivity].
    destruct (arrayIndex x) eqn:Hi; [reflexivity|].
    exfalso. now apply (proj2 (unsafeIndex_iff chunks x)).
Qed.

Lemma safeIndexb_all (chunks : list GroundingChunk) (refs : list Q) :
  forallb (safeIndexb chunks) refs = true ->
  Forall (safeIndex chunks) refs.
Proof.
  rewrite forallb_forall, Forall_forall. intros H x Hx.
  apply safeIndexb_iff. now apply H.
Qed.

(** The cases of the metadata before the loop. *)
Lemma addInlineCitations_cases (text : string) (g : GroundingMetadata) :
  (or_empty (groundingSupports g) = [] ->
   or_empty (groundingChunks g) = [] ->
   addInlineCitations text g = Normal (text ++ queriesLine g)) /\
  (or_empty (groundingSupports g) <> [] ->
   or_empty (groundingChunks g) <> [] ->
   addInlineCitations text g =
   match collectCitations (or_empty (groundingSupports g))
                          (or_empty (groundingChunks g)) with
   | Normal links =>
       Normal (text ++ match links with [] => "" | _ => sourcesLine links end
                    ++ queriesLine g)
   | ThrowsTypeError => ThrowsTypeError
   end) /\
  (recordedQueries g = None ->
   or_empty (groundingSupports g) = [] \/ or_empty (groundingChunks g) = [] ->
   addInlineCitations text g = Normal text) /\
  (or_empty (groundingSupports g) = [] \/ or_empty (groundingChunks g) = [] ->
   addInlineCitations text g = Normal text \/
   addInlineCitations text g = Normal (text ++ queriesLine g)).
Proof.
  unfold addInlineCitations, queriesLine.
  split; [|split; [|split]].
  - intros -> ->. simpl.
    destruct (recordedQueries g); [reflexivity | now rewrite append_nil_r].
  - intros Hs Hc.
    destruct (or_empty (groundingSupports g)) as [|s0 ss]; [now elim Hs|].
    destruct (or_empty (groundingChunks g)) as [|c0 cs]; [now elim Hc|].
    simpl is_nil. simpl andb. simpl orb. cbv iota.
    destruct (collectCitations (s0 :: ss) (c0 :: cs)) as [links|];
      [|now destruct (recordedQueries g)].
    destruct (recordedQueries g); destruct links;
      rewrite ?append_nil_r, ?append_assoc; reflexivity.
  - intros -> Hempty.
    destruct Hempty as [-> | ->]; simpl.
    + reflexivity.
    + now rewrite orb_true_r.
  - intros Hempty.
    destruct (or_empty (groundingSupports g)) as [|s0 ss];
      destruct (or_empty (groundingChunks g)) as [|c0 cs];
      destruct (recordedQueries g) as [queries|];
      cbn [is_nil andb orb]; auto;
      destruct Hempty; discriminate.
Qed.

(** C7, as the code has it, for metadata whose chunk indices are natural
    numbers or lie at or beyond the number of chunks: the text comes first;
    with supports and chunks both present the [Sources:] line lists the
    URIs of the referenced chunk positions that resolve, once per position
    and in the order of first reference, then the line of search queries
    when queries were recorded; with neither supports nor chunks only the
    line of search queries is added; without recorded queries and without
    supports or chunks the text is returned as it is. *)
Theorem citations_by_chunk_index (text : string) (g : GroundingMetadata) :
  Forall (safeIndex (or_empty (groundingChunks g)))
         (chunkIndexRefs (or_empty (groundingSupports g))) ->
  let supports := or_empty (groundingSupports g) in
  let chunks := or_empty (groundingChunks g) in
  exists links,
    collectCitations supports chunks = Normal links /\
    Forall2 (resolves chunks) (citedIndices supports chunks) links /\
    NoDup (citedIndices supports chunks) /\
    (forall idx,
       In idx (citedIndices supports chunks) <->
       referenced supports idx /\ exists u, resolves chunks idx u) /\
    (supports = [] -> chunks = [] ->
     addInlineCitations text g = Normal (text ++ queriesLine g)) /\
    (supports <> [] -> chunks <> [] ->
     addInlineCitations text g =
     Normal (text ++ match links with [] => "" | _ => sourcesLine links end
                  ++ queriesLine g)) /\
    (recordedQueries g = None -> supports = [] \/ chunks = [] ->
     addInlineCitations text g = Normal text).
Proof.
  intros Hsafe supports chunks.
  destruct (collectCitations_safe supports chunks Hsafe) as (links & Hc & Hres).
  destruct (addInlineCitations_cases text g) as (Hnone & Hboth & Hpass & _).
  exists links. split; [exact Hc|]. split; [exact Hres|].
  split; [apply firstSeenIndex_NoDup|].
  split; [intros idx; now apply citedIndices_In|].
  split; [exact Hnone|]. split; [|exact Hpass].
  intros Hs Hch. fold supports chunks in Hboth.
  now rewrite (Hboth Hs Hch), Hc.
Qed.

(** The sources of the example metadata follow the order of first
    reference: position 1 before position 0; the index 5 and the index 7/2
    lie beyond the three chunks, and the third chunk has no web URI. *)
Lemma citations_in_reference_order :
  addInlineCitations "Text" exampleGrounding
  = Normal ("Text" ++ nl ++ nl
              ++ "Sources: (https://b.example/y) (https://a.example/x)"
              ++ nl ++ nl ++ "Search queries used: rocq, stable sort").
Proof.
  destruct (citations_by_chunk_index "Text" exampleGrounding)
    as (links & _ & Hres & _ & _ & _ & Hboth & _).
  - apply safeIndexb_all. vm_compute. reflexivity.
  - rewrite Hboth by discriminate.
    change (citedIndices _ _) with [1; 0] in Hres.
    inversion Hres as [|i1 u1 l1 r1 H1 Hrest]; subst.
    inversion Hrest as [|i0 u0 l0 r0 H0 Hnil]; subst.
    inversion Hnil; subst.
    destruct H1 as (c1 & Hn1 & Hu1). destruct H0 as (c0 & Hn0 & Hu0).
    cbn in Hn1, Hn0. injection Hn1 as <-. injection Hn0 as <-.
    cbn in Hu1, Hu0. injection Hu1 as <-. injection Hu0 as <-.
    reflexivity.
Defined.

(** C7 as stated fails: two chunks that share a URI are both listed. *)
Lemma citations_repeat_shared_url :
  collectCitations [mkSupport (Some [0; 1]%Q)]
                   [webChunk "https://example.org/a";
                    webChunk "https://example.org/a"]
    = Normal ["https://example.org/a"; "https://example.org/a"]
  /\ addInlineCitations "Text"
       (mkGrounding None (Some [mkSupport (Some [0; 1]%Q)])
          (Some [webChunk "https://example.org/a";
                 webChunk "https://example.org/a"]))
     = Normal ("Text" ++ nl ++ nl
                 ++ "Sources: (https://example.org/a) (https://example.org/a)").
Proof. split; vm_compute; reflexivity. Qed.

(** Recorded queries are not reported when supports are present and chunks
    are missing. *)
Example citations_queries_dropped :
  addInlineCitations "Text"
    (mkGrounding (Some ["rocq"]) (Some [mkSupport (Some [0%Q])]) None)
  = Normal "Text".
Proof. vm_compute. reflexivity. Qed.

(** A negative index and a fractional index below the number of chunks
    throw; a fractional index beyond the chunks is skipped. *)
Example citations_index_throws :
  addInlineCitations "Text"
    (mkGrounding None (Some [mkSupport (Some [(-1)%Q])])
       (Some [webChunk "https://example.org/a"]))
  = ThrowsTypeError
  /\ addInlineCitations "Text"
       (mkGrounding None (Some [mkSupport (Some [0%Q; (1 # 2)%Q])])
          (Some [webChunk "https://example.org/a"]))
     = ThrowsTypeError
  /\ addInlineCitations "Text"
       (mkGrounding None (Some [mkSupport (Some [(3 # 2)%Q; 0%Q])])
          (Some [webChunk "https://example.org/a"]))
     = Normal ("Text" ++ nl ++ nl ++ "Sources: (https://example.org/a)").
Proof. repeat split; vm_compute; reflexivity. Qed.

(** ** Default-model selection *)

Section StableSort.

Context {A : Type}.
Variable cmp : A -> A -> Q.

Hypothesis before_total : forall x y, before cmp x y \/ before cmp y x.
Hypothesis before_trans :
  forall x y z, before cmp x y -> before cmp y z -> before cmp x z.

Lemma insert_sorted_In (x y : A) (l : list A) :
  In y (insert_sorted cmp x l) <-> y = x \/ In y l.
Proof.
  induction l as [|z l IH]; simpl.
  - split; [intros [H|[]]; auto | intros [H|[]]; auto].
  - destruct (Qle_bool (cmp x z) 0); simpl.
    + split; [intros [H|H]; auto | intros [H|H]; auto].
    + rewrite IH. split.
      * intros [H|[H|H]]; auto.
      * intros [H|[H|H]]; auto.
Qed.

Lemma js_sort_In (y : A) (l : list A) : In y (js_sort cmp l) <-> In y l.
Proof.
  induction l as [|x l IH]; simpl; [reflexivity|].
  rewrite insert_sorted_In, IH. split; intros [H|H]; auto.
Qed.

Lemma insert_sorted_head (x : A) (l : list A) :
  head_leads cmp l -> head_leads cmp (insert_sorted cmp x l).
Proof.
  destruct l as [|b t]; simpl.
  - intros _ y [<-|[]]. destruct (before_total x x); assumption.
  - intros Hb. destruct (Qle_bool (cmp x b) 0) eqn:Hxb; simpl.
    + intros y [<-|Hy].
      * destruct (before_total x x); assumption.
      * apply before_trans with b; [exact Hxb | now apply Hb].
    + intros y [<-|Hy].
      * apply Hb. now left.
      * apply insert_sorted_In in Hy. destruct Hy as [->|Hy].
        -- destruct (before_total b x) as [H|H]; [exact H|].
           unfold before in H. congruence.
        -- apply Hb. now right.
Qed.

Lemma js_sort_head (l : list A) : head_leads cmp (js_sort cmp l).
Proof.
  induction l as [|x l IH]; simpl; [exact I | now apply insert_sorted_head].
Qed.

End StableSort.

Lemma compareModels_before (a b : ModelInfo) :
  before compareModels a b <->
  (extractVersion (name b) < extractVersion (name a))%Q \/
  ((extractVersion (name b) == extractVersion (name a))%Q /\
   (isFlash b = true -> isFlash a = true)).
Proof.
  unfold before, compareModels.
  destruct (Qeq_bool (extractVersion (name b)) (extractVersion (name a)))
    eqn:Heq; simpl.
  - apply Qeq_bool_iff in Heq.
    destruct (isFlash a), (isFlash b); simpl; split;
      try (intros _; reflexivity); try discriminate;
      try (intros _; right; split; [exact Heq | now intros]).
    intros [H|[_ H]]; [lra | now specialize (H eq_refl)].
  - apply Qeq_bool_neq in Heq. rewrite Qle_bool_iff. split.
    + intros H. left. lra.
    + intros [H|[H _]]; [lra | contradiction].
Qed.

Lemma compareModels_total (a b : ModelInfo) :
  before compareModels a b \/ before compareModels b a.
Proof.
  rewrite !compareModels_before.
  destruct (Q_dec (extractVersion (name a)) (extractVersion (name b)))
    as [[H|H]|H].
  - right. now left.
  - left. now left.
  - destruct (isFlash a) eqn:Ha.
    + left. right. split; [lra | auto].
    + right. right. split; [lra | congruence].
Qed.

Lemma compareModels_trans (a b c : ModelInfo) :
  before compareModels a b -> before compareModels b c ->
  before compareModels a c.
Proof.
  rewrite !compareModels_before.
  intros [H1|[H1 F1]] [H2|[H2 F2]].
  - left. lra.
  - left. lra.
  - left. lra.
  - right. split; [lra | auto].
Qed.

Lemma sortCandidates_spec (allow : bool) (geminiModels : list ModelInfo) :
  geminiModels <> [] ->
  sortCandidates allow geminiModels <> [] /\
  (forall s, In s (sortCandidates allow geminiModels) -> In s geminiModels) /\
  (allow = false ->
   (exists s, In s geminiModels /\ isStable s = true) ->
   forall s, In s (sortCandidates allow geminiModels) -> isStable s = true).
Proof.
  intros Hne. unfold sortCandidates.
  destruct allow; simpl.
  - split; [exact Hne|]. split; [auto | discriminate].
  - destruct (filter isStable geminiModels) as [|s0 ss] eqn:Hst.
    + split; [exact Hne|]. split; [auto|].
      intros _ (s & Hin & Hs).
      assert (In s (filter isStable geminiModels))
        by (apply filter_In; auto).
      rewrite Hst in *. contradiction.
    + split; [discriminate|]. rewrite <- Hst. split.
      * intros s Hs. now apply filter_In in Hs.
      * intros _ _ s Hs. now apply filter_In in Hs.
Qed.

(** *** Reading the version *)

Lemma of_uint_acc_value (u : Decimal.uint) :
  forall acc,
    Zpos (Pos.of_uint_acc u acc)
    = (Zpos acc * 10 ^ Z.of_nat (Decimal.nb_digits u) + Z.of_uint u)%Z.
Proof.
  unfold Z.of_uint.
  induction u; intros acc;
    cbn [Pos.of_uint_acc Pos.of_uint Decimal.nb_digits];
    try rewrite IHu;
    rewrite ?Nat2Z.inj_succ, ?Z.pow_succ_r by lia;
    cbn [Z.of_N]; try rewrite (IHu 1%positive); try rewrite (IHu 2%positive);
    try rewrite (IHu 3%positive); try rewrite (IHu 4%positive);
    try rewrite (IHu 5%positive); try rewrite (IHu 6%positive);
    try rewrite (IHu 7%positive); try rewrite (IHu 8%positive);
    try rewrite (IHu 9%positive); try lia.
Qed.

Lemma digit_cases (c : ascii) :
  is_digit c = true ->
  forall u, exists u',
    uint_of_char c (Some u) = Some u' /\
    Decimal.nb_digits u' = S (Decimal.nb_digits u) /\
    Z.of_uint u'
    = (digit_value c * 10 ^ Z.of_nat (Decimal.nb_digits u) + Z.of_uint u)%Z.
Proof.
  intros Hc u.
  destruct c as [[] [] [] [] [] [] [] []]; try discriminate Hc;
    (eexists; split; [reflexivity|]; split; [reflexivity|]);
    unfold Z.of_uint; cbn [Pos.of_uint Z.of_N];
    rewrite ?of_uint_acc_value; unfold Z.of_uint;
    change (digit_value _) with 0%Z + change (digit_value _) with 1%Z
    + change (digit_value _) with 2%Z + change (digit_value _) with 3%Z
    + change (digit_value _) with 4%Z + change (digit_value _) with 5%Z
    + change (digit_value _) with 6%Z + change (digit_value _) with 7%Z
    + change (digit_value _) with 8%Z + change (digit_value _) with 9%Z;
    lia.
Qed.

Lemma digits_uint (ds : string) :
  all_chars is_digit ds = true ->
  exists u, NilEmpty.uint_of_string ds = Some u /\
            Decimal.nb_digits u = String.length ds.
Proof.
  induction ds as [|c ds IH]; simpl.
  - intros _. exists Decimal.Nil. split; reflexivity.
  - intros H. apply andb_true_iff in H. destruct H as [Hc Hds].
    destruct (IH Hds) as (u & Hu & Hn). rewrite Hu.
    destruct (digit_cases c Hc u) as (u' & Hu' & Hn' & _).
    exists u'. split; [exact Hu' | congruence].
Qed.

Lemma decimalValue_cons (c : ascii) (ds : string) :
  is_digit c = true -> all_chars is_digit ds = true ->
  decimalValue (String c ds)
  = (digit_value c * 10 ^ Z.of_nat (String.length ds) + decimalValue ds)%Z.
Proof.
  intros Hc Hds. unfold decimalValue. cbn [NilEmpty.uint_of_string].
  destruct (digits_uint ds Hds) as (u & Hu & Hn). rewrite Hu.
  destruct (digit_cases c Hc u) as (u' & Hu' & _ & Hv).
  rewrite Hu', Hv, Hn. reflexivity.
Qed.

Lemma read_digits_run (ds : string) :
  all_chars is_digit ds = true ->
  forall acc count rest,
    starts_with is_digit rest = false ->
    read_digits acc count (ds ++ rest)
    = ((acc * 10 ^ Z.of_nat (String.length ds) + decimalValue ds)%Z,
       count + String.length ds, rest).
Proof.
  induction ds as [|c ds IH]; intros Hds acc count rest Hrest.
  - cbn [append String.length]. replace (count + 0) with count by lia.
    change (decimalValue "") with 0%Z.
    replace (acc * 10 ^ Z.of_nat 0 + 0)%Z with acc by (simpl; lia).
    destruct rest as [|r rest]; [reflexivity|].
    cbn [read_digits]. cbn [starts_with] in Hrest. now rewrite Hrest.
  - cbn [all_chars] in Hds. apply andb_true_iff in Hds.
    destruct Hds as [Hc Hds].
    cbn [append read_digits]. rewrite Hc.
    rewrite (IH Hds _ _ _ Hrest), (decimalValue_cons c ds Hc Hds).
    cbn [String.length]. rewrite Nat2Z.inj_succ, Z.pow_succ_r by lia.
    f_equal. f_equal; lia.
Qed.

Lemma isStable_spec (m : ModelInfo) :
  isStable m = true <->
  ~ contains "-exp" (toLowerCase (name m)) /\
  ~ contains "-preview" (toLowerCase (name m)) /\
  ~ contains "experimental" (toLowerCase (name m)) /\
  ~ contains "-thinking-" (toLowerCase (name m)).
Proof.
  unfold isStable. cbv zeta. rewrite !andb_true_iff, !negb_includes. tauto.
Qed.

Lemma extractVersion_skip (pre rest : string) :
  all_chars no_digit pre = true ->
  extractVersion (pre ++ rest) = extractVersion rest.
Proof.
  induction pre as [|c pre IH]; cbn [all_chars append]; [reflexivity|].
  intros H. apply andb_true_iff in H. destruct H as [Hc Hpre].
  cbn [extractVersion]. unfold no_digit in Hc.
  destruct (is_digit c); [discriminate | now apply IH].
Qed.

Lemma extractVersion_no_digit (modelName : string) :
  all_chars no_digit modelName = true -> extractVersion modelName = 0%Q.
Proof.
  intros H. rewrite <- (append_nil_r modelName).
  now rewrite extractVersion_skip.
Qed.

Lemma extractVersion_at_digit (whole rest : string) :
  all_chars is_digit whole = true -> whole <> "" ->
  extractVersion (whole ++ rest) = toDouble (parse_version_at (whole ++ rest)).
Proof.
  destruct whole as [|c whole]; [intros _ H; now elim H|].
  cbn [all_chars]. intros H _. apply andb_true_iff in H. destruct H as [Hc _].
  cbn [append extractVersion]. now rewrite Hc.
Qed.

Lemma parse_version_integer (whole rest : string) :
  all_chars is_digit whole = true ->
  starts_with is_digit rest = false -> starts_with is_dot rest = false ->
  parse_version_at (whole ++ rest) = inject_Z (decimalValue whole).
Proof.
  intros Hw Hd Hdot. unfold parse_version_at.
  rewrite (read_digits_run whole Hw 0%Z 0 rest Hd).
  rewrite Z.mul_0_l, Z.add_0_l.
  destruct rest as [|r rest]; [reflexivity|].
  cbn [starts_with] in Hdot. unfold is_dot in Hdot.
  destruct r as [[] [] [] [] [] [] [] []]; try reflexivity; discriminate.
Qed.

Lemma parse_version_fraction (whole frac rest : string) :
  all_chars is_digit whole = true -> all_chars is_digit frac = true ->
  starts_with is_digit rest = false ->
  parse_version_at (whole ++ "." ++ frac ++ rest)
  = (inject_Z (decimalValue whole)
     + Qmake (decimalValue frac)
             (Z.to_pos (10 ^ Z.of_nat (String.length frac))))%Q.
Proof.
  intros Hw Hf Hd. unfold parse_version_at.
  rewrite (read_digits_run whole Hw 0%Z 0 ("." ++ frac ++ rest) eq_refl).
  rewrite Z.mul_0_l, Z.add_0_l. cbn [append].
  rewrite (read_digits_run frac Hf 0%Z 0 rest Hd).
  rewrite Z.mul_0_l, Z.add_0_l. reflexivity.
Qed.

Lemma sortCandidates_In (allow : bool) (models : list ModelInfo)
    (s : ModelInfo) :
  In s (sortCandidates allow (filter isGemini models)) <->
  In s models /\ isGemini s = true /\
  (allow = false ->
   (exists t, In t models /\ isGemini t = true /\ isStable t = true) ->
   isStable s = true).
Proof.
  unfold sortCandidates. destruct allow; cbn [negb].
  - rewrite filter_In. split.
    + intros [H1 H2]. split; [exact H1|]. split; [exact H2 | discriminate].
    + intros (H1 & H2 & _). now split.
  - destruct (filter isStable (filter isGemini models)) as [|s0 ss] eqn:Hst.
    + rewrite filter_In. split.
      * intros [H1 H2]. split; [exact H1|]. split; [exact H2|].
        intros _ (t & Ht & Hg & Hs). exfalso.
        assert (In t (filter isStable (filter isGemini models)))
          by (rewrite !filter_In; auto).
        rewrite Hst in *. contradiction.
      * intros (H1 & H2 & _). now split.
    + rewrite <- Hst, !filter_In. split.
      * intros [[H1 H2] H3]. split; [exact H1|]. split; [exact H2|]. auto.
      * intros (H1 & H2 & H3). split; [now split|].
        apply H3; [reflexivity|]. exists s0.
        assert (In s0 (filter isStable (filter isGemini models)))
          by (rewrite Hst; now left).
        rewrite !filter_In in *. tauto.
Qed.

Lemma selectDefaultModel_best (allow : bool) (models : list ModelInfo) :
  models <> [] ->
  exists m,
    In m models /\
    selectDefaultModel allow models = Some (name m) /\
    (filter isGemini models = [] -> hd_error models = Some m) /\
    (filter isGemini models <> [] ->
     In m (sortCandidates allow (filter isGemini models)) /\
     forall m',
       In m' (sortCandidates allow (filter isGemini models)) ->
       before compareModels m m').
Proof.
  intros Hne. destruct models as [|first rest]; [now elim Hne|].
  unfold selectDefaultModel.
  destruct (filter isGemini (first :: rest)) as [|g0 gs] eqn:Hg.
  - exists first. split; [now left|]. split; [reflexivity|].
    split; [reflexivity|]. intros H; now elim H.
  - rewrite <- Hg.
    set (geminiModels := filter isGemini (first :: rest)).
    assert (Hgne : geminiModels <> [])
      by (unfold geminiModels; rewrite Hg; discriminate).
    destruct (sortCandidates_spec allow geminiModels Hgne)
      as (Hsne & Hsub & _).
    pose proof (js_sort_head compareModels compareModels_total
                  compareModels_trans (sortCandidates allow geminiModels))
      as Hhead.
    destruct (js_sort compareModels (sortCandidates allow geminiModels))
      as [|best sorted] eqn:Hsorted.
    + exfalso. destruct (sortCandidates allow geminiModels) as [|x l];
        [now elim Hsne|].
      assert (In x (js_sort compareModels (x :: l)))
        by (apply js_sort_In; now left).
      rewrite Hsorted in *. contradiction.
    + assert (Hbest : In best (sortCandidates allow geminiModels)).
      { apply (js_sort_In compareModels). rewrite Hsorted. now left. }
      pose proof (Hsub _ Hbest) as Hbg.
      apply filter_In in Hbg. destruct Hbg as [Hbm Hbgem].
      exists best. split; [exact Hbm|]. split; [reflexivity|].
      split; [intros H; now elim Hgne|].
      intros _. split; [exact Hbest|].
      intros m' Hm'. apply Hhead. rewrite <- Hsorted. now apply js_sort_In.
Qed.

(** C9: for a non-empty list the selector answers with the name of a listed
    model: the first one when no name holds [gemini]; otherwise a candidate
    that reached the sort, whose version no other candidate exceeds, and a
    flash model when a flash candidate has that version; it is a stable
    model when experimental models are not allowed and a stable Gemini
    model is listed.  The candidates that reach the sort are the Gemini
    models, the stable ones only in that case.  The keywords are read in
    the lower-cased name; the version is 0 for a name without a digit, and
    otherwise the double nearest to the first run of digits, with the
    fraction that follows a dot. *)
Theorem default_model_selection (allow : bool) (models : list ModelInfo) :
  models <> [] ->
  (exists m,
     In m models /\
     selectDefaultModel allow models = Some (name m) /\
     (filter isGemini models = [] -> hd_error models = Some m) /\
     (filter isGemini models <> [] ->
      let survivors := sortCandidates allow (filter isGemini models) in
      In m survivors /\ isGemini m = true /\
      forall m',
        In m' survivors ->
        (extractVersion (name m') <= extractVersion (name m))%Q /\
        ((extractVersion (name m') == extractVersion (name m))%Q ->
         isFlash m' = true -> isFlash m = true)) /\
     (allow = false ->
      (exists s, In s models /\ isGemini s = true /\ isStable s = true) ->
      isStable m = true)) /\
  (forall s,
     In s (sortCandidates allow (filter isGemini models)) <->
     In s models /\ isGemini s = true /\
     (allow = false ->
      (exists t, In t models /\ isGemini t = true /\ isStable t = true) ->
      isStable s = true)) /\
  (forall s,
     (isGemini s = true <-> contains "gemini" (toLowerCase (name s))) /\
     (isFlash s = true <-> contains "flash" (toLowerCase (name s))) /\
     (isStable s = true <->
      ~ contains "-exp" (toLowerCase (name s)) /\
      ~ contains "-preview" (toLowerCase (name s)) /\
      ~ contains "experimental" (toLowerCase (name s)) /\
      ~ contains "-thinking-" (toLowerCase (name s)))) /\
  (forall modelName,
     all_chars no_digit modelName = true ->
     extractVersion modelName = 0%Q) /\
  (forall pre whole rest,
     all_chars no_digit pre = true ->
     all_chars is_digit whole = true -> whole <> "" ->
     starts_with is_digit rest = false ->
     starts_with is_dot rest = false ->
     extractVersion (pre ++ whole ++ rest)
     = toDouble (inject_Z (decimalValue whole))) /\
  (forall pre whole frac rest,
     all_chars no_digit pre = true ->
     all_chars is_digit whole = true -> whole <> "" ->
     all_chars is_digit frac = true ->
     starts_with is_digit rest = false ->
     extractVersion (pre ++ whole ++ "." ++ frac ++ rest)
     = toDouble (inject_Z (decimalValue whole)
                 + Qmake (decimalValue frac)
                         (Z.to_pos (10 ^ Z.of_nat (String.length frac))))).
Proof.
  intros Hne. split; [|split; [|split; [|split; [|split]]]].
  - destruct (selectDefaultModel_best allow models Hne)
      as (m & Hin & Hsel & Hfirst & Hbest).
    exists m. split; [exact Hin|]. split; [exact Hsel|].
    split; [exact Hfirst|]. split.
    + intros Hg. cbv zeta. destruct (Hbest Hg) as [Hsurv Hlead].
      split; [exact Hsurv|].
      split; [now apply (sortCandidates_In allow models m)|].
      intros m' Hm'. pose proof (Hlead m' Hm') as Hb.
      apply compareModels_before in Hb.
      destruct Hb as [Hlt|[Heq Hflash]].
      * split; [lra | intros Heq; lra].
      * split; [lra | intros _; exact Hflash].
    + intros Hallow Hex.
      destruct (filter isGemini models) as [|g gs] eqn:Hg.
      * exfalso. destruct Hex as (s & Hs & Hgem & _).
        assert (In s (filter isGemini models)) by (apply filter_In; auto).
        rewrite Hg in *. contradiction.
      * assert (Hgne : filter isGemini models <> [])
          by (rewrite Hg; discriminate).
        rewrite <- Hg in *. destruct (Hbest Hgne) as [Hsurv _].
        apply sortCandidates_In in Hsurv. now apply Hsurv.
  - intros s. apply sortCandidates_In.
  - intros s. split; [apply includes_contains|].
    split; [apply includes_contains | apply isStable_spec].
  - exact extractVersion_no_digit.
  - intros pre whole rest Hpre Hw Hne' Hd Hdot.
    rewrite (extractVersion_skip pre _ Hpre).
    rewrite (extractVersion_at_digit whole rest Hw Hne').
    now rewrite parse_version_integer.
  - intros pre whole frac rest Hpre Hw Hne' Hf Hd.
    rewrite (extractVersion_skip pre _ Hpre).
    rewrite (extractVersion_at_digit whole _ Hw Hne').
    now rewrite parse_version_fraction.
Qed.

(** On the mixed catalog the properties leave one answer: the foreign
    model is no Gemini model, the preview and the [-exp] release are not
    stable, the older release has a smaller version, and the pro release
    ties with a flash one. *)
Lemma default_model_of_mixed_catalog :
  selectDefaultModel false mixedCatalog = Some "Gemini-2.5-Flash".
Proof.
  destruct (default_model_selection false mixedCatalog)
    as [(m & Hin & Hsel & _ & Hbest & Hstable) _]; [discriminate|].
  rewrite Hsel.
  destruct Hbest as (_ & Hgem & Hmax); [vm_compute; discriminate|].
  assert (Hst : isStable m = true).
  { apply Hstable; [reflexivity|].
    exists (mkModel "gemini-2.5-pro" "" "" 2000000).
    split; [simpl; tauto | split; reflexivity]. }
  destruct (Hmax (mkModel "Gemini-2.5-Flash" "" "" 1000000)) as [Hle Hflash];
    [vm_compute; tauto|].
  simpl in Hin.
  destruct Hin as [<-|[<-|[<-|[<-|[<-|[<-|[]]]]]]].
  - discriminate Hgem.
  - discriminate Hst.
  - exfalso. apply Hle. reflexivity.
  - assert (H : isFlash (mkModel "gemini-2.5-pro" "" "" 2000000) = true)
      by (apply Hflash; reflexivity).
    discriminate H.
  - reflexivity.
  - discriminate Hst.
Defined.

(** Two decimals that [parseFloat] reads as the same double tie, and the
    flash model wins the tie. *)
Example default_model_versions_tie_as_doubles :
  selectDefaultModel false
    [ mkModel "gemini-1.00000000000000000001-pro" "" "" 32000;
      mkModel "gemini-1.0-flash" "" "" 32000 ]
  = Some "gemini-1.0-flash".
Proof. vm_compute. reflexivity. Qed.

(** Versions as the code reads them. *)
Example extractVersion_values :
  (extractVersion "gemini-1.5-flash-8b" == 3 # 2)%Q
  /\ (extractVersion "gemini-2.0-flash" == 2)%Q
  /\ (extractVersion "gemini-pro" == 0)%Q
  /\ (extractVersion "gemini-exp-1206" == 1206)%Q
  /\ (extractVersion "v2.-rc7" == 2)%Q
  /\ (extractVersion "gemini-1.00000000000000000001-pro" == 1)%Q
  /\ (extractVersion "gemini-2.1" == 4728779608739021 # 2251799813685248)%Q.
Proof. vm_compute. repeat split; reflexivity. Qed.

Example default_model_fallback_value :
  selectDefaultModel false getFallbackModels = Some "gemini-2.5-flash".
Proof. vm_compute. reflexivity. Qed.

(** The per-step share of a negative allowance is negative, and every
    section still appears with an empty excerpt. *)
Lemma synthesis_context_negative_budget :
  (maxCharsPerStep exampleSteps (-5) * Z.of_nat (List.length exampleSteps)
     <= -5 * 4
     < (maxCharsPerStep exampleSteps (-5) + 1)
         * Z.of_nat (List.length exampleSteps))%Z.
Proof.
  apply (synthesis_context_keeps_every_step exampleSteps (-5)).
  vm_compute. discriminate.
Defined.

Example synthesis_context_negative_value :
  buildSynthesisContext exampleSteps (-5) =
  "Research Iteration 1:" ++ nl ++ "..." ++ nl ++ nl
    ++ "Research Iteration 2:" ++ nl ++ "...".
Proof. vm_compute. reflexivity. Qed.

(** ** Context compactor: the recency-biased context *)

(** [n > maxTokens * 4 * 0.8] on integers. *)
Lemma over_budget_iff (n maxTokens : Z) :
  over_budget n maxTokens = true <-> (16 * maxTokens < 5 * n)%Z.
Proof.
  unfold over_budget, maxChars. rewrite negb_true_iff.
  rewrite <- not_true_iff_false, Qle_bool_iff.
  unfold Qle, Qmult, inject_Z. cbn [Qnum Qden]. lia.
Qed.

Lemma skipn_nth (A : Type) (l : list A) (i : nat) (x : A) :
  nth_error l i = Some x -> skipn i l = x :: skipn (S i) l.
Proof.
  revert i. induction l as [|y l IH]; intros [|i] H; simpl in *;
    try discriminate.
  - now injection H as ->.
  - now apply IH.
Qed.

Lemma summariesFrom_cons (steps : list ResearchStep) (i : nat)
    (step : ResearchStep) :
  nth_error steps i = Some step ->
  summariesFrom steps i = stepSummary i step :: summariesFrom steps (S i).
Proof.
  intros H. unfold summariesFrom. now rewrite (skipn_nth _ _ _ _ H).
Qed.

Lemma summariesFrom_end (steps : list ResearchStep) :
  summariesFrom steps (List.length steps) = [].
Proof. unfold summariesFrom. now rewrite skipn_all. Qed.

(** The loop entered at [next] with the summaries from [next] on already in
    the context. *)
Lemma smartContextLoop_spec (steps : list ResearchStep) (maxTokens : Z) :
  forall next,
    next <= List.length steps ->
    exists j,
      j <= next /\
      smartContextLoop steps maxTokens next
        (concat_all (summariesFrom steps next))
        (totalLength (summariesFrom steps next))
      = concat_all (summariesFrom steps j) /\
      (j < next ->
       (5 * totalLength (summariesFrom steps j) <= 16 * maxTokens)%Z) /\
      (0 < j ->
       exists step,
         nth_error steps (j - 1) = Some step /\
         (16 * maxTokens <
          5 * (totalLength (summariesFrom steps j)
               + js_length (stepSummary (j - 1) step)))%Z).
Proof.
  induction next as [|i IH]; intros Hle.
  - exists 0. split; [lia|]. split; [reflexivity|]. split; lia.
  - cbn [smartContextLoop].
    destruct (nth_error steps i) as [step|] eqn:Hnth.
    2:{ apply nth_error_None in Hnth. lia. }
    destruct (over_budget _ maxTokens) eqn:Hover.
    + apply over_budget_iff in Hover.
      exists (S i). split; [lia|]. split; [reflexivity|].
      split; [lia|]. intros _. exists step.
      replace (S i - 1) with i by lia. split; [exact Hnth | exact Hover].
    + assert (Hfit :
        (5 * (totalLength (summariesFrom steps (S i))
              + js_length (stepSummary i step)) <= 16 * maxTokens)%Z).
      { destruct (Z_lt_le_dec (16 * maxTokens)
                   (5 * (totalLength (summariesFrom steps (S i))
                         + js_length (stepSummary i step)))) as [Hlt|Hge];
          [|exact Hge].
        apply over_budget_iff in Hlt. congruence. }
      destruct IH as (j & Hj & Hloop & Hin & Hout); [lia|].
      rewrite (summariesFrom_cons _ _ _ Hnth) in Hloop.
      cbn [concat_all totalLength fold_right] in Hloop.
      fold (concat_all (summariesFrom steps (S i))) in Hloop.
      fold (totalLength (summariesFrom steps (S i))) in Hloop.
      rewrite Z.add_comm in Hloop.
      exists j. split; [lia|]. split; [exact Hloop|].
      split; [|exact Hout].
      intros Hlt. destruct (Nat.eq_dec j i) as [->|Hne].
      * rewrite (summariesFrom_cons _ _ _ Hnth).
        cbn [totalLength fold_right].
        fold (totalLength (summariesFrom steps (S i))). lia.
      * apply Hin. lia.
Qed.

(** C5: the context is made of the summaries of the most recent steps, in
    their order: the steps from some index [j] to the last one.  The
    summaries taken fit in [maxTokens * 4 * 0.8] characters, the summary of
    the step before [j] would not, and nothing of an older step is included.
    A summary is the first 1000 characters of the response at most, with an
    ellipsis when the response is longer, after [Previous finding N: ]. *)
Theorem smart_context_recency (steps : list ResearchStep) (maxTokens : Z) :
  (exists j,
      j <= List.length steps /\
      buildSmartContext steps maxTokens = concat_all (summariesFrom steps j) /\
      (j < List.length steps ->
       (5 * totalLength (summariesFrom steps j) <= 16 * maxTokens)%Z /\
       (inject_Z (totalLength (summariesFrom steps j))
          <= maxChars maxTokens)%Q) /\
      (0 < j ->
       exists step,
         nth_error steps (j - 1) = Some step /\
         (16 * maxTokens <
          5 * (totalLength (summariesFrom steps j)
               + js_length (stepSummary (j - 1) step)))%Z)) /\
  (forall i step,
      nth_error steps i = Some step ->
      exists kept,
        nth_error (summariesFrom steps 0) i = Some (stepSummary i step) /\
        stepSummary i step =
          "Previous finding " ++ string_of_nat (i + 1) ++ ": " ++ kept
            ++ (if (1000 <? js_length (response step))%Z then "..." else "")
            ++ nl ++ nl /\
        (exists rest, response step = kept ++ rest) /\
        js_length kept = Z.min 1000 (js_length (response step))).
Proof.
  split.
  - destruct (smartContextLoop_spec steps maxTokens (List.length steps))
      as (j & Hj & Hloop & Hin & Hout); [lia|].
    rewrite summariesFrom_end in Hloop. cbn in Hloop.
    exists j. split; [exact Hj|]. split.
    + destruct steps as [|s0 steps]; [|exact Hloop].
      simpl in Hj. replace j with 0 by lia. reflexivity.
    + split; [|exact Hout].
      intros Hlt. pose proof (Hin Hlt) as Hfit. split; [exact Hfit|].
      unfold maxChars, Qle, Qmult, inject_Z. cbn [Qnum Qden]. lia.
  - intros i step Hi.
    destruct (js_substring_keeps (response step)
                (Z.min 1000 (js_length (response step)))) as [Hlen Hrest].
    exists (js_substring (response step) 0
              (Z.min 1000 (js_length (response step)))).
    split; [|split; [|split]].
    + unfold summariesFrom. simpl skipn.
      now rewrite (mapi_from_nth _ _ 0 i step Hi).
    + unfold stepSummary. cbv zeta.
      replace (Z.min 1000 (js_length (response step))
                 <? js_length (response step))%Z
        with (1000 <? js_length (response step))%Z; [reflexivity|].
      destruct (Z.ltb_spec 1000 (js_length (response step)));
        symmetry; [apply Z.ltb_lt | apply Z.ltb_ge]; lia.
    + exact Hrest.
    + rewrite Hlen. unfold js_length. lia.
Qed.

Example smart_context_budget_cut :
  buildSmartContext exampleSteps 9 = "Previous finding 2: defg" ++ nl ++ nl
  /\ buildSmartContext exampleSteps 100 =
       "Previous finding 1: abc" ++ nl ++ nl
         ++ "Previous finding 2: defg" ++ nl ++ nl
  /\ buildSmartContext exampleSteps 8 = "".
Proof. repeat split; vm_compute; reflexivity. Qed.

(** ** Source extraction *)

Lemma drop_append (a b : string) : drop (String.length a) (a ++ b) = b.
Proof. induction a as [|c a IH]; simpl; [now destruct b | exact IH]. Qed.

Lemma substring_append (a b : string) (n : nat) :
  String.substring 0 (String.length a + n) (a ++ b)
  = a ++ String.substring 0 n b.
Proof. induction a as [|c a IH]; simpl; [reflexivity | now rewrite IH]. Qed.

Lemma substring_whole (a b : string) :
  String.substring 0 (String.length a) (a ++ b) = a.
Proof.
  induction a as [|c a IH]; simpl; [now destruct b | now rewrite IH].
Qed.

(** The greedy run is made of URL characters. *)
Lemma run_prefix (s : string) :
  all_chars url_char (String.substring 0 (run_length s) s) = true.
Proof.
  induction s as [|c s IH]; simpl; [reflexivity|].
  destruct (url_char c) eqn:Hc; simpl; [now rewrite Hc | reflexivity].
Qed.

Lemma scheme_length_split (s : string) (k : nat) :
  scheme_length s = Some k ->
  exists scheme,
    (scheme = "http://" \/ scheme = "https://") /\
    String.length scheme = k /\ s = scheme ++ drop k s.
Proof.
  unfold scheme_length.
  destruct (String.prefix "https://" s) eqn:H8.
  - intros [= <-]. exists "https://". split; [now right|].
    split; [reflexivity | now apply prefix_split in H8].
  - destruct (String.prefix "http://" s) eqn:H7; [|discriminate].
    intros [= <-]. exists "http://". split; [now left|].
    split; [reflexivity | now apply prefix_split in H7].
Qed.

Lemma match_length_shape (s : string) (len : nat) :
  match_length s = Some len -> matchShape (String.substring 0 len s).
Proof.
  unfold match_length.
  destruct (scheme_length s) as [k|] eqn:Hk; [|discriminate].
  destruct (scheme_length_split s k Hk) as (scheme & Hscheme & Hlen & Hs).
  destruct (run_length (drop k s)) as [|r] eqn:Hrun; [discriminate|].
  intros [= <-].
  exists scheme, (String.substring 0 (S r) (drop k s)).
  split; [exact Hscheme|]. split; [|split].
  - rewrite Hs at 1. rewrite <- Hlen. apply substring_append.
  - destruct (drop k s); simpl; [discriminate Hrun | discriminate].
  - rewrite <- Hrun. apply run_prefix.
Qed.

Lemma match_all_shape (s : string) :
  forall skip m, In m (match_all skip s) -> matchShape m.
Proof.
  induction s as [|c s IH]; intros skip m; [intros []|].
  cbn [match_all]. destruct skip as [|k]; [|apply IH].
  destruct (match_length (String c s)) as [len|] eqn:Hlen; [|apply IH].
  intros [<-|Hin]; [now apply match_length_shape | eapply IH; eauto].
Qed.

(** *** Stripping the trailing punctuation *)

Lemma strip_cons_kept (c : ascii) (s : string) :
  strip_trailing_punct s <> "" ->
  strip_trailing_punct (String c s) = String c (strip_trailing_punct s).
Proof.
  intros H. cbn [strip_trailing_punct].
  destruct (strip_trailing_punct s); [now elim H | reflexivity].
Qed.

Lemma strip_idempotent (s : string) :
  strip_trailing_punct (strip_trailing_punct s) = strip_trailing_punct s.
Proof.
  induction s as [|c s IH]; [reflexivity|].
  cbn [strip_trailing_punct].
  destruct (strip_trailing_punct s) as [|d t] eqn:Hs.
  - destruct (is_trailing_punct c) eqn:Hc; [reflexivity|].
    cbn [strip_trailing_punct]. now rewrite Hc.
  - rewrite strip_cons_kept; [now rewrite IH | rewrite IH; discriminate].
Qed.

Lemma strip_all_chars (p : ascii -> bool) (s : string) :
  all_chars p s = true -> all_chars p (strip_trailing_punct s) = true.
Proof.
  induction s as [|c s IH]; [reflexivity|].
  cbn [all_chars strip_trailing_punct]. intros H.
  apply andb_prop in H. destruct H as [Hc Hs]. specialize (IH Hs).
  destruct (strip_trailing_punct s) as [|d t].
  - destruct (is_trailing_punct c); [reflexivity|].
    cbn [all_chars]. now rewrite Hc.
  - cbn [all_chars] in *. now rewrite Hc, IH.
Qed.

Lemma strip_scheme (scheme run : string) :
  scheme = "http://" \/ scheme = "https://" ->
  strip_trailing_punct (scheme ++ run) = scheme ++ strip_trailing_punct run.
Proof.
  intros [-> | ->]; cbn [append strip_trailing_punct];
    destruct (strip_trailing_punct run); reflexivity.
Qed.

(** A stripped match that is long enough is a clean URL. *)
Lemma stripped_match_clean (m : string) :
  matchShape m ->
  10 < String.length (strip_trailing_punct m) ->
  cleanUrl (strip_trailing_punct m).
Proof.
  intros (scheme & run & Hscheme & -> & Hrun & Hchars) Hlen.
  rewrite (strip_scheme _ _ Hscheme) in *.
  exists scheme, (strip_trailing_punct run).
  split; [exact Hscheme|]. split; [reflexivity|]. split; [|split; [|split]].
  - intros Hempty. rewrite Hempty in Hlen.
    destruct Hscheme as [-> | ->]; simpl in Hlen; lia.
  - now apply strip_all_chars.
  - rewrite (strip_scheme _ _ Hscheme). now rewrite strip_idempotent.
  - exact Hlen.
Qed.

(** *** The set keeps the first occurrence of each value *)

Lemma set_has_In (x : string) (s : list string) :
  set_has x s = true <-> In x s.
Proof.
  unfold set_has. rewrite existsb_exists. split.
  - intros (y & Hin & Heq). apply String.eqb_eq in Heq. now subst.
  - intros Hin. exists x. split; [exact Hin | apply String.eqb_refl].
Qed.

Lemma fold_set_add (l : list string) :
  forall acc,
    fold_left set_add l acc =
    (acc ++ filter (fun y => negb (set_has y acc)) (firstSeen l))%list.
Proof.
  induction l as [|x l IH]; intros acc; cbn [fold_left firstSeen filter].
  - now rewrite app_nil_r.
  - rewrite IH. unfold set_add at 1 2.
    destruct (set_has x acc) eqn:Hx; cbn [negb].
    + f_equal. rewrite filter_filter. apply filter_ext_in.
      intros y _. destruct (String.eqb_spec y x) as [->|Hne]; cbn [negb andb].
      * now rewrite Hx.
      * reflexivity.
    + rewrite <- app_assoc. cbn [app]. f_equal. f_equal.
      rewrite filter_filter. apply filter_ext_in.
      intros y _. unfold set_has. rewrite existsb_app. cbn [existsb].
      rewrite orb_false_r, negb_orb, andb_comm. reflexivity.
Qed.

Lemma Set_of_firstSeen (l : list string) : Set_of l = firstSeen l.
Proof.
  unfold Set_of. rewrite fold_set_add. cbn [app].
  apply filter_all. apply forallb_forall. reflexivity.
Qed.

Lemma firstSeen_In (l : list string) (x : string) :
  In x (firstSeen l) <-> In x l.
Proof.
  induction l as [|y l IH]; cbn [firstSeen]; [reflexivity|].
  cbn [In]. rewrite filter_In, IH. split.
  - intros [H|[H _]]; auto.
  - intros [H|H]; [now left|].
    destruct (String.eqb_spec x y) as [->|Hne]; [now left|].
    right. split; [exact H | reflexivity].
Qed.

Lemma firstSeen_NoDup (l : list string) : NoDup (firstSeen l).
Proof.
  induction l as [|y l IH]; cbn [firstSeen]; constructor.
  - rewrite filter_In. intros [_ H]. now rewrite String.eqb_refl in H.
  - now apply NoDup_filter.
Qed.

Lemma firstSeen_id (l : list string) : NoDup l -> firstSeen l = l.
Proof.
  induction 1 as [|x l Hx Hnd IH]; cbn [firstSeen]; [reflexivity|].
  rewrite IH. f_equal. apply filter_all. apply forallb_forall.
  intros y Hy. destruct (String.eqb_spec y x) as [->|]; [contradiction|].
  reflexivity.
Qed.

(** *** Scanning the joined output again *)

Lemma run_length_app (r rest : string) :
  all_chars url_char r = true -> run_length rest = 0 ->
  run_length (r ++ rest) = String.length r.
Proof.
  intros Hr Hrest. induction r as [|c r IH]; cbn [append]; [exact Hrest|].
  cbn [all_chars] in Hr. apply andb_prop in Hr. destruct Hr as [Hc Hr].
  cbn [run_length String.length]. rewrite Hc. now rewrite IH.
Qed.

Lemma match_all_skip (a b : string) :
  match_all (String.length a) (a ++ b) = match_all 0 b.
Proof. induction a as [|c a IH]; [reflexivity | exact IH]. Qed.

Lemma scheme_length_app (scheme x : string) :
  scheme = "http://" \/ scheme = "https://" ->
  scheme_length (scheme ++ x) = Some (String.length scheme).
Proof. intros [-> | ->]; destruct x; reflexivity. Qed.

Lemma match_length_clean (scheme r rest : string) :
  scheme = "http://" \/ scheme = "https://" ->
  r <> "" -> all_chars url_char r = true -> run_length rest = 0 ->
  match_length ((scheme ++ r) ++ rest)
  = Some (String.length (scheme ++ r)).
Proof.
  intros Hscheme Hne Hr Hrest. unfold match_length.
  rewrite append_assoc, (scheme_length_app _ _ Hscheme), drop_append.
  rewrite (run_length_app _ _ Hr Hrest), length_append.
  destruct r; [now elim Hne | reflexivity].
Qed.

(** A clean URL followed by a character that ends the run is matched whole,
    and the scan goes on after it. *)
Lemma match_all_clean_head (u rest : string) :
  cleanUrl u -> run_length rest = 0 ->
  match_all 0 (u ++ rest) = u :: match_all 0 rest.
Proof.
  intros (scheme & r & Hscheme & -> & Hne & Hr & _ & _) Hrest.
  pose proof (match_length_clean scheme r rest Hscheme Hne Hr Hrest) as Hm.
  destruct (scheme ++ r) as [|c0 u'] eqn:Hu.
  { destruct Hscheme as [-> | ->]; discriminate. }
  cbn [append] in *. cbn [match_all]. rewrite Hm.
  f_equal.
  - change (String c0 (u' ++ rest)) with (String c0 u' ++ rest).
    apply substring_whole.
  - cbn [String.length]. rewrite Nat.sub_succ, Nat.sub_0_r.
    apply match_all_skip.
Qed.

Lemma match_all_after_space (x : string) :
  match_all 0 (" " ++ x) = match_all 0 x.
Proof. reflexivity. Qed.

Lemma match_all_joined (l : list string) :
  Forall cleanUrl l -> match_all 0 (join " " l) = l.
Proof.
  induction 1 as [|u l Hu Hl IH]; [reflexivity|].
  unfold join in *. cbn [String.concat].
  destruct l as [|v l].
  - rewrite <- (append_nil_r u) at 1.
    now rewrite (match_all_clean_head u "" Hu eq_refl).
  - rewrite (match_all_clean_head u (" " ++ String.concat " " (v :: l))
               Hu eq_refl).
    now rewrite match_all_after_space, IH.
Qed.

Lemma map_id_on (l : list string) (f : string -> string) :
  (forall x, In x l -> f x = x) -> map f l = l.
Proof.
  induction l as [|x l IH]; intros H; cbn [map]; [reflexivity|].
  rewrite H by now left. rewrite IH; [reflexivity|].
  intros y Hy. apply H. now right.
Qed.

(** C8, as the code has it: the sources are the matches of the URL pattern
    with the trailing punctuation stripped, kept when longer than 10 code
    units, duplicates removed in first-seen order; running the extraction on
    its own output joined by spaces gives the same output; a URL with and
    without a trailing slash are two entries. *)
Theorem extract_sources_spec (text : string) :
  extractSources text =
    firstSeen (filter (fun u => (10 <? String.length u)%nat)
                 (map strip_trailing_punct (match_all 0 text))) /\
  NoDup (extractSources text) /\
  (forall m, In m (match_all 0 text) -> matchShape m) /\
  (forall u, In u (extractSources text) -> cleanUrl u) /\
  (forall m,
      In m (match_all 0 text) ->
      (In (strip_trailing_punct m) (extractSources text) <->
       11 <= String.length (strip_trailing_punct m))) /\
  extractSources (join " " (extractSources text)) = extractSources text /\
  extractSources "http://a.com http://a.com/"
    = ["http://a.com"; "http://a.com/"].
Proof.
  assert (Heq : extractSources text =
    firstSeen (filter (fun u => (10 <? String.length u)%nat)
                 (map strip_trailing_punct (match_all 0 text))))
    by apply Set_of_firstSeen.
  assert (Hnd : NoDup (extractSources text))
    by (rewrite Heq; apply firstSeen_NoDup).
  assert (Hclean : forall u, In u (extractSources text) -> cleanUrl u).
  { intros u Hu. rewrite Heq in Hu.
    apply (proj1 (firstSeen_In _ _)) in Hu.
    apply filter_In in Hu. destruct Hu as [Hu Hlen].
    apply in_map_iff in Hu. destruct Hu as (m & <- & Hm).
    apply stripped_match_clean.
    - eapply match_all_shape; eauto.
    - now apply Nat.ltb_lt in Hlen. }
  split; [exact Heq|]. split; [exact Hnd|].
  split; [intros m Hm; eapply match_all_shape; eauto|].
  split; [exact Hclean|]. split; [|split].
  - intros m Hm. rewrite Heq, firstSeen_In, filter_In, Nat.ltb_lt. split.
    + intros [_ H]. lia.
    + intros H. split; [now apply in_map | lia].
  - unfold extractSources at 1.
    rewrite match_all_joined by (apply Forall_forall; exact Hclean).
    rewrite (map_id_on (extractSources text)).
    2:{ intros u Hu. destruct (Hclean u Hu) as (_ & _ & _ & _ & _ & _ & H & _).
        exact H. }
    rewrite filter_all.
    2:{ apply forallb_forall. intros u Hu.
        destruct (Hclean u Hu) as (_ & _ & _ & _ & _ & _ & _ & H).
        now apply Nat.ltb_lt. }
    rewrite Set_of_firstSeen. now apply firstSeen_id.
  - vm_compute. reflexivity.
Qed.

(** C8 as stated fails: the two spellings of the URL are two entries. *)
Lemma extract_trailing_slash_distinct :
  extractSources "http://a.com http://a.com/"
    = ["http://a.com"; "http://a.com/"]
  /\ List.length (extractSources "http://a.com http://a.com/") = 2.
Proof. split; vm_compute; reflexivity. Qed.

Example extract_sources_value :
  extractSources
    "see (https://a.example.org/x). Also http://b.io/y, and http://b.io/y; http://c:"
  = ["https://a.example.org/x"; "http://b.io/y"].
Proof. vm_compute. reflexivity. Qed.

(** ** Two more worked runs *)

(** A failure between successes: five research calls, four recorded steps,
    one synthesis call, and the run returns its report. *)
Example run_with_one_failed_pass :
  returned (fst (@run exampleHost envFlaky)) = true
  /\ succeededSteps (snd (@run exampleHost envFlaky)) = 4
  /\ List.length (filter isResearchCall (snd (@run exampleHost envFlaky))) = 5
  /\ List.length (snd (@run exampleHost envFlaky)) = 6.
Proof. repeat split; vm_compute; reflexivity. Qed.

(** A failed synthesis after three steps: the run returns its report. *)
Example run_with_failed_synthesis :
  returned (fst (@run exampleHost envNoSynthesis)) = true
  /\ succeededSteps (snd (@run exampleHost envNoSynthesis)) = 3
  /\ List.length (snd (@run exampleHost envNoSynthesis)) = 4.
Proof. repeat split; vm_compute; reflexivity. Qed.

(* ================================================================== *)
(** * Further properties of the code *)
(* ================================================================== *)

(** ** Token budgets *)

(** The two literals as doubles. *)
Lemma budget_literals :
  toDouble (75 # 100) = Qmake 6755399441055744 9007199254740992 /\
  toDouble (20 # 100) = Qmake 7205759403792794 36028797018963968.
Proof. split; vm_compute; reflexivity. Qed.

Lemma researchBudget_small (w : Z) :
  (0 <= w < 2 ^ 50)%Z -> researchBudget w = (3 * w / 4)%Z.
Proof.
  intros Hw. unfold researchBudget. rewrite (proj1 budget_literals).
  destruct w as [|p|p]; [reflexivity | | lia].
  change (toDouble (inject_Z (Zpos p) * (6755399441055744 # 9007199254740992)))
    with (nearestDouble (p * 6755399441055744) 9007199254740992).
  destruct (nearestDouble_neighbour (p * 6755399441055744) 9007199254740992
              (3 * Zpos p) 2) as [Hge Hle]; [lia | lia |].
  assert (Heq : (nearestDouble (p * 6755399441055744) 9007199254740992
                 == Qmake (3 * Zpos p) 4)%Q).
  { apply Qle_antisym; [apply Hle | apply Hge]; lia. }
  now rewrite (Qfloor_comp _ _ Heq).
Qed.

Lemma synthesisReserve_small (w : Z) :
  (0 <= w < 2 ^ 50)%Z -> synthesisReserve w = (w / 5)%Z.
Proof.
  intros Hw. unfold synthesisReserve. rewrite (proj2 budget_literals).
  destruct w as [|p|p]; [reflexivity | | lia].
  change (toDouble (inject_Z (Zpos p) * (7205759403792794 # 36028797018963968)))
    with (nearestDouble (p * 7205759403792794) 36028797018963968).
  pose proof (Z.mul_div_le (Zpos p) 5 ltac:(lia)) as Hlo.
  pose proof (Z.mul_succ_div_gt (Zpos p) 5 ltac:(lia)) as Hhi.
  set (a := (Zpos p / 5)%Z) in *.
  destruct (nearestDouble_neighbour (p * 7205759403792794) 36028797018963968
              a 0) as [Hge _]; [lia | lia |].
  destruct (nearestDouble_neighbour (p * 7205759403792794) 36028797018963968
              (32 * a + 31) 5) as [_ Hle]; [lia | lia |].
  apply Qfloor_between.
  - apply Qle_trans with (Qmake a 1); [apply Qle_refl | apply Hge; lia].
  - apply Qle_lt_trans with (Qmake (32 * a + 31) 32); [apply Hle; lia|].
    unfold Qlt. cbn [Qnum Qden inject_Z]. lia.
Qed.

(** X1: for a context window from 0 to below 2^50 the research budget is
    the whole part of three quarters of the window and the synthesis
    reserve the whole part of a fifth of it, as the floors of the rounded
    products; both are non-negative and together they leave a
    non-negative buffer of the window. *)
Theorem budget_and_reserve_fit (w : Z) :
  (0 <= w < 2 ^ 50)%Z ->
  researchBudget w = (3 * w / 4)%Z /\
  synthesisReserve w = (w / 5)%Z /\
  (0 <= researchBudget w)%Z /\
  (0 <= synthesisReserve w)%Z /\
  (researchBudget w + synthesisReserve w <= w)%Z /\
  (4 * researchBudget w <= 3 * w < 4 * (researchBudget w + 1))%Z /\
  (5 * synthesisReserve w <= w < 5 * (synthesisReserve w + 1))%Z.
Proof.
  intros Hw.
  rewrite (researchBudget_small w Hw), (synthesisReserve_small w Hw).
  pose proof (Z.mul_div_le (3 * w) 4 ltac:(lia)).
  pose proof (Z.mul_succ_div_gt (3 * w) 4 ltac:(lia)).
  pose proof (Z.mul_div_le w 5 ltac:(lia)).
  pose proof (Z.mul_succ_div_gt w 5 ltac:(lia)).
  pose proof (Z.div_pos (3 * w) 4 ltac:(lia) ltac:(lia)).
  pose proof (Z.div_pos w 5 ltac:(lia) ltac:(lia)).
  repeat split; lia.
Qed.

Lemma budget_and_reserve_of_pro_window :
  researchBudget 32000 = 24000%Z /\ synthesisReserve 32000 = 6400%Z /\
  (researchBudget 32000 + synthesisReserve 32000 <= 32000)%Z.
Proof.
  destruct (budget_and_reserve_fit 32000) as (Hb & Hr & _ & _ & H & _).
  - lia.
  - split; [exact Hb|]. split; [exact Hr | exact H].
Defined.

(** Beyond the bound the rounded product can exceed three quarters of the
    window: the budget follows the double. *)
Example researchBudget_of_a_huge_window :
  researchBudget 8024590901018170 = 6018443175763628%Z
  /\ (3 * 8024590901018170 / 4 = 6018443175763627)%Z.
Proof. split; vm_compute; reflexivity. Qed.

(** ** Context windows *)

(** X2: the context window of a model name is never 0; it is 32000 for a
    name that no model carries, and the window of the first model with that
    name when that window is not 0. *)
Theorem context_window_never_zero
    (models : list ModelInfo) (modelName : string) :
  getModelContextWindow models modelName <> 0%Z /\
  ((forall m, In m models -> name m <> modelName) ->
   getModelContextWindow models modelName = 32000%Z) /\
  (forall before m after,
      models = (before ++ m :: after)%list ->
      (forall m', In m' before -> name m' <> modelName) ->
      name m = modelName ->
      getModelContextWindow models modelName =
        (if (contextWindow m =? 0)%Z then 32000 else contextWindow m)%Z).
Proof.
  unfold getModelContextWindow. split; [|split].
  - destruct (find _ models) as [m|]; [|discriminate].
    unfold or_number. destruct (contextWindow m); discriminate.
  - intros Hnone.
    destruct (find _ models) as [m|] eqn:Hfind; [|reflexivity].
    apply find_some in Hfind. destruct Hfind as [Hin Heq].
    apply String.eqb_eq in Heq. now elim (Hnone m Hin).
  - intros before m after -> Hbefore Hname.
    assert (Hfind :
      find (fun m0 => String.eqb (name m0) modelName)
           (before ++ m :: after)%list = Some m).
    { induction before as [|b before IH]; simpl.
      - now rewrite Hname, String.eqb_refl.
      - destruct (String.eqb_spec (name b) modelName) as [Heq|_].
        + elim (Hbefore b); [now left | exact Heq].
        + apply IH. intros m' Hm'. apply Hbefore. now right. }
    rewrite Hfind. unfold or_number. destruct (contextWindow m); reflexivity.
Qed.

(** ** Invariants of the research loop *)

Section LoopInvariants.

Variable env : Env.

(** The three ways a pass can go, with the locals it leaves. *)
Lemma iteration_cases (st : LoopState) :
  ((researchBudget (modelContextWindow env) <= cumulativeTokens st)%Z /\
   iteration env st =
     Exit (mkState (iter st) (report st ++ budgetNote (iter st))
             (researchSteps st) (cumulativeTokens st)
             (consecutiveFailures st) (calls st))) \/
  ((cumulativeTokens st < researchBudget (modelContextWindow env))%Z /\
   exists r,
     chat env (List.length (calls st)) (researchRequest env st) = Resolved r /\
     iteration env st =
       Continue
         (mkState (S (iter st))
            ((report st ++ snd (promptAndHeading env (iter st)))
               ++ content r ++ nl ++ nl)
            (researchSteps st ++
               [mkStep (message (researchRequest env st)) (content r)
                  (extractSources (content r))
                  (match usageMetadata r with
                   | Some u => u
                   | None => zeroUsage
                   end)])%list
            (match usageMetadata r with
             | Some u => (cumulativeTokens st + totalTokenCount u)%Z
             | None => cumulativeTokens st
             end)
            0
            (calls st ++ [mkCall (researchRequest env st) (Resolved r)])%list))
  \/
  ((cumulativeTokens st < researchBudget (modelContextWindow env))%Z /\
   exists msg,
     chat env (List.length (calls st)) (researchRequest env st)
       = Rejected msg /\
     (iteration env st =
        Throw (iterationsFailingError (errorMessageOf msg))
              (calls st ++ [mkCall (researchRequest env st) (Rejected msg)])%list
      \/
      iteration env st =
        Continue
          (mkState (S (iter st))
             ((report st ++ snd (promptAndHeading env (iter st)))
                ++ failureNote (iter st) (errorMessageOf msg))
             (researchSteps st) (cumulativeTokens st)
             (S (consecutiveFailures st))
             (calls st ++ [mkCall (researchRequest env st) (Rejected msg)])%list))).
Proof.
  unfold iteration.
  destruct (researchBudget (modelContextWindow env) <=? cumulativeTokens st)%Z
    eqn:Hb.
  - left. apply Z.leb_le in Hb. split; [exact Hb | reflexivity].
  - apply Z.leb_gt in Hb. right.
    destruct (chat env _ _) as [r|msg] eqn:Hchat.
    + left. split; [exact Hb|]. exists r. split; reflexivity.
    + right. split; [exact Hb|]. exists msg. split; [reflexivity|].
      destruct (_ && _); [left | right]; reflexivity.
Qed.

Section Preserved.

(** A property of the locals that the first pass starts with and that every
    pass keeps. *)
Variable I : LoopState -> Prop.
Hypothesis I_continue :
  forall st st', I st -> iteration env st = Continue st' -> I st'.
Hypothesis I_exit :
  forall st st', I st -> iteration env st = Exit st' -> I st'.

Lemma stateAfter_preserved (k : nat) (st : LoopState) :
  I (initialState env) -> stateAfter env k = Some st -> I st.
Proof.
  intros Hinit. revert st. induction k as [|k IH]; simpl; intros st.
  - now intros [= <-].
  - destruct (stateAfter env k) as [st0|]; [|discriminate].
    destruct (iteration env st0) as [st'| |] eqn:Hit; try discriminate.
    intros [= <-].
    apply (I_continue st0); [apply IH; reflexivity | exact Hit].
Qed.

(** The loop ends by leaving with locals that have the property, or by a
    throw from a pass that started with such locals. *)
Lemma researchLoop_preserved (n : nat) (st : LoopState) :
  I st ->
  match researchLoop env n st with
  | Exit st' => I st'
  | Throw e made => exists st0, I st0 /\ iteration env st0 = Throw e made
  | Continue _ => False
  end.
Proof.
  revert st. induction n as [|n IH]; intros st HI; simpl; [exact HI|].
  destruct (iteration env st) as [st'|st'|e made] eqn:Hit.
  - apply IH. eapply I_continue; eauto.
  - eapply I_exit; eauto.
  - exists st. split; [exact HI | exact Hit].
Qed.

End Preserved.

End LoopInvariants.

Section LedgerFacts.

Variable env : Env.

Lemma tokensOfTrace_app (l : list Call) (c : Call) :
  tokensOfTrace (l ++ [c]) = (tokensOfTrace l + tokensOfCall c)%Z.
Proof.
  induction l as [|x l IH]; simpl; [lia|]. rewrite IH. lia.
Qed.

Lemma last_step_app (steps : list ResearchStep) (step : ResearchStep) :
  last_step (steps ++ [step]) = Some step.
Proof. unfold last_step. now rewrite rev_unit. Qed.

Lemma researchRequest_shaped (st : LoopState) (o : ChatOutcome) :
  researchShaped env (mkCall (researchRequest env st) o).
Proof. repeat split. Qed.

Lemma Ledger_initial : Ledger env (initialState env).
Proof.
  unfold Ledger, initialState; simpl.
  split; [reflexivity|]. split; [constructor|]. split; [reflexivity|].
  split; [exists ""; now rewrite append_nil_r|].
  split; [reflexivity | constructor].
Qed.

Lemma Ledger_continue (st st' : LoopState) :
  Ledger env st -> iteration env st = Continue st' -> Ledger env st'.
Proof.
  intros (Htok & Hshape & Hover & (t & Hrep) & Hlen & Hsrc) Hit.
  destruct (iteration_cases env st)
    as [[_ H] | [(Hb & r & Hchat & H) | (Hb & msg & Hchat & [H|H])]];
    rewrite H in Hit; try discriminate; injection Hit as <-;
    unfold Ledger; cbn [cumulativeTokens calls researchSteps report iter].
  - split; [|split; [|split; [|split; [|split]]]].
    + rewrite tokensOfTrace_app. unfold tokensOfCall. cbn [call_outcome].
      destruct (usageMetadata r); lia.
    + apply Forall_app. split; [exact Hshape|].
      constructor; [apply researchRequest_shaped | constructor].
    + rewrite last_step_app. cbn [step_usage].
      destruct (usageMetadata r); cbn [totalTokenCount zeroUsage]; lia.
    + rewrite Hrep. eexists. rewrite !append_assoc. reflexivity.
    + rewrite length_app. cbn [List.length]. lia.
    + apply Forall_app. split; [exact Hsrc|].
      constructor; [reflexivity | constructor].
  - split; [|split; [|split; [|split; [|split]]]].
    + rewrite tokensOfTrace_app. unfold tokensOfCall. cbn [call_outcome]. lia.
    + apply Forall_app. split; [exact Hshape|].
      constructor; [apply researchRequest_shaped | constructor].
    + exact Hover.
    + rewrite Hrep. eexists. rewrite !append_assoc. reflexivity.
    + rewrite length_app. cbn [List.length]. lia.
    + exact Hsrc.
Qed.

Lemma Ledger_exit (st st' : LoopState) :
  Ledger env st -> iteration env st = Exit st' -> Ledger env st'.
Proof.
  intros (Htok & Hshape & Hover & (t & Hrep) & Hlen & Hsrc) Hit.
  apply iteration_exit in Hit. destruct Hit as [_ ->].
  unfold Ledger; cbn [cumulativeTokens calls researchSteps report iter].
  split; [exact Htok|]. split; [exact Hshape|]. split; [exact Hover|].
  split; [|split; [exact Hlen | exact Hsrc]].
  rewrite Hrep. eexists. rewrite append_assoc. reflexivity.
Qed.

(** Both invariants hold wherever the loop stops. *)
Lemma researchLoop_audited (n : nat) :
  match researchLoop env n (initialState env) with
  | Exit st' => Inv st' /\ Ledger env st'
  | Throw e made =>
      exists st0, (Inv st0 /\ Ledger env st0) /\
                  iteration env st0 = Throw e made
  | Continue _ => False
  end.
Proof.
  apply (researchLoop_preserved env (fun st => Inv st /\ Ledger env st)).
  - intros st st' [HI HL] Hit. split;
      [eapply Inv_continue; eauto | eapply Ledger_continue; eauto].
  - intros st st' [HI HL] Hit. split; [|eapply Ledger_exit; eauto].
    apply iteration_exit in Hit. destruct Hit as [_ ->].
    now apply Inv_exit_state.
  - split; [apply Inv_initial | apply Ledger_initial].
Qed.

Lemma stateAfter_Ledger (k : nat) (st : LoopState) :
  stateAfter env k = Some st -> Ledger env st.
Proof.
  apply (stateAfter_preserved env (Ledger env)).
  - apply Ledger_continue.
  - apply Ledger_initial.
Qed.

(** X3: at the top of every pass the tokens spent before the last recorded
    step were still below the research budget, so the counter exceeds the
    budget by less than that step's tokens; with no recorded step the
    counter is 0. *)
Theorem budget_overshoot_one_round (k : nat) (st : LoopState) :
  stateAfter env k = Some st ->
  match last_step (researchSteps st) with
  | Some last =>
      (cumulativeTokens st - totalTokenCount (step_usage last)
         < researchBudget (modelContextWindow env))%Z
  | None => cumulativeTokens st = 0%Z
  end.
Proof.
  intros Hst. apply stateAfter_Ledger in Hst.
  destruct Hst as (_ & _ & Hover & _). exact Hover.
Qed.

End LedgerFacts.

Lemma budget_overshoot_hungry_run :
  (cumulativeTokens hungryState - 25000
     < researchBudget (modelContextWindow envHungry))%Z.
Proof.
  exact (budget_overshoot_one_round envHungry 1 hungryState eq_refl).
Defined.

(** ** The trace and the report of a run *)

Section RunAccounts.

Context {host : HostFormat}.
Variable env : Env.


Lemma synthesisRequest_shaped (st : LoopState) (o : ChatOutcome) :
  synthesisShaped env (mkCall (synthesisRequest env st) o).
Proof. repeat split. Qed.

(** What [finish] does with at least one recorded step: without a second
    step no call is added; with one the synthesis call is added and the
    report is that of the synthesis phase. *)
Lemma finish_shape (st : LoopState) :
  researchSteps st <> [] ->
  (List.length (researchSteps st) < 2 /\
   finish env st =
     (Returned (report st ++ sourcesSection (allSourcesOf (researchSteps st))
                  ++ statistics env st),
      calls st)) \/
  (2 <= List.length (researchSteps st) /\
   finish env st =
     (Returned (report (synthesize env st)
                  ++ sourcesSection (allSourcesOf (researchSteps st))
                  ++ statistics env (synthesize env st)),
      (calls st ++ [mkCall (synthesisRequest env st)
                      (chat env (List.length (calls st))
                            (synthesisRequest env st))])%list)).
Proof.
  intros Hne. unfold finish.
  assert (Hnil : is_nil (researchSteps st) = false)
    by (destruct (researchSteps st); [now elim Hne | reflexivity]).
  rewrite Hnil.
  destruct (1 <? List.length (researchSteps st))%nat eqn:Hmany.
  - right. apply Nat.ltb_lt in Hmany. split; [lia|].
    destruct (synthesize_calls env st) as (-> & -> & _). reflexivity.
  - left. apply Nat.ltb_ge in Hmany. split; [lia | reflexivity].
Qed.

(** The run, by how its loop ended, with both invariants. *)
Lemma run_audited :
  (exists st,
      Inv st /\ Ledger env st /\ run env = finish env st) \/
  (exists st0 msg,
      Inv st0 /\ Ledger env st0 /\ researchSteps st0 = [] /\
      run env =
        (Threw (iterationsFailingError (errorMessageOf msg)),
         (calls st0 ++ [mkCall (researchRequest env st0) (Rejected msg)])%list)).
Proof.
  unfold run.
  pose proof (researchLoop_audited env (Z.to_nat (maxIterations env))) as H.
  destruct (researchLoop env (Z.to_nat (maxIterations env))
              (initialState env)) as [st|st|e made]; [contradiction| |].
  - left. exists st. destruct H as [HI HL]. auto.
  - right. destruct H as (st0 & [HI HL] & Hit).
    destruct (iteration_throw env st0 e made HI Hit) as (Hnil & _).
    destruct (iteration_cases env st0)
      as [[_ H] | [(_ & r & _ & H) | (_ & msg & _ & [H|H])]];
      rewrite H in Hit; try discriminate.
    injection Hit as <- <-. exists st0, msg. auto.
Qed.

Lemma succeededSteps_rejected (l : list Call) (r : ChatRequest) (msg : string) :
  succeededSteps (l ++ [mkCall r (Rejected msg)]) = succeededSteps l.
Proof.
  rewrite succeededSteps_app. unfold resolved. cbn [call_outcome].
  rewrite andb_false_r. lia.
Qed.

Lemma succeededSteps_synthesis (l : list Call) (st : LoopState)
    (o : ChatOutcome) :
  succeededSteps (l ++ [mkCall (synthesisRequest env st) o])
  = succeededSteps l.
Proof. rewrite succeededSteps_app. cbn. lia. Qed.

Lemma researchLoop_calls_bound (n : nat) (st : LoopState) :
  match researchLoop env n st with
  | Exit st' => List.length (calls st') <= List.length (calls st) + n
  | Throw _ made => List.length made <= List.length (calls st) + n
  | Continue _ => False
  end.
Proof.
  revert st. induction n as [|n IH]; intros st; simpl; [lia|].
  destruct (iteration_cases env st)
    as [[_ H] | [(_ & r & _ & H) | (_ & msg & _ & [H|H])]]; rewrite H.
  - cbn [calls]. lia.
  - match goal with |- context [researchLoop env n ?s] =>
      specialize (IH s); destruct (researchLoop env n s) end;
      cbn [calls] in IH; rewrite ?length_app in IH;
      cbn [List.length] in IH; try contradiction; lia.
  - rewrite length_app. cbn [List.length]. lia.
  - match goal with |- context [researchLoop env n ?s] =>
      specialize (IH s); destruct (researchLoop env n s) end;
      cbn [calls] in IH; rewrite ?length_app in IH;
      cbn [List.length] in IH; try contradiction; lia.
Qed.

Lemma run_calls_bound :
  List.length (filter isResearchCall (snd (run env)))
    <= Z.to_nat (maxIterations env) /\
  List.length (snd (run env)) <= Z.to_nat (maxIterations env) + 1.
Proof.
  pose proof (researchLoop_calls_bound (Z.to_nat (maxIterations env))
                (initialState env)) as Hloop.
  unfold run.
  destruct (researchLoop env (Z.to_nat (maxIterations env))
              (initialState env)) as [st|st|e made] eqn:Hrun;
    [contradiction| |].
  - cbn [calls initialState List.length] in Hloop.
    destruct (researchSteps st) as [|s0 steps] eqn:Hsteps.
    + rewrite finish_no_steps by exact Hsteps. cbn [snd].
      pose proof (filter_length_le isResearchCall (calls st)). lia.
    + destruct (finish_shape st) as [[_ ->] | [_ ->]];
        [rewrite Hsteps; discriminate | |]; cbn [snd].
      * pose proof (filter_length_le isResearchCall (calls st)). lia.
      * rewrite filter_app, !length_app. cbn.
        pose proof (filter_length_le isResearchCall (calls st)). lia.
  - cbn [snd]. cbn [calls initialState List.length] in Hloop.
    pose proof (filter_length_le isResearchCall made). lia.
Qed.

End RunAccounts.

(** X4: a run makes at most [maxIterations] research calls and at most one
    call more; through [execute] that is at most 10 research calls and 11
    calls in all. *)
Theorem run_call_bounds (host : HostFormat) (env : Env) :
  List.length (filter isResearchCall (snd (run env)))
    <= Z.to_nat (maxIterations env) /\
  List.length (snd (run env)) <= Z.to_nat (maxIterations env) + 1 /\
  forall service backend args,
    List.length (filter isResearchCall
                   (snd (runExecute service backend args))) <= 10 /\
    List.length (snd (runExecute service backend args)) <= 11.
Proof.
  split; [apply run_calls_bound|]. split; [apply run_calls_bound|].
  intros service backend args. unfold runExecute.
  match goal with |- context [run ?e] =>
    destruct (run_calls_bound e) as [H1 H2] end.
  cbn [maxIterations] in H1, H2.
  assert (Z.to_nat (maxIterationsOf (max_iterations args)) <= 10).
  { unfold maxIterationsOf. lia. }
  lia.
Qed.

Section RunShape.

Context {host : HostFormat}.
Variable env : Env.

(** X5: the trace of a run is a sequence of research calls, all with the
    run's model, temperature 0.5, 8192 output tokens and grounding, followed
    by at most one call: the synthesis call, with temperature 0.6, 16384
    output tokens and no grounding, which is made exactly when the run
    returns a report and at least two research calls succeeded. *)
Theorem run_trace_shape :
  exists research extra,
    snd (run env) = (research ++ extra)%list /\
    Forall (researchShaped env) research /\
    (extra = [] \/ exists c, extra = [c] /\ synthesisShaped env c) /\
    (extra <> [] <->
     returned (fst (run env)) = true /\ 2 <= succeededSteps (snd (run env))).
Proof.
  destruct (run_audited env)
    as [(st & HI & HL & ->) | (st0 & msg & HI & HL & Hnil & ->)].
  - destruct HI as (_ & _ & Hcount & _).
    destruct HL as (_ & Hshape & _).
    destruct (researchSteps st) as [|s0 steps] eqn:Hsteps.
    + rewrite finish_no_steps by exact Hsteps. cbn [fst snd returned].
      exists (calls st), []. rewrite app_nil_r.
      split; [reflexivity|]. split; [exact Hshape|]. split; [now left|].
      split; [intros H; now elim H | intros [H _]; discriminate].
    + destruct (finish_shape env st) as [[Hlen ->] | [Hlen ->]];
        [rewrite Hsteps; discriminate | |]; cbn [fst snd returned].
      * exists (calls st), []. rewrite app_nil_r.
        split; [reflexivity|]. split; [exact Hshape|]. split; [now left|].
        split; [intros H; now elim H|]. rewrite Hcount. intros [_ H].
        rewrite Hsteps in Hlen. lia.
      * eexists (calls st), [_].
        split; [reflexivity|]. split; [exact Hshape|].
        split; [right; eexists; split;
                [reflexivity | apply synthesisRequest_shaped]|].
        split; [intros _|discriminate].
        split; [reflexivity|].
        rewrite succeededSteps_synthesis, Hcount. rewrite Hsteps in Hlen. lia.
  - cbn [fst snd returned]. destruct HL as (_ & Hshape & _).
    eexists _, []. rewrite app_nil_r.
    split; [reflexivity|]. split.
    + apply Forall_app. split; [exact Hshape|].
      constructor; [apply researchRequest_shaped | constructor].
    + split; [now left|].
      split; [intros H; now elim H | intros [H _]; discriminate].
Qed.


(** The text of the outcome, by whether a research call succeeded. *)
Lemma run_text_by_outcome :
  (succeededSteps (snd (run env)) = 0 /\ exists e, fst (run env) = Threw e) \/
  (succeededSteps (snd (run env)) <> 0 /\
   exists body,
     fst (run env) = Returned ("# Deep Research Report" ++ body)).
Proof.
  destruct (run_audited env)
    as [(st & HI & HL & ->) | (st0 & msg & HI & HL & Hnil & ->)].
  - destruct HI as (_ & _ & Hcount & _).
    destruct HL as (_ & _ & _ & (t & Hrep) & _).
    destruct (researchSteps st) as [|s0 steps] eqn:Hsteps.
    + left. rewrite finish_no_steps by exact Hsteps. cbn [fst snd].
      split; [now rewrite Hcount | eauto].
    + right.
      destruct (finish_with_steps env st) as (tail & extra & -> & Hx).
      { rewrite Hsteps. discriminate. }
      cbn [fst snd]. rewrite succeededSteps_extra, Hcount by exact Hx.
      split; [discriminate|].
      rewrite Hrep. unfold reportHeader. eexists.
      rewrite !append_assoc. reflexivity.
  - left. cbn [fst snd]. destruct HI as (_ & _ & Hcount & _).
    rewrite succeededSteps_rejected, Hcount, Hnil. split; [reflexivity|eauto].
Qed.

End RunShape.

(** X7: [execute] always answers with one text item: it starts with
    [Error: ] when no research call succeeded and with the title of the
    report otherwise. *)
Theorem execute_text_by_outcome (host : HostFormat)
    (service : GeminiService) (backend : Backend) (args : Args) :
  exists body,
    execute service backend args =
    [ mkText "text"
        ((if (succeededSteps (snd (runExecute service backend args)) =? 0)%nat
          then "Error: " else "# Deep Research Report") ++ body) ].
Proof.
  unfold execute, runExecute.
  match goal with |- context [run ?e] =>
    destruct (run_text_by_outcome e) as [[H0 (e0 & He)] | [H0 (body & Hb)]]
  end.
  - rewrite He, H0. eexists. reflexivity.
  - rewrite Hb. apply Nat.eqb_neq in H0. rewrite H0. eexists. reflexivity.
Qed.

(** ** Sources consulted *)

Lemma extractSources_clean (text u : string) :
  In u (extractSources text) -> cleanUrl u.
Proof.
  unfold extractSources. rewrite Set_of_firstSeen, firstSeen_In, filter_In.
  intros [Hu Hlen]. apply in_map_iff in Hu. destruct Hu as (m & <- & Hm).
  apply stripped_match_clean.
  - eapply match_all_shape; eauto.
  - now apply Nat.ltb_lt in Hlen.
Qed.

Lemma allSourcesOf_flat (steps : list ResearchStep) :
  forall acc,
    fold_left (fun acc step => fold_left set_add (sources step) acc) steps acc
    = fold_left set_add (flat_map sources steps) acc.
Proof.
  induction steps as [|s steps IH]; intros acc; simpl; [reflexivity|].
  rewrite fold_left_app. apply IH.
Qed.

(** X8: the sources consulted are the sources of the steps, each once, in
    the order of first appearance; when the sources of every step are those
    extracted from its response, each of them is a clean URL. *)
Theorem sources_consulted_union (steps : list ResearchStep) :
  allSourcesOf steps = firstSeen (flat_map sources steps) /\
  NoDup (allSourcesOf steps) /\
  (forall u,
      In u (allSourcesOf steps) <->
      exists step, In step steps /\ In u (sources step)) /\
  (Forall (fun step => sources step = extractSources (response step)) steps ->
   forall u, In u (allSourcesOf steps) -> cleanUrl u).
Proof.
  assert (Heq : allSourcesOf steps = firstSeen (flat_map sources steps)).
  { unfold allSourcesOf. rewrite allSourcesOf_flat. apply Set_of_firstSeen. }
  assert (Hin : forall u,
      In u (allSourcesOf steps) <->
      exists step, In step steps /\ In u (sources step)).
  { intros u. rewrite Heq, firstSeen_In, in_flat_map. reflexivity. }
  split; [exact Heq|]. split; [rewrite Heq; apply firstSeen_NoDup|].
  split; [exact Hin|].
  intros Hsrc u Hu. apply Hin in Hu. destruct Hu as (step & Hstep & Hu).
  rewrite Forall_forall in Hsrc. rewrite (Hsrc step Hstep) in Hu.
  eapply extractSources_clean; eauto.
Qed.

(** ** Size of the recency-biased context *)

Lemma concat_all_length (l : list string) :
  js_length (concat_all l) = totalLength l.
Proof.
  unfold js_length. induction l as [|s l IH]; simpl; [reflexivity|].
  rewrite length_append. unfold js_length in *. lia.
Qed.

Lemma stepSummary_length (i : nat) (step : ResearchStep) :
  (17 <= js_length (stepSummary i step))%Z.
Proof.
  unfold stepSummary, js_length. cbv zeta. simpl String.length. lia.
Qed.

Lemma totalLength_nonneg (l : list string) : (0 <= totalLength l)%Z.
Proof.
  induction l as [|s l IH]; simpl; [lia|]. unfold js_length. lia.
Qed.

Lemma totalLength_suffix (steps : list ResearchStep) (i : nat) :
  i <= List.length steps ->
  (totalLength (summariesFrom steps i) <= totalLength (summariesFrom steps 0))%Z.
Proof.
  induction i as [|i IH]; intros Hi; [lia|].
  destruct (nth_error steps i) as [step|] eqn:Hnth.
  2:{ apply nth_error_None in Hnth. lia. }
  specialize (IH ltac:(lia)).
  rewrite (summariesFrom_cons _ _ _ Hnth) in IH. cbn [totalLength fold_right] in IH.
  fold (totalLength (summariesFrom steps (S i))) in IH.
  pose proof (stepSummary_length i step). lia.
Qed.

(** Where [buildSmartContext] cuts: the summaries from some step on. *)
Lemma buildSmartContext_cut (steps : list ResearchStep) (maxTokens : Z) :
  exists j,
    j <= List.length steps /\
    buildSmartContext steps maxTokens = concat_all (summariesFrom steps j) /\
    (j < List.length steps ->
     (5 * totalLength (summariesFrom steps j) <= 16 * maxTokens)%Z) /\
    (0 < j ->
     exists step,
       nth_error steps (j - 1) = Some step /\
       (16 * maxTokens <
        5 * (totalLength (summariesFrom steps j)
             + js_length (stepSummary (j - 1) step)))%Z).
Proof.
  destruct (smartContextLoop_spec steps maxTokens (List.length steps))
    as (j & Hj & Hloop & Hin & Hout); [lia|].
  rewrite summariesFrom_end in Hloop. cbn in Hloop.
  exists j. split; [exact Hj|]. split; [|split; [exact Hin | exact Hout]].
  destruct steps as [|s0 steps]; [|exact Hloop].
  simpl in Hj. replace j with 0 by lia. reflexivity.
Qed.

(** X9: the context built for the next prompt is never longer than
    [maxTokens * 3.2] characters; it is empty when no tokens remain; and it
    holds the summary of every step when all the summaries fit. *)
Theorem smart_context_bounded (steps : list ResearchStep) (maxTokens : Z) :
  ((0 <= maxTokens)%Z ->
   (5 * js_length (buildSmartContext steps maxTokens) <= 16 * maxTokens)%Z) /\
  ((maxTokens <= 0)%Z -> buildSmartContext steps maxTokens = "") /\
  ((5 * totalLength (summariesFrom steps 0) <= 16 * maxTokens)%Z ->
   buildSmartContext steps maxTokens = concat_all (summariesFrom steps 0)).
Proof.
  destruct (buildSmartContext_cut steps maxTokens)
    as (j & Hj & -> & Hin & Hout).
  assert (Hfull : j = List.length steps -> concat_all (summariesFrom steps j) = "").
  { intros ->. now rewrite summariesFrom_end. }
  split; [|split].
  - intros Hpos. rewrite concat_all_length.
    destruct (Nat.eq_dec j (List.length steps)) as [->|Hne].
    + rewrite summariesFrom_end. change (totalLength []) with 0%Z. lia.
    + apply Hin. lia.
  - intros Hneg. apply Hfull.
    destruct (Nat.eq_dec j (List.length steps)) as [Heq|Hne]; [exact Heq|].
    exfalso. specialize (Hin ltac:(lia)).
    destruct (nth_error steps j) as [step|] eqn:Hnth.
    2:{ apply nth_error_None in Hnth. lia. }
    rewrite (summariesFrom_cons _ _ _ Hnth) in Hin.
    cbn [totalLength fold_right] in Hin.
    fold (totalLength (summariesFrom steps (S j))) in Hin.
    pose proof (stepSummary_length j step).
    pose proof (totalLength_nonneg (summariesFrom steps (S j))). lia.
  - intros Hfit. destruct j as [|j]; [reflexivity|]. exfalso.
    destruct (Hout ltac:(lia)) as (step & Hnth & Hover).
    replace (S j - 1) with j in * by lia.
    pose proof (totalLength_suffix steps j ltac:(lia)) as Hle.
    rewrite (summariesFrom_cons _ _ _ Hnth) in Hle.
    cbn [totalLength fold_right] in Hle.
    fold (totalLength (summariesFrom steps (S j))) in Hle. lia.
Qed.

(** ** Citations only add to the text *)

(** Post-processing that returns appends to the text, nothing or a blank
    line and more. *)
Lemma addInlineCitations_appends (text : string) (g : GroundingMetadata)
    (content : string) :
  addInlineCitations text g = Normal content ->
  exists suffix,
    content = text ++ suffix /\
    (suffix = "" \/ exists rest, suffix = nl ++ nl ++ rest).
Proof.
  unfold addInlineCitations.
  destruct (recordedQueries g) as [queries|];
    destruct (is_nil (or_empty (groundingSupports g)));
    destruct (is_nil (or_empty (groundingChunks g)));
    cbn [andb orb];
    try (intros [= <-]; exists "";
         split; [now rewrite append_nil_r | now left]);
    try (intros [= <-]; eexists; split;
         [reflexivity | right; unfold searchInfo; eexists; reflexivity]).
  - destruct (collectCitations _ _) as [links|]; [|discriminate].
    intros [= <-].
    destruct links;
      (eexists; split;
       [rewrite ?append_assoc; reflexivity
       | right; unfold searchInfo, sourcesLine;
         rewrite ?append_assoc; eexists; reflexivity]).
  - destruct (collectCitations _ _) as [links|]; [|discriminate].
    intros [= <-]. destruct links.
    + exists "". split; [now rewrite append_nil_r | now left].
    + eexists. split; [reflexivity|]. right. unfold sourcesLine.
      eexists. reflexivity.
Qed.

(** Post-processing throws exactly when the loop runs and meets an index
    below the number of chunks that is no natural number. *)
Lemma addInlineCitations_throws (text : string) (g : GroundingMetadata) :
  addInlineCitations text g = ThrowsTypeError <->
  or_empty (groundingSupports g) <> [] /\
  or_empty (groundingChunks g) <> [] /\
  Exists (fun x => ~ safeIndex (or_empty (groundingChunks g)) x)
         (chunkIndexRefs (or_empty (groundingSupports g))).
Proof.
  destruct (addInlineCitations_cases text g) as (_ & Hboth & _ & Hone).
  split.
  - intros Ht.
    assert (Hs : or_empty (groundingSupports g) <> []).
    { intros E. destruct (Hone (or_introl E)) as [H|H]; congruence. }
    assert (Hc : or_empty (groundingChunks g) <> []).
    { intros E. destruct (Hone (or_intror E)) as [H|H]; congruence. }
    split; [exact Hs|]. split; [exact Hc|].
    destruct (safe_or_unsafe (or_empty (groundingChunks g))
                (chunkIndexRefs (or_empty (groundingSupports g))))
      as [Hsafe|Hex]; [|exact Hex].
    exfalso. destruct (collectCitations_safe _ _ Hsafe) as (links & Hl & _).
    rewrite (Hboth Hs Hc), Hl in Ht. discriminate.
  - intros (Hs & Hc & Hex).
    now rewrite (Hboth Hs Hc), (collectCitations_unsafe _ _ Hex).
Qed.

(** X10: post-processing either throws or returns the text of the response
    followed by a suffix that is empty or starts with a blank line.  It
    throws exactly when supports and chunks are both present and some
    chunk index of a support is below the number of chunks without being a
    natural number (a negative or a fractional index).  When the loop
    returns, the [Sources:] line never lists more URLs than there are
    chunks. *)
Theorem citations_only_append (text : string) (g : GroundingMetadata) :
  (addInlineCitations text g = ThrowsTypeError <->
   or_empty (groundingSupports g) <> [] /\
   or_empty (groundingChunks g) <> [] /\
   Exists (fun x => ~ safeIndex (or_empty (groundingChunks g)) x)
          (chunkIndexRefs (or_empty (groundingSupports g)))) /\
  (forall content,
     addInlineCitations text g = Normal content ->
     exists suffix,
       content = text ++ suffix /\
       (suffix = "" \/ exists rest, suffix = nl ++ nl ++ rest)) /\
  (forall links,
     collectCitations (or_empty (groundingSupports g))
                      (or_empty (groundingChunks g)) = Normal links ->
     List.length links <= List.length (or_empty (groundingChunks g))).
Proof.
  split; [apply addInlineCitations_throws|].
  split; [apply addInlineCitations_appends|].
  intros links Hlinks.
  destruct (safe_or_unsafe (or_empty (groundingChunks g))
              (chunkIndexRefs (or_empty (groundingSupports g))))
    as [Hsafe|Hex].
  - destruct (collectCitations_safe _ _ Hsafe) as (links' & Hl & Hres).
    rewrite Hl in Hlinks. injection Hlinks as <-.
    rewrite <- (Forall2_length Hres).
    apply Nat.le_trans
      with (List.length (seq 0 (List.length (or_empty (groundingChunks g)))));
      [|rewrite length_seq; lia].
    apply NoDup_incl_length; [apply firstSeenIndex_NoDup|].
    intros idx Hidx. apply (citedIndices_In _ _ idx Hsafe) in Hidx.
    destruct Hidx as (_ & u & chunk & Hnth & _).
    apply in_seq. split; [lia|]. simpl. apply nth_error_Some. congruence.
  - rewrite (collectCitations_unsafe _ _ Hex) in Hlinks. discriminate.
Qed.

(** ** Error classification and tool results *)

(** X11: [handleError] always answers with an [McpError]; it returns an
    [McpError] unchanged, whatever the context; applying it again changes
    nothing; and the message it answers with ends with the message of the
    error it was given, with nothing before it when no context is given. *)
Theorem handleError_classifies (error : JsError) (context : option string) :
  instanceofMcpError (handleError error context) = true /\
  (instanceofMcpError error = true -> handleError error context = error) /\
  (forall context',
      handleError (handleError error context) context'
      = handleError error context) /\
  (exists before,
      messageOf (handleError error context) = before ++ messageOf error /\
      (context = None -> before = "")) /\
  (instanceofMcpError error = false ->
   exists name message code,
     handleError error context = KnownError name (mkError message code) 500 /\
     (code = "CONFIGURATION_ERROR" \/ code = "GEMINI_ERROR"
      \/ code = "UNKNOWN_ERROR")).
Proof.
  assert (Hknown : instanceofMcpError (handleError error context) = true).
  { unfold handleError. destruct error as [message|n e s]; cbn;
      [|reflexivity].
    destruct (includes "API key" message); [reflexivity|].
    destruct (_ || _); reflexivity. }
  split; [exact Hknown|]. split; [|split; [|split]].
  - intros H. unfold handleError. now rewrite H.
  - intros context'. unfold handleError at 1. now rewrite Hknown.
  - unfold handleError. destruct error as [message|n e s]; cbn.
    + destruct (includes "API key" message);
        [|destruct (_ || _)]; cbn;
        (eexists; split; [reflexivity | now intros ->]).
    + exists "". split; [reflexivity | reflexivity].
  - intros H. unfold handleError. rewrite H.
    destruct (includes "API key" (messageOf error));
      [|destruct (_ || _)]; do 3 eexists; (split; [reflexivity|]); auto.
Qed.

Lemma handleError_message (error : JsError) :
  messageOf (handleError error None) = messageOf error.
Proof.
  unfold handleError. destruct error as [message|n e s]; cbn; [|reflexivity].
  destruct (includes "API key" message); [reflexivity|].
  destruct (_ || _); reflexivity.
Qed.

(** X12: a failure result made from an error carries [Error: ] and the
    message of that error, whatever content was passed with it; without an
    error it carries the content; on the errors of [execute] it is the result
    of the deep-research tool. *)
Theorem tool_result_ignores_content (content : string) :
  (forall error,
      createToolResultOf false content (Some error)
      = [ mkText "text" ("Error: " ++ messageOf error) ]) /\
  createToolResultOf false content None
    = [ mkText "text" ("Error: " ++ content) ] /\
  (forall error, createToolResultOf true content error
                 = [ mkText "text" content ]) /\
  (forall name e status,
      createToolResultOf false content (Some (KnownError name e status))
      = createToolResult false content (Some e)).
Proof.
  split; [|split; [|split]].
  - intros error. unfold createToolResultOf. now rewrite handleError_message.
  - reflexivity.
  - reflexivity.
  - reflexivity.
Qed.

(** ** The chat tool *)

(** X13: without a message the chat tool answers [Error: Message is
    required] and sends nothing to the service; with one it sends exactly one
    request, which carries the arguments as they are, and answers with the
    content of the response, or with [Error: ] and the message of what the
    service threw. *)
Theorem chat_tool_outcomes (service : ChatParams -> ChatResult)
    (args : ChatToolArgs) :
  (a_message args = None \/ a_message args = Some "" ->
   chatToolExecute service args
   = ([ mkText "text" "Error: Message is required" ], [])) /\
  (forall message,
      a_message args = Some message -> message <> "" ->
      let request :=
        mkParams message (a_model args) (a_temperature args)
                 (a_max_tokens args) (a_system_prompt args)
                 (a_grounding args) in
      chatToolExecute service args =
      ([ mkText "text"
           (match service request with
            | ChatOk response => content response
            | ChatThrows error => "Error: " ++ messageOf error
            end) ],
       [request])).
Proof.
  split.
  - intros [H|H]; unfold chatToolExecute; rewrite H; reflexivity.
  - intros message H Hne request. unfold chatToolExecute. rewrite H.
    destruct message as [|c message]; [now elim Hne|].
    fold request. destruct (service request) as [r|e]; [reflexivity|].
    destruct (instanceofMcpError e); unfold createToolResultOf;
      now rewrite handleError_message.
Qed.

(** ** The registered deep-research handler *)

(** X14: the registered handler always reports [success = true] and hands
    over the text items of [execute]; when no research call succeeded its
    structured content is the error text, starting with [Error: ], still
    flagged as a success. *)
Theorem deep_research_handler_always_succeeds (host : HostFormat)
    (service : GeminiService) (backend : Backend) (args : Args) :
  h_success (deepResearchHandler service backend args) = true /\
  h_content (deepResearchHandler service backend args)
    = execute service backend args /\
  (succeededSteps (snd (runExecute service backend args)) = 0 ->
   exists body,
     h_structuredContent (deepResearchHandler service backend args)
       = "Error: " ++ body /\
     h_content (deepResearchHandler service backend args)
       = [ mkText "text" ("Error: " ++ body) ]).
Proof.
  split; [reflexivity|]. split; [reflexivity|].
  intros Hzero. unfold deepResearchHandler, execute, runExecute in *.
  match goal with |- context [run ?e] =>
    destruct (run_text_by_outcome e) as [[_ (e0 & He)] | [Hpos _]]
  end; [|contradiction].
  rewrite He. cbn. eexists. split; reflexivity.
Qed.

(** ** The chat call of the service *)

(** X15: a chat call fails with a [GeminiError] only; when it succeeds the
    provider returned an unblocked response with a text, the content starts
    with that text and is that text when the first candidate has no
    grounding metadata, and the usage metadata, the grounding metadata and
    the model name (the requested one, else the default) are handed over. *)
Theorem chat_outcomes (config : GeminiConfig) (defaultModel : string)
    (generate : ModelConfig -> string -> SdkOutcome) (now : string)
    (request : ChatParams) :
  match chatOf config defaultModel generate now request with
  | ChatThrows error => instanceofGeminiError error = true
  | ChatOk r =>
      exists response responseText,
        generate (modelConfigOf config defaultModel request)
                 (promptOf request) = SdkReturns response /\
        truthy (sdk_blockReason response) = None /\
        sdk_text response = Some responseText /\
        (exists suffix, content r = responseText ++ suffix) /\
        (candidateGrounding response = None -> content r = responseText) /\
        usageMetadata r = sdk_usageMetadata response /\
        groundingMetadata r = candidateGrounding response /\
        resp_model r = or_string (p_model request) defaultModel
  end.
Proof.
  unfold chatOf.
  destruct (generate _ _) as [response|error] eqn:Hgen.
  - destruct (truthy (sdk_blockReason response)) eqn:Hblock; [reflexivity|].
    destruct (sdk_text response) as [responseText|] eqn:Htext.
    + destruct (candidateGrounding response) as [g|] eqn:Hg.
      * destruct (addInlineCitations responseText g) as [processed|] eqn:Hc;
          [|reflexivity].
        exists response, responseText.
        split; [reflexivity|]. split; [exact Hblock|]. split; [exact Htext|].
        cbn [content usageMetadata groundingMetadata resp_model mc_model
             modelConfigOf].
        rewrite Hg. split; [|split; [discriminate | auto]].
        destruct (addInlineCitations_appends responseText g processed Hc)
          as (suffix & -> & _). now exists suffix.
      * exists response, responseText.
        split; [reflexivity|]. split; [exact Hblock|]. split; [exact Htext|].
        cbn [content usageMetadata groundingMetadata resp_model mc_model
             modelConfigOf].
        rewrite Hg. split; [exists ""; now rewrite append_nil_r | auto].
    + destruct (truthy (candidateFinishReason response)); reflexivity.
  - destruct (instanceofGeminiError error) eqn:He; [exact He | reflexivity].
Qed.

(** ** The research run over the service *)

Lemma iteration_rejected (env : Env) (st : LoopState) (msg : string) :
  (cumulativeTokens st < researchBudget (modelContextWindow env))%Z ->
  chat env (List.length (calls st)) (researchRequest env st) = Rejected msg ->
  iteration env st =
    if (2 <=? S (consecutiveFailures st))%nat && is_nil (researchSteps st)
    then Throw (iterationsFailingError (errorMessageOf msg))
               (calls st ++ [mkCall (researchRequest env st) (Rejected msg)])%list
    else Continue
           (mkState (S (iter st))
              ((report st ++ snd (promptAndHeading env (iter st)))
                 ++ failureNote (iter st) (errorMessageOf msg))
              (researchSteps st) (cumulativeTokens st)
              (S (consecutiveFailures st))
              (calls st ++ [mkCall (researchRequest env st) (Rejected msg)])%list).
Proof.
  intros Hb Hchat. unfold iteration.
  apply Z.leb_gt in Hb. now rewrite Hb, Hchat.
Qed.

(** X16: when the provider blocks every prompt, a research run over the
    service with at least two passes and a positive budget makes two calls,
    both rejected with the safety-block message, and ends in the
    RESEARCH_ITERATIONS_FAILING error, whose text quotes the block reason. *)
Theorem blocked_research_fails_fast (host : HostFormat)
    (config : GeminiConfig) (defaultModel now reason : string)
    (generateAt : nat -> ModelConfig -> string -> SdkOutcome)
    (question model : string) (focus : list string) (passes window : Z) :
  (forall n modelConfig prompt,
      exists response,
        generateAt n modelConfig prompt = SdkReturns response /\
        truthy (sdk_blockReason response) = Some reason) ->
  (2 <= passes)%Z ->
  (0 < researchBudget window)%Z ->
  let env :=
    mkEnv (serviceBackend config defaultModel generateAt now)
          question model focus passes window in
  exists first second,
    run env =
      (Threw (iterationsFailingError (blockedMessage reason)),
       [ mkCall first (Rejected (blockedMessage reason));
         mkCall second (Rejected (blockedMessage reason)) ]) /\
    code (iterationsFailingError (blockedMessage reason))
      = "RESEARCH_ITERATIONS_FAILING" /\
    contains reason (err_message (iterationsFailingError (blockedMessage reason))).
Proof.
  intros Hblocked Hpasses Hbudget env.
  assert (Hchat : forall n request,
            chat env n request = Rejected (blockedMessage reason)).
  { intros n request. unfold env, serviceBackend, chatOf. cbn [chat].
    destruct (Hblocked n (modelConfigOf config defaultModel
                           (paramsOfRequest request))
                (promptOf (paramsOfRequest request)))
      as (response & -> & ->). reflexivity. }
  assert (Hmsg : errorMessageOf (blockedMessage reason) = blockedMessage reason)
    by reflexivity.
  unfold run.
  assert (Hn : exists m, Z.to_nat (maxIterations env) = S (S m)).
  { exists (Z.to_nat passes - 2). unfold env. cbn [maxIterations]. lia. }
  destruct Hn as (m & ->).
  cbn [researchLoop].
  rewrite (iteration_rejected env (initialState env) (blockedMessage reason));
    [|exact Hbudget | apply Hchat].
  cbn [initialState consecutiveFailures researchSteps is_nil Nat.leb andb].
  match goal with |- context [iteration env ?s] =>
    rewrite (iteration_rejected env s (blockedMessage reason));
      [|exact Hbudget | apply Hchat]
  end.
  cbn [consecutiveFailures researchSteps is_nil Nat.leb andb calls app].
  rewrite Hmsg. do 2 eexists. split; [reflexivity|].
  split; [reflexivity|].
  exists ("Multiple research iterations failing consecutively."
            ++ nl ++ nl ++ "Error: "
            ++ "Response was blocked by safety filters. Reason: ").
  eexists. unfold iterationsFailingError, blockedMessage. cbn [err_message].
  rewrite !append_assoc. reflexivity.
Qed.

(** ** Model discovery *)

Lemma collectModels_from (entries : list ApiModel) :
  forall acc,
    fold_left
      (fun models model =>
         if supportsGenerateContent model
         then (models ++ [modelInfoOf model])%list
         else models)
      entries acc
    = (acc ++ map modelInfoOf (filter supportsGenerateContent entries))%list.
Proof.
  induction entries as [|e entries IH]; intros acc; simpl.
  - now rewrite app_nil_r.
  - rewrite IH. destruct (supportsGenerateContent e); simpl;
      [now rewrite <- app_assoc | reflexivity].
Qed.

Lemma replaceFirst_prefix (pattern rest : string) :
  replaceFirst pattern "" (pattern ++ rest) = rest.
Proof.
  assert (Hp : String.prefix pattern (pattern ++ rest) = true).
  { induction pattern as [|c p IH]; simpl; [now destruct rest|].
    destruct (ascii_dec c c) as [_|Hne]; [exact IH | now elim Hne]. }
  destruct pattern as [|c p]; simpl.
  - destruct rest; reflexivity.
  - simpl in Hp. rewrite Hp. apply drop_append.
Qed.

(** X17: discovery either fails with a [GeminiError] whose message starts
    with [Failed to fetch models: ], or succeeds on an ok response with a
    readable body, and then lists, in the order of the response, exactly the
    entries that support generateContent; every listed model has a context
    window other than 0 and a description, and an entry named
    [models/NAME] is listed as [NAME]. *)
Theorem discovered_models (outcome : FetchOutcome) :
  match fetchModelsFromAPI outcome with
  | Discovered models =>
      exists statusText data,
        outcome = FetchResponds true statusText (JsonData data) /\
        models = map modelInfoOf
                     (filter supportsGenerateContent (or_empty data)) /\
        (forall m, In m models ->
                   contextWindow m <> 0%Z /\ description m <> "") /\
        (forall entry rest,
            In entry (or_empty data) ->
            supportsGenerateContent entry = true ->
            api_name entry = "models/" ++ rest ->
            exists m, In m models /\ name m = rest)
  | DiscoveryFailed error =>
      instanceofGeminiError error = true /\
      exists rest, messageOf error = "Failed to fetch models: " ++ rest
  end.
Proof.
  destruct outcome as [error|[|] statusText [error|data]]; cbn;
    try (split; [reflexivity | eexists; reflexivity]).
  exists statusText, data. split; [reflexivity|].
  unfold collectModels. rewrite collectModels_from. cbn [app].
  split; [reflexivity|]. split.
  - intros m Hm. apply in_map_iff in Hm. destruct Hm as (entry & <- & _).
    unfold modelInfoOf. cbn [contextWindow description]. split.
    + unfold or_number. destruct (api_inputTokenLimit entry) as [[| |]|];
        discriminate.
    + unfold or_string. destruct (api_description entry) as [[|c d]|];
        try discriminate;
        destruct (replaceFirst "models/" "" (api_name entry)); discriminate.
  - intros entry rest Hin Hsup Hname. exists (modelInfoOf entry). split.
    + apply in_map. apply filter_In. auto.
    + unfold modelInfoOf. cbn [name]. rewrite Hname.
      apply (replaceFirst_prefix "models/" rest).
Qed.

Lemma selectDefaultModel_listed (allow : bool) (models : list ModelInfo) :
  models <> [] ->
  exists m, In m models /\ selectDefaultModel allow models = Some (name m).
Proof.
  intros Hne. destruct models as [|first rest]; [now elim Hne|].
  unfold selectDefaultModel.
  destruct (filter isGemini (first :: rest)) as [|g0 gs] eqn:Hg.
  - exists first. split; [now left | reflexivity].
  - rewrite <- Hg.
    set (geminiModels := filter isGemini (first :: rest)).
    assert (Hgne : geminiModels <> [])
      by (unfold geminiModels; rewrite Hg; discriminate).
    destruct (sortCandidates_spec allow geminiModels Hgne) as (Hsne & Hsub & _).
    destruct (js_sort compareModels (sortCandidates allow geminiModels))
      as [|best sorted] eqn:Hsorted.
    + exfalso. destruct (sortCandidates allow geminiModels) as [|x l];
        [now elim Hsne|].
      assert (In x (js_sort compareModels (x :: l)))
        by (apply js_sort_In; now left).
      rewrite Hsorted in *. contradiction.
    + exists best. split; [|reflexivity].
      assert (Hbest : In best (sortCandidates allow geminiModels)).
      { apply (js_sort_In compareModels). rewrite Hsorted. now left. }
      apply Hsub in Hbest. now apply filter_In in Hbest.
Qed.

(** X18: when discovery fails, [initializeModels] leaves the models and the
    default model as they were; when it succeeds the discovered list replaces
    the models, and the default model becomes the name of a discovered model,
    unless the list is empty or the selected name is empty, in which case the
    default stays. *)
Theorem initializeModels_outcome (config : GeminiConfig) (st : ServiceState)
    (outcome : FetchOutcome) :
  match fetchModelsFromAPI outcome with
  | DiscoveryFailed _ => initializeModels config st outcome = st
  | Discovered models =>
      s_availableModels (initializeModels config st outcome) = models /\
      (models = [] ->
       s_defaultModel (initializeModels config st outcome)
       = s_defaultModel st) /\
      (models <> [] ->
       exists m,
         In m models /\
         s_defaultModel (initializeModels config st outcome)
         = (if String.eqb (name m) "" then s_defaultModel st else name m))
  end.
Proof.
  unfold initializeModels.
  destruct (fetchModelsFromAPI outcome) as [models|error]; [|reflexivity].
  cbn [s_availableModels s_defaultModel].
  split; [reflexivity|]. split.
  - now intros ->.
  - intros Hne.
    destruct (selectDefaultModel_listed (cfg_allowExperimentalModels config)
                models Hne) as (m & Hin & ->).
    exists m. split; [exact Hin|]. unfold or_string.
    destruct (name m); reflexivity.
Qed.

(** *** Single-flight initialization *)

Lemma initStep_started (config : GeminiConfig) (st : ServiceState)
    (event : InitEvent) :
  s_initializationPromise st <> None ->
  snd (initStep config st event) = 0 /\
  s_initializationPromise (fst (initStep config st event)) <> None.
Proof.
  intros Hp. destruct event as [|outcome|]; cbn [initStep].
  - destruct (s_modelsInitialized st); cbn; [split; [reflexivity | exact Hp]|].
    destruct (s_initializationPromise st) eqn:Hq; cbn;
      [split; [reflexivity | now rewrite Hq] | now elim Hp].
  - destruct (s_initializationPromise st) as [[|]|] eqn:Hq; cbn;
      (split; [reflexivity|]); try discriminate; now rewrite Hq.
  - destruct (s_initializationPromise st) as [[|]|] eqn:Hq; cbn;
      (split; [reflexivity|]); try discriminate; now rewrite Hq.
Qed.

Lemma initRun_started (config : GeminiConfig) (events : list InitEvent) :
  forall st,
    s_initializationPromise st <> None ->
    snd (initRun config st events) = 0.
Proof.
  induction events as [|event events IH]; intros st Hp; [reflexivity|].
  cbn [initRun].
  destruct (initStep_started config st event Hp) as [H0 Hp'].
  destruct (initStep config st event) as [st1 started].
  cbn [fst snd] in *. specialize (IH st1 Hp').
  destruct (initRun config st1 events) as [st2 more].
  cbn [snd] in *. lia.
Qed.

Lemma initStep_flag (config : GeminiConfig) (st : ServiceState)
    (event : InitEvent) :
  flagAfterPromise st -> flagAfterPromise (fst (initStep config st event)).
Proof.
  unfold flagAfterPromise. intros Hflag.
  destruct event as [|outcome|]; cbn [initStep].
  - destruct (s_modelsInitialized st) eqn:Hi; cbn [fst].
    + intros _. exact (Hflag eq_refl).
    + destruct (s_initializationPromise st) eqn:Hq; cbn;
        intros H; congruence.
  - destruct (s_initializationPromise st) as [[|]|] eqn:Hq; cbn;
      intros H; first [reflexivity | rewrite Hq; exact (Hflag H)].
  - destruct (s_initializationPromise st) as [[|]|] eqn:Hq; cbn;
      intros H; first [reflexivity | rewrite Hq; exact (Hflag H)].
Qed.

(** X19: whatever callers enter, whenever the request settles and whoever
    resumes, a fresh service starts at most one discovery request; the
    initialized flag is only set once the promise is fulfilled; and the flag,
    once set, stops every later caller from starting a request. *)
Theorem discovery_starts_at_most_once (config : GeminiConfig)
    (defaultModel : string) (events : list InitEvent) :
  snd (initRun config (newServiceState defaultModel) events) <= 1 /\
  flagAfterPromise (fst (initRun config (newServiceState defaultModel) events))
  /\
  (forall later,
      s_modelsInitialized
        (fst (initRun config (newServiceState defaultModel) events)) = true ->
      snd (initRun config
             (fst (initRun config (newServiceState defaultModel) events))
             later) = 0).
Proof.
  assert (Hcount : forall evs st,
            s_initializationPromise st = None ->
            snd (initRun config st evs) <= 1).
  { induction evs as [|event evs IH]; intros st Hp; cbn [initRun snd]; [lia|].
    destruct event as [|outcome|]; cbn [initStep].
    - destruct (s_modelsInitialized st).
      + specialize (IH st Hp). destruct (initRun config st evs). cbn in *. lia.
      + rewrite Hp.
        match goal with |- context [initRun config ?s evs] =>
          pose proof (initRun_started config evs s) as H0;
          destruct (initRun config s evs) end.
        cbn in *. rewrite H0 by discriminate. lia.
    - rewrite Hp. specialize (IH st Hp).
      destruct (initRun config st evs). cbn in *. lia.
    - rewrite Hp. specialize (IH st Hp).
      destruct (initRun config st evs). cbn in *. lia. }
  assert (Hflag : forall evs st,
            flagAfterPromise st -> flagAfterPromise (fst (initRun config st evs))).
  { induction evs as [|event evs IH]; intros st Hst; [exact Hst|].
    cbn [initRun]. pose proof (initStep_flag config st event Hst) as H1.
    destruct (initStep config st event) as [st1 started]. cbn [fst] in H1.
    specialize (IH st1 H1). destruct (initRun config st1 evs). exact IH. }
  split; [apply Hcount; reflexivity|].
  assert (Hfinal : flagAfterPromise
            (fst (initRun config (newServiceState defaultModel) events))).
  { apply Hflag. unfold flagAfterPromise, newServiceState. cbn. discriminate. }
  split; [exact Hfinal|].
  intros later Hinit. apply initRun_started.
  rewrite (Hfinal Hinit). discriminate.
Qed.

(** ** When the terminal error can arise *)

Section TerminalError.

Context {host : HostFormat}.
Variable env : Env.

(** The loop is left after all its passes or by the budget guard. *)
Lemma researchLoop_exit_reason (n : nat) :
  forall st st',
    researchLoop env n st = Exit st' ->
    iter st' = iter st + n \/
    (researchBudget (modelContextWindow env) <= cumulativeTokens st')%Z.
Proof.
  induction n as [|n IH]; intros st st'; cbn [researchLoop].
  - intros [= <-]. left. lia.
  - destruct (iteration_cases env st)
      as [[Hb H] | [(_ & r & _ & H) | (_ & msg & _ & [H|H])]]; rewrite H.
    + intros [= <-]. right. exact Hb.
    + intros Hloop. apply IH in Hloop. cbn [iter] in Hloop.
      destruct Hloop as [Hl|Hl]; [left; lia | now right].
    + discriminate.
    + intros Hloop. apply IH in Hloop. cbn [iter] in Hloop.
      destruct Hloop as [Hl|Hl]; [left; lia | now right].
Qed.

(** X20: the ALL_ITERATIONS_FAILED error arises only in a run that made at
    most one call, none of them successful: a run of at most one pass, or a
    run whose research budget is not positive. *)
Theorem terminal_error_needs_short_run (e : McpError) :
  fst (run env) = Threw e ->
  code e = "ALL_ITERATIONS_FAILED" ->
  List.length (snd (run env)) <= 1 /\
  succeededSteps (snd (run env)) = 0 /\
  ((maxIterations env <= 1)%Z \/
   (researchBudget (modelContextWindow env) <= 0)%Z).
Proof.
  unfold run.
  pose proof (researchLoop_audited env (Z.to_nat (maxIterations env))) as Ha.
  pose proof (researchLoop_exit_reason (Z.to_nat (maxIterations env))
                (initialState env)) as Hr.
  destruct (researchLoop env (Z.to_nat (maxIterations env))
              (initialState env)) as [st|st|e0 made]; [contradiction| |].
  - destruct Ha as [HI HL]. specialize (Hr st eq_refl).
    destruct HI as (Htok & _ & Hcount & Hnone & _).
    destruct HL as (_ & _ & _ & _ & Hlen & _).
    destruct (researchSteps st) as [|s0 steps] eqn:Hsteps.
    + rewrite finish_no_steps by exact Hsteps. cbn [fst snd]. intros _ _.
      destruct (Hnone eq_refl) as [Hcalls Hle].
      split; [lia|]. split; [now rewrite Hcount|].
      destruct Hr as [Hall|Hbudget].
      * left. cbn [initialState iter] in Hall. lia.
      * right. simpl in Htok. lia.
    + destruct (finish_with_steps env st) as (tail & extra & -> & _).
      { rewrite Hsteps. discriminate. }
      discriminate.
  - destruct Ha as (st0 & [HI _] & Hit).
    destruct (iteration_throw env st0 e0 made HI Hit)
      as (_ & msg & c0 & c1 & -> & _).
    cbn [fst]. intros [= <-]. discriminate.
Qed.

End TerminalError.

(** ** More worked runs *)


(** A provider that blocks everything stops the research after two calls. *)
Lemma blocked_run_stops_after_two_calls :
  exists first second,
    @run exampleHost envBlocked =
      (Threw (iterationsFailingError (blockedMessage "SAFETY")),
       [ mkCall first (Rejected (blockedMessage "SAFETY"));
         mkCall second (Rejected (blockedMessage "SAFETY")) ]).
Proof.
  destruct (blocked_research_fails_fast exampleHost exampleConfig
              "gemini-2.5-flash" "2025-01-29T00:00:00.000Z" "SAFETY"
              blockingProvider "why?" "gemini-pro" [] 5 32000)
    as (first & second & Hrun & _).
  - intros n modelConfig prompt. eexists. split; reflexivity.
  - lia.
  - vm_compute. reflexivity.
  - exists first, second. exact Hrun.
Defined.

(** A single failed pass ends in the terminal error after one call. *)
Lemma single_pass_terminal_error :
  List.length (snd (@run exampleHost envSinglePass)) <= 1.
Proof.
  destruct (@terminal_error_needs_short_run exampleHost envSinglePass
              allIterationsFailedError) as (H & _).
  - vm_compute. reflexivity.
  - reflexivity.
  - exact H.
Defined.
